(** * joplin-online-client: the browser-side OAuth 2.0 + PKCE flow

    A shallow embedding of the TypeScript sources
    - [services/oneDriveOAuth.ts]   (class [OneDriveOAuthService])
    - [components/OneDriveAuth.tsx] (the stand-alone PKCE component)
    - [services/profileManager.ts]  (class [ProfileManager])
    - [services/joplinApi.ts]       (class [JoplinApiService])
    - [App.tsx]                     ([handleOAuthCallback], [handleConnect])

    Conventions.  A JavaScript string is a Rocq [string]: the sequence of
    bytes of its UTF-8 encoding, so [TextEncoder.encode] is the identity on
    the bytes and a [Uint8Array] is a [list byte].  [sessionStorage] and
    [localStorage] are finite maps from strings to strings.  Everything the
    platform decides (random bytes, the clock, network answers, the
    joplin-sync library) enters the functions as an explicit argument. *)

From Stdlib Require Import ZArith NArith List String Ascii Lia Bool.
From Stdlib.Strings Require Import Byte.
From stdpp Require Import gmap strings list.

Open Scope string_scope.

(** ** Small string toolkit *)

Module Str.

Fixpoint all (p : ascii -> bool) (s : string) : bool :=
  match s with
  | EmptyString => true
  | String c r => p c && all p r
  end.

Fixpoint map_chars (f : ascii -> ascii) (s : string) : string :=
  match s with
  | EmptyString => EmptyString
  | String c r => String (f c) (map_chars f r)
  end.

(** [s.replace(/c/g, d)] for a one-character pattern. *)
Definition replace_all (c d : ascii) (s : string) : string :=
  map_chars (fun x => if Ascii.eqb x c then d else x) s.

(** [s.replace(/c+$/, '')]: drops the maximal run of [c] that ends [s]. *)
Fixpoint strip_trailing (c : ascii) (s : string) : string :=
  match s with
  | EmptyString => EmptyString
  | String a r =>
      match strip_trailing c r with
      | EmptyString => if Ascii.eqb a c then EmptyString else String a EmptyString
      | r' => String a r'
      end
  end.

Fixpoint repeat_char (c : ascii) (n : nat) : string :=
  match n with
  | O => EmptyString
  | S k => String c (repeat_char c k)
  end.

(** [String.fromCharCode(...buffer)] on a byte array. *)
Fixpoint fromCharCode (buffer : list byte) : string :=
  match buffer with
  | [] => EmptyString
  | b :: r => String (ascii_of_byte b) (fromCharCode r)
  end.

(** [new TextEncoder().encode(s)]. *)
Fixpoint encode_utf8 (s : string) : list byte :=
  match s with
  | EmptyString => []
  | String c r => byte_of_ascii c :: encode_utf8 r
  end.

(** The value of a hexadecimal digit. *)
Definition hex_value (c : ascii) : option N :=
  let n := N_of_ascii c in
  if ((48 <=? n) && (n <=? 57))%N then Some (n - 48)%N
  else if ((65 <=? n) && (n <=? 70))%N then Some (n - 55)%N
  else if ((97 <=? n) && (n <=? 102))%N then Some (n - 87)%N
  else None.

(** [xs.join(sep)]. *)
Fixpoint join (sep : string) (xs : list string) : string :=
  match xs with
  | [] => EmptyString
  | [x] => x
  | x :: r => x +:+ sep +:+ join sep r
  end.

End Str.

(** ** Base64 *)

Module Base64.

Definition std_alphabet : string :=
  "ABCDEFGHIJKLMNOPQRSTUVWXYZabcdefghijklmnopqrstuvwxyz0123456789+/".

Definition url_alphabet : string :=
  "ABCDEFGHIJKLMNOPQRSTUVWXYZabcdefghijklmnopqrstuvwxyz0123456789-_".

Definition digit (alphabet : string) (i : N) : ascii :=
  match String.get (N.to_nat i) alphabet with
  | Some c => c
  | None => "="%char
  end.

Definition hi6 (a : N) : N := (a / 4)%N.
Definition mid6a (a b : N) : N := ((a mod 4) * 16 + b / 16)%N.
Definition mid6b (b c : N) : N := ((b mod 16) * 4 + c / 64)%N.
Definition lo6 (c : N) : N := (c mod 64)%N.

(** The platform's [btoa] on a binary string (one byte per character):
    three input bytes give four digits, a short last group is padded
    with [=]. *)
Fixpoint btoa (s : string) : string :=
  match s with
  | EmptyString => EmptyString
  | String a EmptyString =>
      let x := N_of_ascii a in
      String (digit std_alphabet (hi6 x))
        (String (digit std_alphabet (mid6a x 0)) "==")
  | String a (String b EmptyString) =>
      let x := N_of_ascii a in let y := N_of_ascii b in
      String (digit std_alphabet (hi6 x))
        (String (digit std_alphabet (mid6a x y))
           (String (digit std_alphabet (mid6b y 0)) "="))
  | String a (String b (String c r)) =>
      let x := N_of_ascii a in let y := N_of_ascii b in let z := N_of_ascii c in
      String (digit std_alphabet (hi6 x))
        (String (digit std_alphabet (mid6a x y))
           (String (digit std_alphabet (mid6b y z))
              (String (digit std_alphabet (lo6 z)) (btoa r))))
  end.

(** Reference encoder, written from RFC 4648 section 5: the URL-safe
    alphabet, and no padding. *)
Fixpoint rfc4648_base64url_nopad (l : list byte) : string :=
  match l with
  | [] => EmptyString
  | [a] =>
      let x := Byte.to_N a in
      String (digit url_alphabet (hi6 x))
        (String (digit url_alphabet (mid6a x 0)) EmptyString)
  | [a; b] =>
      let x := Byte.to_N a in let y := Byte.to_N b in
      String (digit url_alphabet (hi6 x))
        (String (digit url_alphabet (mid6a x y))
           (String (digit url_alphabet (mid6b y 0)) EmptyString))
  | a :: b :: c :: r =>
      let x := Byte.to_N a in let y := Byte.to_N b in let z := Byte.to_N c in
      String (digit url_alphabet (hi6 x))
        (String (digit url_alphabet (mid6a x y))
           (String (digit url_alphabet (mid6b y z))
              (String (digit url_alphabet (lo6 z))
                 (rfc4648_base64url_nopad r))))
  end.

End Base64.

(** ** SHA-256 ([crypto.subtle.digest('SHA-256', data)]), after FIPS 180-4 *)

Module SHA256.

Definition mask32 : N := 0xFFFFFFFF.
Definition add32 (x y : N) : N := N.land (x + y) mask32.
Definition rotr (n x : N) : N :=
  N.land (N.lor (N.shiftr x n) (N.shiftl x (32 - n))) mask32.
Definition shr (n x : N) : N := N.shiftr x n.
Definition not32 (x : N) : N := N.lxor x mask32.
Definition xor3 (x y z : N) : N := N.lxor (N.lxor x y) z.

Definition Ch (x y z : N) : N := N.lxor (N.land x y) (N.land (not32 x) z).
Definition Maj (x y z : N) : N := xor3 (N.land x y) (N.land x z) (N.land y z).
Definition Sigma0 (x : N) : N := xor3 (rotr 2 x) (rotr 13 x) (rotr 22 x).
Definition Sigma1 (x : N) : N := xor3 (rotr 6 x) (rotr 11 x) (rotr 25 x).
Definition sigma0 (x : N) : N := xor3 (rotr 7 x) (rotr 18 x) (shr 3 x).
Definition sigma1 (x : N) : N := xor3 (rotr 17 x) (rotr 19 x) (shr 10 x).

(** The constants of the standard are the first 32 bits of the
    fractional parts of the cube roots (round constants) and of the
    square roots (initial hash value) of the first primes. *)
Definition is_prime (p : N) : bool :=
  forallb (fun d => negb (N.eqb (N.modulo p (N.of_nat d)) 0))
    (seq 2 (N.to_nat p - 2)).

(** The primes among [2 .. bound + 1]. *)
Definition primes (bound : nat) : list N :=
  List.filter is_prime (map N.of_nat (seq 2 bound)).

(** The integer cube root of [x], one bit at a time from bit [bits]
    down; [r] holds the bits already decided. *)
Fixpoint cube_root_from (bits : nat) (x r : N) : N :=
  match bits with
  | O => r
  | S b =>
      let c := (r + N.shiftl 1 (N.of_nat b))%N in
      if (c * c * c <=? x)%N then cube_root_from b x c else cube_root_from b x r
  end.

Definition frac_cbrt (p : N) : N :=
  N.land (cube_root_from 36 (N.shiftl p 96) 0) mask32.

Definition frac_sqrt (p : N) : N :=
  N.land (N.sqrt (N.shiftl p 64)) mask32.

(** Sixty-four round constants: the primes up to 311. *)
Definition K : list N := Eval vm_compute in map frac_cbrt (primes 310).

Record Regs := mkRegs { ra : N; rb : N; rc : N; rd : N; re : N; rf : N; rg : N; rh : N }.

(** The initial hash value: the primes up to 19. *)
Definition H0 : Regs :=
  Eval vm_compute in
  match map frac_sqrt (primes 18) with
  | [a; b; c; d; e; f; g; h] => mkRegs a b c d e f g h
  | _ => mkRegs 0 0 0 0 0 0 0 0
  end.

(** One round.  [w] is the sliding window of the message schedule: its
    head is [W_t], and the word sixteen rounds ahead is appended. *)
Definition round (st : Regs * list N) (k : N) : Regs * list N :=
  let r := fst st in
  let w := snd st in
  let wt := nth 0 w 0%N in
  let t1 := add32 (add32 (add32 (add32 (rh r) (Sigma1 (re r))) (Ch (re r) (rf r) (rg r))) k) wt in
  let t2 := add32 (Sigma0 (ra r)) (Maj (ra r) (rb r) (rc r)) in
  let next := add32 (add32 (add32 (sigma1 (nth 14 w 0%N)) (nth 9 w 0%N))
                       (sigma0 (nth 1 w 0%N))) wt in
  (mkRegs (add32 t1 t2) (ra r) (rb r) (rc r) (add32 (rd r) t1) (re r) (rf r) (rg r),
   (tl w ++ [next])%list).

Definition compress (hs : Regs) (block : list N) : Regs :=
  let r := fst (fold_left round K (hs, block)) in
  mkRegs (add32 (ra hs) (ra r)) (add32 (rb hs) (rb r)) (add32 (rc hs) (rc r))
         (add32 (rd hs) (rd r)) (add32 (re hs) (re r)) (add32 (rf hs) (rf r))
         (add32 (rg hs) (rg r)) (add32 (rh hs) (rh r)).

Fixpoint chunks {A} (fuel n : nat) (l : list A) : list (list A) :=
  match fuel with
  | O => []
  | S f =>
      match l with
      | [] => []
      | _ => firstn n l :: chunks f n (skipn n l)
      end
  end.

(** Big-endian value of a group of bytes. *)
Definition be_word (bs : list N) : N :=
  fold_left (fun acc b => (acc * 256 + b)%N) bs 0%N.

(** The [n] low bytes of [x], most significant first. *)
Fixpoint be_bytes (n : nat) (x : N) : list N :=
  match n with
  | O => []
  | S k => (N.shiftr x (8 * N.of_nat k) mod 256)%N :: be_bytes k x
  end.

Definition pad (msg : list N) : list N :=
  let len := length msg in
  let zeros := (64 - (len + 9) mod 64) mod 64 in
  (msg ++ [0x80%N] ++ repeat 0%N zeros ++ be_bytes 8 (8 * N.of_nat len))%list.

Definition regs_bytes (r : Regs) : list N :=
  flat_map (be_bytes 4)
    [ra r; rb r; rc r; rd r; re r; rf r; rg r; rh r].

Definition digest (data : list byte) : list byte :=
  let bytes := pad (map Byte.to_N data) in
  let words := map be_word (chunks (length bytes) 4 bytes) in
  let blocks := chunks (length words) 16 words in
  map (fun n => byte_of_ascii (ascii_of_N n))
    (regs_bytes (fold_left compress blocks H0)).

End SHA256.

(** ** [URLSearchParams] and the form-urlencoded wire format *)

Module URLSearchParams.

(** The list of name-value pairs, in insertion order. *)
Definition t := list (string * string).

(** Bytes the form-urlencoded serializer leaves as they are:
    ASCII letters and digits, and [* - . _]. *)
Definition is_form_safe (c : ascii) : bool :=
  let n := N_of_ascii c in
  ((65 <=? n) && (n <=? 90) || (97 <=? n) && (n <=? 122)
   || (48 <=? n) && (n <=? 57)
   || (n =? 42) || (n =? 45) || (n =? 46) || (n =? 95))%N.

Definition hex_digit (n : N) : ascii :=
  match String.get (N.to_nat n) "0123456789ABCDEF" with
  | Some c => c
  | None => "0"%char
  end.

Definition encode_byte (c : ascii) : string :=
  if Ascii.eqb c " " then "+"
  else if is_form_safe c then String c EmptyString
  else String "%" (String (hex_digit (N_of_ascii c / 16))
                     (String (hex_digit (N_of_ascii c mod 16)) EmptyString)).

Fixpoint encode (s : string) : string :=
  match s with
  | EmptyString => EmptyString
  | String c r => encode_byte c +:+ encode r
  end.

Definition encode_pair (p : string * string) : string :=
  encode (fst p) +:+ "=" +:+ encode (snd p).

(** [params.toString()]. *)
Definition toString (params : t) : string :=
  Str.join "&" (map encode_pair params).

(** [params.get(name)]: the value of the first pair called [name], or
    [null]. *)
Fixpoint get (params : t) (name : string) : option string :=
  match params with
  | [] => None
  | (n, v) :: r => if String.eqb n name then Some v else get r name
  end.

(** Form decoding of one name or value: [+] reads as a space and [%XY]
    as the byte with that hexadecimal code. *)
Fixpoint decode (s : string) : string :=
  match s with
  | EmptyString => EmptyString
  | String c r =>
      if Ascii.eqb c "+" then String " " (decode r)
      else if Ascii.eqb c "%" then
        match r with
        | String h (String l r') =>
            match Str.hex_value h, Str.hex_value l with
            | Some x, Some y => String (ascii_of_N (16 * x + y)) (decode r')
            | _, _ => String c (decode r)
            end
        | _ => String c (decode r)
        end
      else String c (decode r)
  end.

(** [s.split(c)]; the result is never empty. *)
Fixpoint split_on (c : ascii) (s : string) : list string :=
  match s with
  | EmptyString => [EmptyString]
  | String a r =>
      if Ascii.eqb a c then EmptyString :: split_on c r
      else match split_on c r with
           | x :: xs => String a x :: xs
           | [] => [String a EmptyString]
           end
  end.

(** Splits at the first [c]: the text before it and, when there is one,
    the text after it. *)
Fixpoint cut_at (c : ascii) (s : string) : string * option string :=
  match s with
  | EmptyString => (EmptyString, None)
  | String a r =>
      if Ascii.eqb a c then (EmptyString, Some r)
      else let p := cut_at c r in (String a (fst p), snd p)
  end.

Definition parse_pair (seq : string) : string * string :=
  match cut_at "=" seq with
  | (n, Some v) => (decode n, decode v)
  | (n, None) => (decode n, EmptyString)
  end.

(** [new URLSearchParams(init)] for a string: one leading [?] is
    dropped, the rest is cut at every [&], empty pieces are skipped. *)
Definition parse (init : string) : t :=
  let input := match init with
               | String "?" r => r
               | _ => init
               end in
  map parse_pair
    (List.filter (fun seq => negb (String.eqb seq EmptyString))
       (split_on "&" input)).

End URLSearchParams.

(** [new URL(url).searchParams]: the query runs from the first [?] to
    the fragment, which starts at the first [#]. *)
Module URL.

Definition query (url : string) : string :=
  match snd (URLSearchParams.cut_at "?" (fst (URLSearchParams.cut_at "#" url))) with
  | Some q => q
  | None => EmptyString
  end.

Definition searchParams (url : string) : URLSearchParams.t :=
  URLSearchParams.parse (query url).

End URL.

(** ** JavaScript values, exceptions and JSON *)

Module Js.

(** What [throw] throws: an [Error] object with its message, or some
    other value, kept as the text [String(value)] gives. *)
Inductive Thrown : Type :=
| ErrorObj (message : string)
| OtherValue (text : string).

(** The outcome of running a piece of code. *)
Inductive Completion (A : Type) : Type :=
| Normal (a : A)
| Throw (e : Thrown).
Arguments Normal {A} a.
Arguments Throw {A} e.

Definition bind {A B} (c : Completion A) (k : A -> Completion B) : Completion B :=
  match c with
  | Normal a => k a
  | Throw e => Throw e
  end.

(** [err instanceof Error ? err.message : fallback]. *)
Definition message_or (fallback : string) (e : Thrown) : string :=
  match e with
  | ErrorObj m => m
  | OtherValue _ => fallback
  end.

(** [error instanceof Error ? error.message : String(error)]. *)
Definition message_or_string (e : Thrown) : string :=
  match e with
  | ErrorObj m => m
  | OtherValue t => t
  end.

(** Messages the engine words itself: the [SyntaxError] of [JSON.parse]
    on a text, and the [TypeError] of touching a property of a value that
    has none. *)
Record Engine := mkEngine {
  syntax_error_message : string -> string;
  type_error_message : string -> string
}.

(** Values as [JSON.parse] builds them and the application extends them.
    A number is kept as its literal, the way JavaScript prints it; an
    array carries the named properties that were assigned to it; an
    object lists its properties in creation order.  (JavaScript would
    enumerate keys that are array indices first; no object of this
    application has such keys, and that reordering is not modelled.) *)
#[warnings="-register-all"]
Inductive value : Type :=
| Undefined
| Null
| Bool (b : bool)
| Num (lit : string)
| Str (s : string)
| Arr (elems : list value) (extra : list (string * value))
| Obj (props : list (string * value)).

Definition is_digit (c : ascii) : bool :=
  let n := N_of_ascii c in ((48 <=? n) && (n <=? 57))%N.

(** A numeric literal denotes zero when no digit of its mantissa is
    between 1 and 9. *)
Fixpoint num_is_zero (lit : string) : bool :=
  match lit with
  | EmptyString => true
  | String c r =>
      if Ascii.eqb c "e" || Ascii.eqb c "E" then true
      else if is_digit c && negb (Ascii.eqb c "0") then false
      else num_is_zero r
  end.

Definition truthy (v : value) : bool :=
  match v with
  | Undefined | Null => false
  | Bool b => b
  | Num lit => negb (num_is_zero lit)
  | Str s => negb (String.eqb s EmptyString)
  | Arr _ _ | Obj _ => true
  end.

(** [v === s] for a string literal [s]. *)
Definition is_string (v : value) (s : string) : bool :=
  match v with
  | Str t => String.eqb t s
  | _ => false
  end.

Definition nullish (v : value) : bool :=
  match v with
  | Undefined | Null => true
  | _ => false
  end.

(** [a || b] and [a ?? b]. *)
Definition or_else (a b : value) : value := if truthy a then a else b.
Definition coalesce (a b : value) : value := if nullish a then b else a.

Fixpoint lookup (props : list (string * value)) (k : string) : option value :=
  match props with
  | [] => None
  | (n, v) :: r => if String.eqb n k then Some v else lookup r k
  end.

(** Defines or overwrites a property: an existing key keeps its place,
    a new one goes last. *)
Fixpoint define (props : list (string * value)) (k : string) (v : value)
  : list (string * value) :=
  match props with
  | [] => [(k, v)]
  | (n, w) :: r =>
      if String.eqb n k then (n, v) :: r else (n, w) :: define r k v
  end.

(** The property [k] of a value that is neither [null] nor [undefined],
    for the property names this program uses; none of them is [length],
    an index or a member of a built-in prototype, so only objects and
    the named properties of arrays can have them. *)
Definition prop (v : value) (k : string) : value :=
  match v with
  | Obj props => match lookup props k with Some x => x | None => Undefined end
  | Arr _ extra => match lookup extra k with Some x => x | None => Undefined end
  | _ => Undefined
  end.

(** [v.k]: a [TypeError] on [null] and [undefined]. *)
Definition get (eng : Engine) (v : value) (k : string) : Completion value :=
  if nullish v then Throw (ErrorObj (type_error_message eng k))
  else Normal (prop v k).

(** [v?.k]. *)
Definition get_opt (v : value) (k : string) : value :=
  if nullish v then Undefined else prop v k.

(** [v.k = x] in strict mode (ES modules): a primitive cannot take a
    property. *)
Definition set (eng : Engine) (v : value) (k : string) (x : value) : Completion value :=
  match v with
  | Obj props => Normal (Obj (define props k x))
  | Arr elems extra => Normal (Arr elems (define extra k x))
  | _ => Throw (ErrorObj (type_error_message eng k))
  end.

(** [String(v)]. *)
Fixpoint to_string (v : value) : string :=
  match v with
  | Undefined => "undefined"
  | Null => "null"
  | Bool b => if b then "true" else "false"
  | Num lit => lit
  | Str s => s
  | Arr elems _ =>
      Str.join ","
        (map (fun e => if nullish e then EmptyString else to_string e) elems)
  | Obj _ => "[object Object]"
  end.

(** *** [JSON.stringify] *)

Definition hex_lower (n : N) : ascii :=
  match String.get (N.to_nat n) "0123456789abcdef" with
  | Some c => c
  | None => "0"%char
  end.

Definition escape_char (c : ascii) : string :=
  let n := N_of_ascii c in
  if (n =? 34)%N then String "\" (String "034" EmptyString)
  else if (n =? 92)%N then "\\"
  else if (n =? 8)%N then "\b"
  else if (n =? 9)%N then "\t"
  else if (n =? 10)%N then "\n"
  else if (n =? 12)%N then "\f"
  else if (n =? 13)%N then "\r"
  else if (n <? 32)%N then
    String "\" (String "u" (String "0" (String "0"
      (String (hex_lower (n / 16)) (String (hex_lower (n mod 16)) EmptyString)))))
  else String c EmptyString.

Fixpoint escape (s : string) : string :=
  match s with
  | EmptyString => EmptyString
  | String c r => escape_char c +:+ escape r
  end.

Definition quote (s : string) : string :=
  String "034" (escape s +:+ String "034" EmptyString).

(** [JSON.stringify(v)]; [None] is the [undefined] it returns for
    [undefined].  Inside an array [undefined] prints as [null]; a
    property whose value is [undefined] is left out. *)
Fixpoint stringify (v : value) : option string :=
  match v with
  | Undefined => None
  | Null => Some "null"
  | Bool b => Some (if b then "true" else "false")
  | Num lit => Some lit
  | Str s => Some (quote s)
  | Arr elems _ =>
      let fix items (l : list value) : list string :=
        match l with
        | [] => []
        | e :: r =>
            match stringify e with
            | Some t => t
            | None => "null"
            end :: items r
        end in
      Some ("[" +:+ Str.join "," (items elems) +:+ "]")
  | Obj props =>
      let fix members (l : list (string * value)) : list string :=
        match l with
        | [] => []
        | (k, x) :: r =>
            match stringify x with
            | Some t => (quote k +:+ ":" +:+ t) :: members r
            | None => members r
            end
        end in
      Some ("{" +:+ Str.join "," (members props) +:+ "}")
  end.

(** *** [JSON.parse] *)

Inductive parsed (A : Type) : Type :=
| Got (a : A) (rest : string)
| Bad
| Starved.
Arguments Got {A} a rest.
Arguments Bad {A}.
Arguments Starved {A}.

Definition is_ws (c : ascii) : bool :=
  let n := N_of_ascii c in
  ((n =? 32) || (n =? 9) || (n =? 10) || (n =? 13))%N.

Fixpoint skip_ws (s : string) : string :=
  match s with
  | String c r => if is_ws c then skip_ws r else s
  | EmptyString => s
  end.

(** Pieces of a string literal: a byte taken as it stands, or the UTF-16
    code unit of a [\uXXXX] escape. *)
Inductive piece : Type :=
| Raw (c : ascii)
| Unit16 (u : N).

Definition simple_escape (e : ascii) : option ascii :=
  let n := N_of_ascii e in
  if (n =? 34)%N then Some "034"%char
  else if (n =? 92)%N then Some "\"%char
  else if (n =? 47)%N then Some "/"%char
  else if (n =? 98)%N then Some (ascii_of_N 8)
  else if (n =? 102)%N then Some (ascii_of_N 12)
  else if (n =? 110)%N then Some (ascii_of_N 10)
  else if (n =? 114)%N then Some (ascii_of_N 13)
  else if (n =? 116)%N then Some (ascii_of_N 9)
  else None.

Definition hex4 (a b c d : ascii) : option N :=
  match Str.hex_value a, Str.hex_value b, Str.hex_value c, Str.hex_value d with
  | Some w, Some x, Some y, Some z => Some (((w * 16 + x) * 16 + y) * 16 + z)%N
  | _, _, _, _ => None
  end.

(** Reads a string literal after its opening quote. *)
Fixpoint read_pieces (s : string) : option (list piece * string) :=
  match s with
  | EmptyString => None
  | String c r =>
      if Ascii.eqb c "034" then Some ([], r)
      else if Ascii.eqb c "\" then
        match r with
        | String e r1 =>
            if Ascii.eqb e "u" then
              match r1 with
              | String h1 (String h2 (String h3 (String h4 r2))) =>
                  match hex4 h1 h2 h3 h4, read_pieces r2 with
                  | Some u, Some (ps, rest) => Some (Unit16 u :: ps, rest)
                  | _, _ => None
                  end
              | _ => None
              end
            else
              match simple_escape e, read_pieces r1 with
              | Some x, Some (ps, rest) => Some (Raw x :: ps, rest)
              | _, _ => None
              end
        | EmptyString => None
        end
      else if (N_of_ascii c <? 32)%N then None
      else
        match read_pieces r with
        | Some (ps, rest) => Some (Raw c :: ps, rest)
        | None => None
        end
  end.

Definition chr (n : N) : ascii := ascii_of_N n.

(** UTF-8 of one code unit, and of the code point of a surrogate pair. *)
Definition utf8_unit (u : N) : string :=
  if (u <? 128)%N then String (chr u) EmptyString
  else if (u <? 2048)%N then
    String (chr (192 + u / 64)) (String (chr (128 + u mod 64)) EmptyString)
  else
    String (chr (224 + u / 4096))
      (String (chr (128 + (u / 64) mod 64))
         (String (chr (128 + u mod 64)) EmptyString)).

Definition utf8_pair (hi lo : N) : string :=
  let cp := (65536 + (hi - 55296) * 1024 + (lo - 56320))%N in
  String (chr (240 + cp / 262144))
    (String (chr (128 + (cp / 4096) mod 64))
       (String (chr (128 + (cp / 64) mod 64))
          (String (chr (128 + cp mod 64)) EmptyString))).

Definition is_high (u : N) : bool := ((55296 <=? u) && (u <=? 56319))%N.
Definition is_low (u : N) : bool := ((56320 <=? u) && (u <=? 57343))%N.

Fixpoint assemble (ps : list piece) : string :=
  match ps with
  | [] => EmptyString
  | Raw c :: r => String c (assemble r)
  | Unit16 u :: r =>
      if is_high u then
        match r with
        | Unit16 lo :: r' =>
            if is_low lo then utf8_pair u lo +:+ assemble r'
            else utf8_unit u +:+ assemble r
        | _ => utf8_unit u +:+ assemble r
        end
      else utf8_unit u +:+ assemble r
  end.

Definition read_string (s : string) : option (string * string) :=
  match read_pieces s with
  | Some (ps, rest) => Some (assemble ps, rest)
  | None => None
  end.

(** The longest prefix of digits, and what follows it. *)
Fixpoint span_digits (s : string) : string * string :=
  match s with
  | String c r =>
      if is_digit c then let p := span_digits r in (String c (fst p), snd p)
      else (EmptyString, s)
  | EmptyString => (EmptyString, EmptyString)
  end.

(** A JSON number: an optional minus sign; a zero, or digits that do
    not start with a zero; optionally a point and digits; optionally an
    exponent mark, a sign and digits. *)
Definition read_number (s : string) : option (string * string) :=
  let '(sign, s1) := match s with
                     | String "-" r => ("-", r)
                     | _ => (EmptyString, s)
                     end in
  let '(int, s2) := match s1 with
                    | String "0" r => ("0", r)
                    | _ => span_digits s1
                    end in
  if String.eqb int EmptyString then None else
  let frac := match s2 with
              | String "." r =>
                  let '(ds, r') := span_digits r in
                  if String.eqb ds EmptyString then None
                  else Some (String "." ds, r')
              | _ => Some (EmptyString, s2)
              end in
  match frac with
  | None => None
  | Some (fr, s3) =>
      let expo := match s3 with
                  | String e r =>
                      if Ascii.eqb e "e" || Ascii.eqb e "E" then
                        let '(sg, r1) := match r with
                                         | String "+" t => ("+", t)
                                         | String "-" t => ("-", t)
                                         | _ => (EmptyString, r)
                                         end in
                        let '(ds, r2) := span_digits r1 in
                        if String.eqb ds EmptyString then None
                        else Some (String e (sg +:+ ds), r2)
                      else Some (EmptyString, s3)
                  | EmptyString => Some (EmptyString, s3)
                  end in
      match expo with
      | None => None
      | Some (ex, s4) => Some (sign +:+ int +:+ fr +:+ ex, s4)
      end
  end.

(** [expect word s]: [s] without its prefix [word]. *)
Fixpoint expect (word s : string) : option string :=
  match word with
  | EmptyString => Some s
  | String c w =>
      match s with
      | String d r => if Ascii.eqb c d then expect w r else None
      | EmptyString => None
      end
  end.

(** Recursive descent; every nested call uses one unit of [fuel], and
    has consumed at least one character. *)
Fixpoint parse_value (fuel : nat) (s : string) : parsed value :=
  match fuel with
  | O => Starved
  | S fuel =>
      match skip_ws s with
      | EmptyString => Bad
      | String c r =>
          if Ascii.eqb c "{" then
            match skip_ws r with
            | String "}" r' => Got (Obj []) r'
            | _ => parse_members fuel r []
            end
          else if Ascii.eqb c "[" then
            match skip_ws r with
            | String "]" r' => Got (Arr [] []) r'
            | _ => parse_elements fuel r []
            end
          else if Ascii.eqb c "034" then
            match read_string r with
            | Some (t, rest) => Got (Str t) rest
            | None => Bad
            end
          else if Ascii.eqb c "t" then
            match expect "rue" r with Some rest => Got (Bool true) rest | None => Bad end
          else if Ascii.eqb c "f" then
            match expect "alse" r with Some rest => Got (Bool false) rest | None => Bad end
          else if Ascii.eqb c "n" then
            match expect "ull" r with Some rest => Got Null rest | None => Bad end
          else
            match read_number (String c r) with
            | Some (lit, rest) => Got (Num lit) rest
            | None => Bad
            end
      end
  end
with parse_members (fuel : nat) (s : string) (acc : list (string * value))
  : parsed value :=
  match fuel with
  | O => Starved
  | S fuel =>
      match skip_ws s with
      | String "034" r =>
          match read_string r with
          | Some (k, r1) =>
              match skip_ws r1 with
              | String ":" r2 =>
                  match parse_value fuel r2 with
                  | Got v r3 =>
                      match skip_ws r3 with
                      | String "," r4 => parse_members fuel r4 (define acc k v)
                      | String "}" r4 => Got (Obj (define acc k v)) r4
                      | _ => Bad
                      end
                  | Bad => Bad
                  | Starved => Starved
                  end
              | _ => Bad
              end
          | None => Bad
          end
      | _ => Bad
      end
  end
with parse_elements (fuel : nat) (s : string) (acc : list value)
  : parsed value :=
  match fuel with
  | O => Starved
  | S fuel =>
      match parse_value fuel s with
      | Got v r1 =>
          match skip_ws r1 with
          | String "," r2 => parse_elements fuel r2 (acc ++ [v])%list
          | String "]" r2 => Got (Arr (acc ++ [v])%list []) r2
          | _ => Bad
          end
      | Bad => Bad
      | Starved => Starved
      end
  end.

(** [JSON.parse(text)]: one value, then only white space. *)
Definition parse (text : string) : option value :=
  match parse_value (2 + String.length text) text with
  | Got v rest =>
      match skip_ws rest with
      | EmptyString => Some v
      | _ => None
      end
  | _ => None
  end.

(** [JSON.parse(text)] with its exception. *)
Definition JSON_parse (eng : Engine) (text : string) : Completion value :=
  match parse text with
  | Some v => Normal v
  | None => Throw (ErrorObj (syntax_error_message eng text))
  end.


(** [v === n] for a number [n] that JavaScript prints as [lit]; numbers
    are kept as their printed text. *)
Definition is_number (v : value) (lit : string) : bool :=
  match v with
  | Num t => String.eqb t lit
  | _ => false
  end.

End Js.

(** ** Web storage ([sessionStorage], [localStorage]) *)

Module Storage.

Definition getItem (s : gmap string string) (key : string) : option string :=
  s !! key.

Definition setItem (s : gmap string string) (key value : string)
  : gmap string string :=
  <[key := value]> s.

Definition removeItem (s : gmap string string) (key : string)
  : gmap string string :=
  delete key s.

End Storage.

(** Truthiness of a [string | null]: [null] and the empty string are
    falsy. *)
Definition truthy_str (o : option string) : bool :=
  match o with
  | Some s => negb (String.eqb s EmptyString)
  | None => false
  end.

(** [a === b] for [a : string | null] and a string [b]. *)
Definition same_str (a : option string) (b : string) : bool :=
  match a with
  | Some s => String.eqb s b
  | None => false
  end.

(** ** [CredentialForm.tsx]: the [Credentials] interface *)

Module Credentials.

Inductive StorageType : Type :=
| FileSystem | WebDAV | OneDrive | JoplinServer | GoogleDrive.

Definition type_name (t : StorageType) : string :=
  match t with
  | FileSystem => "FileSystem"
  | WebDAV => "WebDAV"
  | OneDrive => "OneDrive"
  | JoplinServer => "JoplinServer"
  | GoogleDrive => "GoogleDrive"
  end.

Record Filesystem := mkFilesystem { syncPath : string }.

Record Webdav := mkWebdav {
  wd_username : string;
  wd_password : string;
  wd_path : string;
  wd_ignoreTlsErrors : option bool
}.

Record Onedrive := mkOnedrive {
  od_clientId : option string;
  od_clientSecret : option string;
  od_authToken : option string;
  od_isPublic : option bool;
  od_redirectUri : option string;
  od_basePath : option string
}.

Record Joplinserver := mkJoplinserver {
  js_username : string;
  js_password : string;
  js_path : string;
  js_userContentPath : string
}.

Record Googledrive := mkGoogledrive {
  gd_clientId : option string;
  gd_clientSecret : option string;
  gd_authToken : option string;
  gd_isPublic : option bool
}.

Record t := mk {
  type : StorageType;
  filesystem : option Filesystem;
  webdav : option Webdav;
  onedrive : option Onedrive;
  joplinserver : option Joplinserver;
  googledrive : option Googledrive
}.

(** The JavaScript object of a typed value: every property of the
    interface in declaration order, an absent optional one holding
    [undefined]. *)
Definition opt_str (o : option string) : Js.value :=
  match o with Some s => Js.Str s | None => Js.Undefined end.

Definition opt_bool (o : option bool) : Js.value :=
  match o with Some b => Js.Bool b | None => Js.Undefined end.

Definition opt_obj {A} (f : A -> Js.value) (o : option A) : Js.value :=
  match o with Some a => f a | None => Js.Undefined end.

Definition filesystem_js (x : Filesystem) : Js.value :=
  Js.Obj [("syncPath", Js.Str (syncPath x))].

Definition webdav_js (x : Webdav) : Js.value :=
  Js.Obj [("username", Js.Str (wd_username x));
          ("password", Js.Str (wd_password x));
          ("path", Js.Str (wd_path x));
          ("ignoreTlsErrors", opt_bool (wd_ignoreTlsErrors x))].

Definition onedrive_js (x : Onedrive) : Js.value :=
  Js.Obj [("clientId", opt_str (od_clientId x));
          ("clientSecret", opt_str (od_clientSecret x));
          ("authToken", opt_str (od_authToken x));
          ("isPublic", opt_bool (od_isPublic x));
          ("redirectUri", opt_str (od_redirectUri x));
          ("basePath", opt_str (od_basePath x))].

Definition joplinserver_js (x : Joplinserver) : Js.value :=
  Js.Obj [("username", Js.Str (js_username x));
          ("password", Js.Str (js_password x));
          ("path", Js.Str (js_path x));
          ("userContentPath", Js.Str (js_userContentPath x))].

Definition googledrive_js (x : Googledrive) : Js.value :=
  Js.Obj [("clientId", opt_str (gd_clientId x));
          ("clientSecret", opt_str (gd_clientSecret x));
          ("authToken", opt_str (gd_authToken x));
          ("isPublic", opt_bool (gd_isPublic x))].

Definition to_js (c : t) : Js.value :=
  Js.Obj [("type", Js.Str (type_name (type c)));
          ("filesystem", opt_obj filesystem_js (filesystem c));
          ("webdav", opt_obj webdav_js (webdav c));
          ("onedrive", opt_obj onedrive_js (onedrive c));
          ("joplinserver", opt_obj joplinserver_js (joplinserver c));
          ("googledrive", opt_obj googledrive_js (googledrive c))].

(** Reading a JavaScript value field by field at the types of the
    interface: [None] when some field does not have its declared type. *)
Definition field (v : Js.value) (k : string) : Js.value :=
  match v with
  | Js.Obj props => match Js.lookup props k with Some x => x | None => Js.Undefined end
  | _ => Js.Undefined
  end.

Definition read_str (v : Js.value) : option string :=
  match v with Js.Str s => Some s | _ => None end.

Definition read_opt_str (v : Js.value) : option (option string) :=
  match v with
  | Js.Str s => Some (Some s)
  | Js.Undefined => Some None
  | _ => None
  end.

Definition read_opt_bool (v : Js.value) : option (option bool) :=
  match v with
  | Js.Bool b => Some (Some b)
  | Js.Undefined => Some None
  | _ => None
  end.

Definition read_opt_obj {A} (f : Js.value -> option A) (v : Js.value)
  : option (option A) :=
  match v with
  | Js.Undefined => Some None
  | Js.Obj _ => match f v with Some a => Some (Some a) | None => None end
  | _ => None
  end.

Definition read_type (v : Js.value) : option StorageType :=
  match v with
  | Js.Str s =>
      if String.eqb s "FileSystem" then Some FileSystem
      else if String.eqb s "WebDAV" then Some WebDAV
      else if String.eqb s "OneDrive" then Some OneDrive
      else if String.eqb s "JoplinServer" then Some JoplinServer
      else if String.eqb s "GoogleDrive" then Some GoogleDrive
      else None
  | _ => None
  end.

Definition filesystem_of_js (v : Js.value) : option Filesystem :=
  a ← read_str (field v "syncPath"); Some (mkFilesystem a).

Definition webdav_of_js (v : Js.value) : option Webdav :=
  a ← read_str (field v "username");
  b ← read_str (field v "password");
  c ← read_str (field v "path");
  d ← read_opt_bool (field v "ignoreTlsErrors");
  Some (mkWebdav a b c d).

Definition onedrive_of_js (v : Js.value) : option Onedrive :=
  a ← read_opt_str (field v "clientId");
  b ← read_opt_str (field v "clientSecret");
  c ← read_opt_str (field v "authToken");
  d ← read_opt_bool (field v "isPublic");
  e ← read_opt_str (field v "redirectUri");
  f ← read_opt_str (field v "basePath");
  Some (mkOnedrive a b c d e f).

Definition joplinserver_of_js (v : Js.value) : option Joplinserver :=
  a ← read_str (field v "username");
  b ← read_str (field v "password");
  c ← read_str (field v "path");
  d ← read_str (field v "userContentPath");
  Some (mkJoplinserver a b c d).

Definition googledrive_of_js (v : Js.value) : option Googledrive :=
  a ← read_opt_str (field v "clientId");
  b ← read_opt_str (field v "clientSecret");
  c ← read_opt_str (field v "authToken");
  d ← read_opt_bool (field v "isPublic");
  Some (mkGoogledrive a b c d).

Definition of_js (v : Js.value) : option t :=
  a ← read_type (field v "type");
  b ← read_opt_obj filesystem_of_js (field v "filesystem");
  c ← read_opt_obj webdav_of_js (field v "webdav");
  d ← read_opt_obj onedrive_of_js (field v "onedrive");
  e ← read_opt_obj joplinserver_of_js (field v "joplinserver");
  f ← read_opt_obj googledrive_of_js (field v "googledrive");
  Some (mk a b c d e f).

End Credentials.

(** A [fetch] call, as the application issues it. *)
Record Request := mkRequest {
  req_url : string;
  req_method : string;
  req_headers : list (string * string);
  req_body : string
}.

(** ** The random source *)

(** [crypto.getRandomValues(array)] fills the array it is given; the
    source is the byte it puts at each index. *)
Definition RandomSource := nat -> byte.

Definition getRandomValues (rnd : RandomSource) (len : nat) : list byte :=
  map rnd (seq 0 len).

(** The characters RFC 7636 allows in a code verifier:
    [A-Z a-z 0-9 - . _ ~]. *)
Definition is_unreserved (c : ascii) : bool :=
  let n := N_of_ascii c in
  ((65 <=? n) && (n <=? 90) || (97 <=? n) && (n <=? 122)
   || (48 <=? n) && (n <=? 57)
   || (n =? 45) || (n =? 46) || (n =? 95) || (n =? 126))%N.

(** ** The page, its environment, and asynchronous code *)

Module Runtime.

(** State set through React's [useState] in [App]. *)
Record Ui := mkUi {
  currentProfile : option Js.value;
  connected : bool;
  loading : bool;
  error : option string;
  items : list Js.value;
  oauthAuthUrl : option string
}.

(** The fields of the [joplinApi] singleton; [storage] is the handle of
    the library's [StorageAPI] object. *)
Record Api := mkApi {
  storage : option nat;
  initialized : bool;
  oauthFlowHandler : bool
}.

(** Everything a handler can read or change. *)
Record World := mkWorld {
  session : gmap string string;   (* sessionStorage *)
  local : gmap string string;     (* localStorage *)
  search : string;                (* window.location.search *)
  href : option string;           (* a navigation asked for through location.href *)
  ui : Ui;
  api : Api;
  fetches : list Request;         (* the fetch calls issued, oldest first *)
  ticks : nat                     (* how often the environment was consulted *)
}.

Definition with_session (f : gmap string string -> gmap string string) (w : World) : World :=
  mkWorld (f (session w)) (local w) (search w) (href w) (ui w) (api w) (fetches w) (ticks w).
Definition with_local (l : gmap string string) (w : World) : World :=
  mkWorld (session w) l (search w) (href w) (ui w) (api w) (fetches w) (ticks w).
Definition with_search (s : string) (w : World) : World :=
  mkWorld (session w) (local w) s (href w) (ui w) (api w) (fetches w) (ticks w).
Definition with_href (h : string) (w : World) : World :=
  mkWorld (session w) (local w) (search w) (Some h) (ui w) (api w) (fetches w) (ticks w).
Definition with_ui (f : Ui -> Ui) (w : World) : World :=
  mkWorld (session w) (local w) (search w) (href w) (f (ui w)) (api w) (fetches w) (ticks w).
Definition with_api (a : Api) (w : World) : World :=
  mkWorld (session w) (local w) (search w) (href w) (ui w) a (fetches w) (ticks w).
Definition with_fetch (r : Request) (w : World) : World :=
  mkWorld (session w) (local w) (search w) (href w) (ui w) (api w)
    (fetches w ++ [r])%list (ticks w).
Definition tick (w : World) : World :=
  mkWorld (session w) (local w) (search w) (href w) (ui w) (api w) (fetches w) (S (ticks w)).

Definition setCurrentProfile (p : option Js.value) : World -> World :=
  with_ui (fun u => mkUi p (connected u) (loading u) (error u) (items u) (oauthAuthUrl u)).
Definition setConnected (b : bool) : World -> World :=
  with_ui (fun u => mkUi (currentProfile u) b (loading u) (error u) (items u) (oauthAuthUrl u)).
Definition setLoading (b : bool) : World -> World :=
  with_ui (fun u => mkUi (currentProfile u) (connected u) b (error u) (items u) (oauthAuthUrl u)).
Definition setError (e : option string) : World -> World :=
  with_ui (fun u => mkUi (currentProfile u) (connected u) (loading u) e (items u) (oauthAuthUrl u)).
Definition setItems (l : list Js.value) : World -> World :=
  with_ui (fun u => mkUi (currentProfile u) (connected u) (loading u) (error u) l (oauthAuthUrl u)).

Definition session_set (key value : string) : World -> World :=
  with_session (fun s => Storage.setItem s key value).
Definition session_remove (key : string) : World -> World :=
  with_session (fun s => Storage.removeItem s key).

(** [window.history.replaceState({}, document.title,
    window.location.pathname)]: the address keeps its path and loses
    its query. *)
Definition replaceState_pathname : World -> World := with_search EmptyString.

(** What [Date.now()], [Math.random()] and the locale give to one call of
    [ProfileManager.createProfile]; numbers as JavaScript prints them. *)
Record Seed := mkSeed {
  id_now : string;
  id_random : string;     (* [Math.random().toString(36).substr(2, 9)] *)
  today : string;         (* [new Date().toLocaleDateString()] *)
  lastUsed_now : string;
  createdAt_now : string
}.

(** The environment: the engine, the page's origin, and what the
    platform and the joplin-sync library answer the [n]-th time they are
    consulted. *)
Record Env := mkEnv {
  engine : Js.Engine;
  origin : string;
  random : nat -> RandomSource;
  seed : nat -> Seed;
  now : nat -> string;
  (* [new StorageAPI(kind, options)] with or without an OAuth flow
     handler: the handle of the new object, or what the constructor
     throws *)
  storage_new : nat -> string -> Js.value -> bool -> Js.Completion nat
}.

(** A [Response]; [status] as a template string prints it, [body] the
    text both [response.text()] and [response.json()] read. *)
Record Response := mkResponse {
  ok : bool;
  status : string;
  statusText : string;
  body : string
}.

(** The promises of the platform and of the library a handler awaits. *)
Inductive Call : Type :=
| Fetch (req : Request)
| SubtleDigest (data : list byte)
| StorageInit (handle : nat)
| StorageGetItems (handle : nat) (options : Js.value).

Inductive Answer : Type :=
| Responded (r : Response)
| Settled (v : Js.value)
| Rejected (e : Js.Thrown).

(** A running [async] function: finished with a result, or suspended at
    an [await]; the continuation takes the answer and the world as it is
    when the function resumes. *)
#[warnings="-register-all"]
Inductive Task (A : Type) : Type :=
| Done (a : A)
| Await (c : Call) (k : Answer -> World -> World * Task A).
Arguments Done {A} a.
Arguments Await {A} c k.

(** An [async] function body: runs, without interruption, up to its
    first [await]. *)
Definition Async (A : Type) : Type := World -> World * Task A.

Definition ret {A} (a : A) : Async A := fun w => (w, Done a).

Fixpoint then_task {A B} (t : Task A) (f : A -> Async B) (w : World) {struct t}
  : World * Task B :=
  match t with
  | Done a => f a w
  | Await c k =>
      (w, Await c (fun ans w' => let r := k ans w' in then_task (snd r) f (fst r)))
  end.

Definition bind {A B} (m : Async A) (f : A -> Async B) : Async B :=
  fun w => let r := m w in then_task (snd r) f (fst r).

(** A synchronous step. *)
Definition act (f : World -> World) : Async unit := fun w => (f w, Done tt).

(** [await] of one call. *)
Definition await (c : Call) : Async Answer :=
  fun w => (w, Await c (fun ans w' => (w', Done ans))).

(** Code that may throw. *)
Definition AsyncE (A : Type) : Type := Async (Js.Completion A).

Definition retE {A} (a : A) : AsyncE A := ret (Js.Normal a).
Definition throwE {A} (e : Js.Thrown) : AsyncE A := ret (Js.Throw e).
Definition liftE {A} (c : Js.Completion A) : AsyncE A := ret c.

Definition bindE {A B} (m : AsyncE A) (f : A -> AsyncE B) : AsyncE B :=
  bind m (fun r => match r with
                   | Js.Normal a => f a
                   | Js.Throw e => throwE e
                   end).

(** [try { body } catch (err) { handler }]. *)
Definition try_catch {A} (body : AsyncE A) (handler : Js.Thrown -> AsyncE A)
  : AsyncE A :=
  bind body (fun r => match r with
                      | Js.Normal a => retE a
                      | Js.Throw e => handler e
                      end).

(** [try { body } finally { cleanup }], for a cleanup that cannot throw. *)
Definition finally {A} (body : AsyncE A) (cleanup : World -> World) : AsyncE A :=
  bind body (fun r w => (cleanup w, Done r)).

(** Runs a task to its end with the answers the environment gives, in
    order; [None] when the answers run out first. *)
Fixpoint drive {A} (answers : list Answer) (t : Task A) (w : World) {struct t}
  : option (World * A) :=
  match t with
  | Done a => Some (w, a)
  | Await _ k =>
      match answers with
      | [] => None
      | ans :: rest => let r := k ans w in drive rest (snd r) (fst r)
      end
  end.

Definition run {A} (m : Async A) (answers : list Answer) (w : World)
  : option (World * A) :=
  let r := m w in drive answers (snd r) (fst r).

End Runtime.

(** ** [OneDriveOAuthService]: the PKCE generator *)

Module OneDriveOAuthService.

Record t := mk {
  clientId : string;
  redirectUri : string;
  scope : string
}.

(** [constructor(clientId, redirectUri)]; [scope] has a field initialiser. *)
Definition new (clientId redirectUri : string) : t :=
  mk clientId redirectUri "files.readwrite offline_access sites.readwrite.all".

Definition base64URLEncode (buffer : list byte) : string :=
  let base64 := Base64.btoa (Str.fromCharCode buffer) in
  Str.strip_trailing "="
    (Str.replace_all "/" "_" (Str.replace_all "+" "-" base64)).

Definition generateCodeVerifier (rnd : RandomSource) : string :=
  let array := getRandomValues rnd 32 in
  base64URLEncode array.

Definition generateCodeChallenge (verifier : string) : string :=
  let data := Str.encode_utf8 verifier in
  let digest := SHA256.digest data in
  base64URLEncode digest.

Record AuthUrlWithPKCE := mkAuthUrl { authUrl : string; codeVerifier : string }.

Definition authorize_endpoint : string :=
  "https://login.microsoftonline.com/consumers/oauth2/v2.0/authorize".

Definition getAuthUrlWithPKCE (this : t) (rnd : RandomSource) : AuthUrlWithPKCE :=
  let codeVerifier := generateCodeVerifier rnd in
  let codeChallenge := generateCodeChallenge codeVerifier in
  let params : URLSearchParams.t :=
    [ ("client_id", clientId this);
      ("scope", scope this);
      ("response_type", "code");
      ("redirect_uri", redirectUri this);
      ("prompt", "login");
      ("code_challenge", codeChallenge);
      ("code_challenge_method", "S256") ] in
  let authUrl := authorize_endpoint +:+ "?" +:+ URLSearchParams.toString params in
  mkAuthUrl authUrl codeVerifier.

Definition tokenUrl : string :=
  "https://login.microsoftonline.com/consumers/oauth2/v2.0/token".

(** The [fetch] call of [exchangeCodeForToken(code, codeVerifier)]. *)
Definition exchange_request (this : t) (code codeVerifier : string) : Request :=
  let formData : URLSearchParams.t :=
    [ ("client_id", clientId this);
      ("code", code);
      ("redirect_uri", redirectUri this);
      ("grant_type", "authorization_code");
      ("code_verifier", codeVerifier) ] in
  mkRequest tokenUrl "POST"
    [("Content-Type", "application/x-www-form-urlencoded")]
    (URLSearchParams.toString formData).

(** What [exchangeCodeForToken] does with the answer of [fetch]: the
    parsed body of a response that is [ok], an [Error] made from the
    body otherwise. *)
Definition token_of_answer (eng : Js.Engine) (answer : Runtime.Answer)
  : Runtime.AsyncE Js.value :=
  match answer with
  | Runtime.Responded response =>
      if negb (Runtime.ok response) then
        let errorText := Runtime.body response in
        let errorJson :=
          match Js.JSON_parse eng errorText with
          | Js.Normal v => v
          | Js.Throw _ =>
              Js.Obj [("error", Js.Str "unknown");
                      ("error_description", Js.Str errorText)]
          end in
        Runtime.liftE
          (Js.bind (Js.get eng errorJson "error_description") (fun description =>
           Js.bind (if Js.truthy description then Js.Normal description
                    else Js.get eng errorJson "error") (fun shown =>
           Js.Throw (Js.ErrorObj
             ("OAuth token exchange failed (" +:+ Runtime.status response
              +:+ "): " +:+ Js.to_string shown)))))
      else
        Runtime.liftE (Js.JSON_parse eng (Runtime.body response))
  | Runtime.Settled v =>
      (* [fetch] resolves with a [Response] only *)
      Runtime.throwE (Js.ErrorObj (Js.type_error_message eng "ok"))
  | Runtime.Rejected e => Runtime.throwE e
  end.

(** [exchangeCodeForToken(code, codeVerifier)].  The request leaves at
    the call of [fetch]; the function resumes with the response. *)
Definition exchangeCodeForToken (eng : Js.Engine) (this : t)
    (code codeVerifier : string) : Runtime.AsyncE Js.value :=
  Runtime.bind (Runtime.act (Runtime.with_fetch (exchange_request this code codeVerifier)))
    (fun _ =>
  Runtime.bind (Runtime.await (Runtime.Fetch (exchange_request this code codeVerifier)))
    (token_of_answer eng)).

(** The [fetch] call of [refreshToken(refreshToken)]. *)
Definition refresh_request (this : t) (refreshToken : string) : Request :=
  let formData : URLSearchParams.t :=
    [ ("client_id", clientId this);
      ("refresh_token", refreshToken);
      ("redirect_uri", redirectUri this);
      ("grant_type", "refresh_token") ] in
  mkRequest tokenUrl "POST"
    [("Content-Type", "application/x-www-form-urlencoded")]
    (URLSearchParams.toString formData).


(** What [refreshToken] does with the answer of [fetch]. *)
Definition refreshed_of_answer (eng : Js.Engine) (answer : Runtime.Answer)
  : Runtime.AsyncE Js.value :=
  match answer with
  | Runtime.Responded response =>
      if negb (Runtime.ok response) then
        let errorText := Runtime.body response in
        Runtime.throwE
          (Js.ErrorObj ("Token refresh failed (" +:+ Runtime.status response
                        +:+ "): " +:+ errorText))
      else
        Runtime.liftE (Js.JSON_parse eng (Runtime.body response))
  | Runtime.Settled v =>
      Runtime.throwE (Js.ErrorObj (Js.type_error_message eng "ok"))
  | Runtime.Rejected e => Runtime.throwE e
  end.

(** [refreshToken(refreshToken)]; its [catch] block throws again what
    it caught. *)
Definition refreshToken (eng : Js.Engine) (this : t) (refreshToken : string)
  : Runtime.AsyncE Js.value :=
  Runtime.bind (Runtime.act (Runtime.with_fetch (refresh_request this refreshToken)))
    (fun _ =>
  Runtime.bind (Runtime.await (Runtime.Fetch (refresh_request this refreshToken)))
    (refreshed_of_answer eng)).

End OneDriveOAuthService.

(** ** [OneDriveAuth.tsx]: helper functions of the component *)

Module OneDriveAuth.

Definition charset : string :=
  "ABCDEFGHIJKLMNOPQRSTUVWXYZabcdefghijklmnopqrstuvwxyz0123456789-._~".

(** [charset[randomValues[i] % charset.length]], as the text the loop
    appends ([undefined] cannot arise: the index is below the length). *)
Definition pick (randomValues : list byte) (i : nat) : string :=
  match randomValues !! i with
  | Some b =>
      match String.get
              (N.to_nat (Byte.to_N b mod N.of_nat (String.length charset))%N)
              charset with
      | Some c => String c EmptyString
      | None => "undefined"
      end
  | None => "undefined"
  end.

Definition generateRandomString (rnd : RandomSource) (len : nat) : string :=
  let randomValues := getRandomValues rnd len in
  fold_left (fun result i => result +:+ pick randomValues i) (seq 0 len)
    EmptyString.

Record AuthConfig := mkAuthConfig {
  cfg_clientId : string;
  scopes : list string;
  cfg_redirectUri : string;
  authority : string
}.

(** The [config] object of the component, for the page at
    [origin + pathname]. *)
Definition config (clientId origin pathname : string) : AuthConfig :=
  mkAuthConfig clientId
    ["Files.ReadWrite"; "offline_access"; "Files.ReadWrite.All"]
    (origin +:+ pathname)
    "https://login.microsoftonline.com/common".

(** The [fetch] call of the component's [exchangeCodeForToken]. *)
Definition exchange_request (config : AuthConfig) (code verifier : string)
  : Request :=
  let tokenUrl := authority config +:+ "/oauth2/v2.0/token" in
  let body : URLSearchParams.t :=
    [ ("client_id", cfg_clientId config);
      ("scope", Str.join " " (scopes config));
      ("code", code);
      ("redirect_uri", cfg_redirectUri config);
      ("grant_type", "authorization_code");
      ("code_verifier", verifier) ] in
  mkRequest tokenUrl "POST"
    [("Content-Type", "application/x-www-form-urlencoded")]
    (URLSearchParams.toString body).

(** The component's [exchangeCodeForToken(code, config)]. *)
Definition exchangeCodeForToken (eng : Js.Engine) (code : string)
    (config : AuthConfig) : Runtime.AsyncE string :=
  fun w =>
  match Storage.getItem (Runtime.session w) "pkce_verifier" with
  | Some verifier =>
      if String.eqb verifier EmptyString then
        Runtime.throwE (Js.ErrorObj "PKCE verifier not found. Please try again.") w
      else
        Runtime.bind (Runtime.act (Runtime.with_fetch (exchange_request config code verifier)))
          (fun _ =>
        Runtime.bind (Runtime.await (Runtime.Fetch (exchange_request config code verifier)))
          (fun answer =>
             match answer with
             | Runtime.Responded response =>
                 if negb (Runtime.ok response) then
                   let errorData :=
                     match Js.JSON_parse eng (Runtime.body response) with
                     | Js.Normal v => v
                     | Js.Throw _ => Js.Obj []
                     end in
                   Runtime.liftE
                     (Js.bind (Js.get eng errorData "error_description") (fun description =>
                      Js.Throw (Js.ErrorObj
                        ("Token exchange failed: " +:+
                         Js.to_string (Js.or_else description
                                         (Js.Str (Runtime.statusText response)))))))
                 else
                   Runtime.bindE (Runtime.liftE (Js.JSON_parse eng (Runtime.body response)))
                     (fun tokenData =>
                   Runtime.bind (Runtime.act (Runtime.session_remove "pkce_verifier"))
                     (fun _ =>
                   Runtime.retE (match Js.stringify tokenData with
                                 | Some t => t
                                 | None => "undefined"
                                 end)))
             | Runtime.Settled v =>
                 Runtime.throwE (Js.ErrorObj (Js.type_error_message eng "ok"))
             | Runtime.Rejected e => Runtime.throwE e
             end)) w
  | None =>
      Runtime.throwE (Js.ErrorObj "PKCE verifier not found. Please try again.") w
  end.



End OneDriveAuth.

(** ** [services/profileManager.ts] *)

Module ProfileManager.

Definition STORAGE_KEY_PREFIX : string := "joplin_profile_".
Definition ACTIVE_PROFILE_KEY : string := "joplin_active_profile".

(** What [localStorage.setItem(key, JSON.stringify(v))] stores. *)
Definition stringify_text (v : Js.value) : string :=
  match Js.stringify v with
  | Some t => t
  | None => "undefined"
  end.

(** Each method takes [localStorage] and returns it as the method leaves
    it, with how the method ended. *)
Definition saveProfile (eng : Js.Engine) (profile : Js.value)
    (ls : gmap string string) : gmap string string * Js.Completion unit :=
  match Js.get eng profile "id" with
  | Js.Normal id =>
      let key := STORAGE_KEY_PREFIX +:+ Js.to_string id in
      (Storage.setItem ls key (stringify_text profile), Js.Normal tt)
  | Js.Throw e => (ls, Js.Throw e)
  end.

(** [getProfile(profileId)]; the result is [null] or what [JSON.parse]
    made of the stored text. *)
Definition getProfile (ls : gmap string string) (profileId : string) : Js.value :=
  let key := STORAGE_KEY_PREFIX +:+ profileId in
  let data := Storage.getItem ls key in
  if negb (truthy_str data) then Js.Null
  else match data with
       | Some text =>
           match Js.parse text with
           | Some v => v
           | None => Js.Null
           end
       | None => Js.Null
       end.

Definition getActiveProfileId (ls : gmap string string) : option string :=
  Storage.getItem ls ACTIVE_PROFILE_KEY.

Definition clearActiveProfile (ls : gmap string string) : gmap string string :=
  Storage.removeItem ls ACTIVE_PROFILE_KEY.

Definition deleteProfile (ls : gmap string string) (profileId : string)
  : gmap string string :=
  let key := STORAGE_KEY_PREFIX +:+ profileId in
  let ls := Storage.removeItem ls key in
  let activeProfileId := getActiveProfileId ls in
  if same_str activeProfileId profileId then clearActiveProfile ls else ls.

(** [setActiveProfile(profileId)]; [now] is what [Date.now()] returns. *)
Definition setActiveProfile (eng : Js.Engine) (now : string)
    (ls : gmap string string) (profileId : string)
  : gmap string string * Js.Completion unit :=
  let ls := Storage.setItem ls ACTIVE_PROFILE_KEY profileId in
  let profile := getProfile ls profileId in
  if Js.truthy profile then
    match Js.set eng profile "lastUsed" (Js.Num now) with
    | Js.Normal profile' => saveProfile eng profile' ls
    | Js.Throw e => (ls, Js.Throw e)
    end
  else (ls, Js.Normal tt).

Definition getActiveProfile (ls : gmap string string) : Js.value :=
  let profileId := getActiveProfileId ls in
  if negb (truthy_str profileId) then Js.Null
  else match profileId with
       | Some id => getProfile ls id
       | None => Js.Null
       end.

(** [createProfile(credentials, name?)]. *)
Definition createProfile (eng : Js.Engine) (seed : Runtime.Seed)
    (credentials : Js.value) (name : option string) : Js.Completion Js.value :=
  let id := "profile_" +:+ Runtime.id_now seed +:+ "_" +:+ Runtime.id_random seed in
  Js.bind (if truthy_str name
           then Js.Normal (match name with Some n => n | None => EmptyString end)
           else Js.bind (Js.get eng credentials "type") (fun type =>
                Js.Normal (Js.to_string type +:+ " - " +:+ Runtime.today seed)))
    (fun profileName =>
  Js.bind (Js.get eng credentials "type") (fun type =>
  Js.Normal
    (Js.Obj [("id", Js.Str id);
             ("name", Js.Str profileName);
             ("type", type);
             ("credentials", credentials);
             ("lastUsed", Js.Num (Runtime.lastUsed_now seed));
             ("createdAt", Js.Num (Runtime.createdAt_now seed))]))).


(** [updateProfileCredentials(profileId, credentials)]. *)
Definition updateProfileCredentials (eng : Js.Engine) (now : string)
    (ls : gmap string string) (profileId : string) (credentials : Js.value)
  : gmap string string * Js.Completion unit :=
  let profile := getProfile ls profileId in
  if Js.truthy profile then
    match Js.set eng profile "credentials" credentials with
    | Js.Normal profile1 =>
        match Js.set eng profile1 "lastUsed" (Js.Num now) with
        | Js.Normal profile2 => saveProfile eng profile2 ls
        | Js.Throw e => (ls, Js.Throw e)
        end
    | Js.Throw e => (ls, Js.Throw e)
    end
  else (ls, Js.Normal tt).

(** [updateOneDriveToken(profileId, authToken)].  The assignment to
    [profile.credentials.onedrive.authToken] changes the object inside
    the profile; the value tree is rebuilt around the new property. *)
Definition updateOneDriveToken (eng : Js.Engine) (now : string)
    (ls : gmap string string) (profileId authToken : string)
  : gmap string string * Js.Completion unit :=
  let profile := getProfile ls profileId in
  if Js.truthy profile then
    let credentials := Js.prop profile "credentials" in
    match Js.get eng credentials "onedrive" with
    | Js.Normal onedrive =>
        if Js.truthy onedrive then
          match
            Js.bind (Js.set eng onedrive "authToken" (Js.Str authToken)) (fun onedrive' =>
            Js.bind (Js.set eng credentials "onedrive" onedrive') (fun credentials' =>
            Js.bind (Js.set eng profile "credentials" credentials') (fun profile1 =>
            Js.set eng profile1 "lastUsed" (Js.Num now))))
          with
          | Js.Normal profile2 => saveProfile eng profile2 ls
          | Js.Throw e => (ls, Js.Throw e)
          end
        else (ls, Js.Normal tt)
    | Js.Throw e => (ls, Js.Throw e)
    end
  else (ls, Js.Normal tt).

End ProfileManager.

(** ** [services/joplinApi.ts] *)

Module JoplinApiService.

Import Runtime.

(** The options object handed to [new StorageAPI(kind, options)].  The
    [oauthFlowHandler] entry of the OneDrive options is a function and
    travels beside the object. *)
Definition options (credentials : Js.value) (kind : string) : Js.value :=
  let sub (k : string) := Js.prop credentials k in
  let text (v : Js.value) := Js.or_else v (Js.Str EmptyString) in
  if String.eqb kind "FileSystem" then
    Js.Obj [("filesystemOptions",
             Js.Obj [("syncPath", text (Js.get_opt (sub "filesystem") "syncPath"))])]
  else if String.eqb kind "WebDAV" then
    Js.Obj [("webDAVOptions",
             Js.Obj [("username", text (Js.get_opt (sub "webdav") "username"));
                     ("password", text (Js.get_opt (sub "webdav") "password"));
                     ("path", text (Js.get_opt (sub "webdav") "path"));
                     ("ignoreTlsErrors",
                      Js.or_else (Js.get_opt (sub "webdav") "ignoreTlsErrors")
                        (Js.Bool false))])]
  else if String.eqb kind "OneDrive" then
    Js.Obj [("oneDriveOptions",
             Js.Obj [("clientId", Js.get_opt (sub "onedrive") "clientId");
                     ("clientSecret", Js.get_opt (sub "onedrive") "clientSecret");
                     ("authToken", Js.get_opt (sub "onedrive") "authToken");
                     ("isPublic",
                      Js.coalesce (Js.get_opt (sub "onedrive") "isPublic")
                        (Js.Bool true));
                     ("redirectUri", Js.get_opt (sub "onedrive") "redirectUri");
                     ("basePath", Js.get_opt (sub "onedrive") "basePath")])]
  else if String.eqb kind "JoplinServer" then
    Js.Obj [("joplinServerOptions",
             Js.Obj [("username", text (Js.get_opt (sub "joplinserver") "username"));
                     ("password", text (Js.get_opt (sub "joplinserver") "password"));
                     ("path", text (Js.get_opt (sub "joplinserver") "path"));
                     ("userContentPath",
                      text (Js.get_opt (sub "joplinserver") "userContentPath"))])]
  else
    Js.Obj [("googleDriveOptions",
             Js.Obj [("clientId", Js.get_opt (sub "googledrive") "clientId");
                     ("clientSecret", Js.get_opt (sub "googledrive") "clientSecret");
                     ("authToken", Js.get_opt (sub "googledrive") "authToken");
                     ("isPublic",
                      Js.coalesce (Js.get_opt (sub "googledrive") "isPublic")
                        (Js.Bool true))])].

Definition known_type (type : Js.value) : option string :=
  if Js.is_string type "FileSystem" then Some "FileSystem"
  else if Js.is_string type "WebDAV" then Some "WebDAV"
  else if Js.is_string type "OneDrive" then Some "OneDrive"
  else if Js.is_string type "JoplinServer" then Some "JoplinServer"
  else if Js.is_string type "GoogleDrive" then Some "GoogleDrive"
  else None.

(** The [try] block of [connect]. *)
Definition connect_body (env : Env) (credentials : Js.value) : AsyncE unit :=
  bindE (liftE (Js.get (engine env) credentials "type")) (fun type =>
  match known_type type with
  | Some kind =>
      fun w =>
      let handler := String.eqb kind "OneDrive" && oauthFlowHandler (api w) in
      match storage_new env (ticks w) kind (options credentials kind) handler with
      | Js.Normal handle =>
          let w := tick w in
          let w := with_api (mkApi (Some handle) (initialized (api w))
                               (oauthFlowHandler (api w))) w in
          bind (await (StorageInit handle)) (fun answer =>
            match answer with
            | Rejected e => throwE e
            | _ =>
                bind (act (fun w => with_api (mkApi (storage (api w)) true
                                                (oauthFlowHandler (api w))) w))
                  (fun _ => retE tt)
            end) w
      | Js.Throw e => throwE e (tick w)
      end
  | None =>
      throwE (Js.ErrorObj ("Unsupported storage type: " +:+ Js.to_string type))
  end).

(** The [catch] block of [connect]. *)
Definition connect_catch (env : Env) (credentials : Js.value) (error : Js.Thrown)
  : AsyncE unit :=
  bind (act (fun w => with_api (mkApi None false (oauthFlowHandler (api w))) w))
    (fun _ =>
  bindE (liftE (Js.get (engine env) credentials "type")) (fun type =>
  throwE (Js.ErrorObj
            ("Failed to connect to " +:+ Js.to_string type +:+ ": "
             +:+ Js.message_or_string error)))).

(** [connect(credentials)]. *)
Definition connect (env : Env) (credentials : Js.value) : AsyncE unit :=
  try_catch (connect_body env credentials) (connect_catch env credentials).

Definition isInitialized (a : Api) : bool := initialized a.

Definition disconnect (w : World) : World :=
  with_api (mkApi None false (oauthFlowHandler (api w))) w.

(** The [try] block of [getItems()], called without [ids]. *)
Definition getItems_body (env : Env) : AsyncE (list Js.value) :=
  fun w =>
  match storage (api w) with
  | Some handle =>
      if negb (initialized (api w)) then
        throwE (Js.ErrorObj "Storage not initialized. Call connect() first.") w
      else
        let options := Js.Obj [("unserializeAll", Js.Bool true);
                               ("ids", Js.Undefined)] in
        bind (await (StorageGetItems handle options)) (fun answer =>
          match answer with
          | Settled (Js.Arr elems _) =>
              retE (List.filter (fun item => match item with
                                             | Js.Null => false
                                             | _ => true
                                             end) elems)
          | Rejected e => throwE e
          | _ => throwE (Js.ErrorObj (Js.type_error_message (engine env) "filter"))
          end) w
  | None =>
      throwE (Js.ErrorObj "Storage not initialized. Call connect() first.") w
  end.

Definition getItems_catch (error : Js.Thrown) : AsyncE (list Js.value) :=
  throwE (Js.ErrorObj ("Failed to get items: " +:+ Js.message_or_string error)).

(** [getItems()]. *)
Definition getItems (env : Env) : AsyncE (list Js.value) :=
  try_catch (getItems_body env) getItems_catch.


(** [setOAuthFlowHandler(handler)]. *)
Definition setOAuthFlowHandler (w : World) : World :=
  with_api (mkApi (storage (api w)) (initialized (api w)) true) w.

Definition not_null (item : Js.value) : bool :=
  match item with
  | Js.Null => false
  | _ => true
  end.

(** The [try] block of [getItem(id)]. *)
Definition getItem_body (env : Env) (id : string) : AsyncE Js.value :=
  fun w =>
  match storage (api w) with
  | Some handle =>
      if negb (initialized (api w)) then
        throwE (Js.ErrorObj "Storage not initialized. Call connect() first.") w
      else
        let options := Js.Obj [("ids", Js.Arr [Js.Str id] []);
                               ("unserializeAll", Js.Bool true)] in
        bind (await (StorageGetItems handle options)) (fun answer =>
          match answer with
          | Settled (Js.Arr elems _) =>
              let validItems := List.filter not_null elems in
              retE (match validItems with
                    | first :: _ => first
                    | [] => Js.Null
                    end)
          | Rejected e => throwE e
          | _ => throwE (Js.ErrorObj (Js.type_error_message (engine env) "filter"))
          end) w
  | None =>
      throwE (Js.ErrorObj "Storage not initialized. Call connect() first.") w
  end.

(** [getItem(id)]: [null] instead of an exception. *)
Definition getItem (env : Env) (id : string) : Async Js.value :=
  bind (getItem_body env id)
    (fun r => ret (match r with
                   | Js.Normal item => item
                   | Js.Throw _ => Js.Null
                   end)).

(** [items.filter((item) => item.type_ === n)], for the number [n] that
    prints as [lit]: the callback runs on the items in order, and what
    it throws ends the loop. *)
Fixpoint filter_type (eng : Js.Engine) (lit : string) (items : list Js.value)
  : Js.Completion (list Js.value) :=
  match items with
  | [] => Js.Normal []
  | item :: rest =>
      Js.bind (Js.get eng item "type_") (fun type_ =>
      Js.bind (filter_type eng lit rest) (fun kept =>
      Js.Normal (if Js.is_number type_ lit then item :: kept else kept)))
  end.

(** The body shared by [getNotes], [getFolders], [getTags] and
    [getResources]: the empty array instead of an exception. *)
Definition items_of_type (env : Env) (lit : string) : Async (list Js.value) :=
  bind (getItems env)
    (fun r => ret (match r with
                   | Js.Normal items =>
                       match filter_type (engine env) lit items with
                       | Js.Normal kept => kept
                       | Js.Throw _ => []
                       end
                   | Js.Throw _ => []
                   end)).

Definition getNotes (env : Env) : Async (list Js.value) := items_of_type env "1".
Definition getFolders (env : Env) : Async (list Js.value) := items_of_type env "2".
Definition getTags (env : Env) : Async (list Js.value) := items_of_type env "5".
Definition getResources (env : Env) : Async (list Js.value) := items_of_type env "4".

End JoplinApiService.

(** ** [App.tsx] *)

Module App.

Import Runtime.

Definition PENDING : string := "pending_oauth_credentials".
Definition VERIFIER : string := "oauth_code_verifier".
Definition PROCESSED : string := "processed_oauth_code".

(** Runs a [ProfileManager] method on [localStorage]. *)
Definition on_local (f : gmap string string -> gmap string string * Js.Completion unit)
  : AsyncE unit :=
  fun w => let r := f (local w) in (with_local (fst r) w, Done (snd r)).

(** [createProfile], [saveProfile], [setActiveProfile],
    [setCurrentProfile], in this order, as both callers do. *)
Definition save_new_profile (env : Env) (credentials : Js.value) : AsyncE unit :=
  fun w =>
  let s := seed env (ticks w) in
  let stamp := now env (S (ticks w)) in
  bindE (liftE (ProfileManager.createProfile (engine env) s credentials None))
    (fun profile =>
  bindE (on_local (ProfileManager.saveProfile (engine env) profile)) (fun _ =>
  bindE (on_local (fun ls =>
           ProfileManager.setActiveProfile (engine env) stamp ls
             (Js.to_string (Js.prop profile "id")))) (fun _ =>
  bind (act (setCurrentProfile (Some profile))) (fun _ => retE tt))))
    (tick (tick w)).

(** [new OneDriveOAuthService(c.onedrive.clientId || '',
    c.onedrive.redirectUri || window.location.origin)]. *)
Definition oauth_service (env : Env) (onedrive : Js.value) : OneDriveOAuthService.t :=
  OneDriveOAuthService.new
    (Js.to_string (Js.or_else (Js.prop onedrive "clientId") (Js.Str EmptyString)))
    (Js.to_string (Js.or_else (Js.prop onedrive "redirectUri") (Js.Str (origin env)))).

(** The [try] block of [handleConnect]. *)
Definition handleConnect_body (env : Env) (credentials : Js.value) : AsyncE unit :=
  bindE (liftE (Js.get (engine env) credentials "type")) (fun type =>
  let onedrive := Js.prop credentials "onedrive" in
  if Js.is_string type "OneDrive" && Js.truthy onedrive
     && negb (Js.truthy (Js.prop onedrive "authToken"))
  then
    (* no token yet: start the OAuth flow in the browser *)
    fun w =>
    let w := session_set PENDING (ProfileManager.stringify_text credentials) w in
    let oauthService := oauth_service env onedrive in
    let rnd := random env (ticks w) in
    let codeVerifier := OneDriveOAuthService.generateCodeVerifier rnd in
    bind (await (SubtleDigest (Str.encode_utf8 codeVerifier))) (fun _ =>
      let r := OneDriveOAuthService.getAuthUrlWithPKCE oauthService rnd in
      bind (act (session_set VERIFIER (OneDriveOAuthService.codeVerifier r))) (fun _ =>
      bind (act (with_href (OneDriveOAuthService.authUrl r))) (fun _ =>
      retE tt))) (tick w)
  else
    bind (act (fun w =>
                 if Js.is_string type "GoogleDrive"
                 then session_set PENDING (ProfileManager.stringify_text credentials) w
                 else w)) (fun _ =>
    bindE (JoplinApiService.connect env credentials) (fun _ =>
    bindE (JoplinApiService.getItems env) (fun fetchedItems =>
    bind (act (setItems fetchedItems)) (fun _ =>
    bind (act (setConnected true)) (fun _ =>
    bindE (save_new_profile env credentials) (fun _ =>
    bind (act (session_remove PENDING)) (fun _ =>
    retE tt)))))))).

(** The [catch] block of [handleConnect]. *)
Definition handleConnect_catch (err : Js.Thrown) : AsyncE unit :=
  bind (act (setError (Some (Js.message_or "Failed to connect" err))))
    (fun _ => retE tt).

(** [handleConnect(credentials)]: it catches whatever its body throws. *)
Definition handleConnect (env : Env) (credentials : Js.value) : AsyncE unit :=
  bind (act (setLoading true)) (fun _ =>
  bind (act (setError None)) (fun _ =>
  finally
    (try_catch (handleConnect_body env credentials) handleConnect_catch)
    (setLoading false))).

(** The [catch (connectErr)] block around the call of [handleConnect]. *)
Definition sync_failed (connectErr : Js.Thrown) : AsyncE unit :=
  bind (act (setError
               (Some (match connectErr with
                      | Js.ErrorObj m =>
                          "Connected to OneDrive but sync failed: " +:+ m
                          +:+ ". You may need to configure the sync folder."
                      | Js.OtherValue _ => "Sync failed but you are logged in"
                      end)))) (fun _ =>
  bind (act (setConnected true)) (fun _ =>
  bind (act (setLoading false)) (fun _ => retE tt))).

(** What follows [await oauthService.exchangeCodeForToken(...)] in the
    OneDrive branch of [handleOAuthCallback]. *)
Definition finish_onedrive (env : Env) (pendingCreds tokenData : Js.value)
  : AsyncE unit :=
  bind (act (session_remove VERIFIER)) (fun _ =>
  bind (act (session_remove PROCESSED)) (fun _ =>
  bindE (liftE (Js.set (engine env) (Js.prop pendingCreds "onedrive") "authToken"
                  (Js.Str (ProfileManager.stringify_text tokenData)))) (fun onedrive' =>
  bindE (liftE (Js.set (engine env) pendingCreds "onedrive" onedrive')) (fun pendingCreds' =>
  bindE (save_new_profile env pendingCreds') (fun _ =>
  try_catch (handleConnect env pendingCreds') sync_failed))))).

(** The OneDrive branch of [handleOAuthCallback], inside its [try]. *)
Definition complete_onedrive (env : Env) (code : string) (pendingCreds : Js.value)
  : AsyncE unit :=
  fun w =>
  let codeVerifier := Storage.getItem (session w) VERIFIER in
  if negb (truthy_str codeVerifier) then
    throwE (Js.ErrorObj "PKCE code_verifier not found. Please try logging in again.") w
  else
    let verifier := match codeVerifier with Some v => v | None => EmptyString end in
    let oauthService := oauth_service env (Js.prop pendingCreds "onedrive") in
    bindE (OneDriveOAuthService.exchangeCodeForToken (engine env) oauthService code verifier)
      (finish_onedrive env pendingCreds) w.

(** The [try] block of [handleOAuthCallback], entered with the text
    found under [pending_oauth_credentials]. *)
Definition callback_try (env : Env) (code text : string) : AsyncE unit :=
  bindE (liftE (Js.JSON_parse (engine env) text)) (fun pendingCreds =>
  bind (act (session_remove PENDING)) (fun _ =>
  bind (act replaceState_pathname) (fun _ =>
  bind (act (setLoading true)) (fun _ =>
  bindE (liftE (Js.get (engine env) pendingCreds "type")) (fun type =>
  if Js.is_string type "OneDrive" && Js.truthy (Js.prop pendingCreds "onedrive")
  then complete_onedrive env code pendingCreds
  else handleConnect env pendingCreds))))).

(** Its [catch] block. *)
Definition callback_catch (err : Js.Thrown) : AsyncE unit :=
  bind (act (setError (Some (Js.message_or "Failed to complete OAuth" err)))) (fun _ =>
  bind (act (session_remove PENDING)) (fun _ =>
  bind (act (session_remove "oauth_code")) (fun _ =>
  bind (act (session_remove PROCESSED)) (fun _ =>
  bind (act (session_remove VERIFIER)) (fun _ =>
  bind (act replaceState_pathname) (fun _ =>
  bind (act (setLoading false)) (fun _ => retE tt))))))).

(** [handleOAuthCallback()], the effect [App] runs when it is mounted.
    The closure is created in the first render, where
    [oauthResolveCallback] still has its initial value [null]: the call
    guarded by it never happens. *)
Definition handleOAuthCallback (env : Env) : Async unit :=
  fun w =>
  let params := URLSearchParams.parse (search w) in
  let code := URLSearchParams.get params "code" in
  let error := URLSearchParams.get params "error" in
  let errorDescription := URLSearchParams.get params "error_description" in
  if truthy_str error then
    let w := setError (if truthy_str errorDescription then errorDescription else error) w in
    let w := replaceState_pathname w in
    let w := session_remove PENDING w in
    (w, Done tt)
  else if truthy_str code then
    let code := match code with Some c => c | None => EmptyString end in
    let processedCode := Storage.getItem (session w) PROCESSED in
    if same_str processedCode code then (w, Done tt)
    else
      let w := session_set PROCESSED code w in
      let pendingCredsJson := Storage.getItem (session w) PENDING in
      if truthy_str pendingCredsJson then
        let text := match pendingCredsJson with Some t => t | None => EmptyString end in
        bind (try_catch (callback_try env code text) callback_catch)
          (fun _ => ret tt) w
      else
        (replaceState_pathname w, Done tt)
  else (w, Done tt).


(** The [catch] block of [handleRefresh]. *)
Definition handleRefresh_catch (err : Js.Thrown) : AsyncE unit :=
  bind (act (setError (Some (Js.message_or "Failed to refresh" err))))
    (fun _ => retE tt).

(** [handleRefresh()]. *)
Definition handleRefresh (env : Env) : AsyncE unit :=
  fun w =>
  if negb (JoplinApiService.isInitialized (api w)) then (w, Done (Js.Normal tt))
  else
    bind (act (setLoading true)) (fun _ =>
    bind (act (setError None)) (fun _ =>
    finally
      (try_catch
         (bindE (JoplinApiService.getItems env) (fun fetchedItems =>
          bind (act (setItems fetchedItems)) (fun _ => retE tt)))
         handleRefresh_catch)
      (setLoading false))) w.

(** [handleDisconnect()]. *)
Definition handleDisconnect (w : World) : World :=
  let w := JoplinApiService.disconnect w in
  let w := with_local (ProfileManager.clearActiveProfile (local w)) w in
  let w := setCurrentProfile None w in
  let w := setConnected false w in
  let w := setItems [] w in
  setError None w.

(** The [catch] block of [loadActiveProfile]. *)
Definition loadActiveProfile_catch (err : Js.Thrown) : AsyncE unit :=
  bind (act (fun w => with_local (ProfileManager.clearActiveProfile (local w)) w))
    (fun _ =>
  bind (act (setCurrentProfile None)) (fun _ => retE tt)).

(** [loadActiveProfile()], the second effect [App] runs when it is
    mounted.  The closure is created in the first render, where
    [connected] still has its initial value [false]. *)
Definition loadActiveProfile (env : Env) : AsyncE unit :=
  fun w =>
  let activeProfile := ProfileManager.getActiveProfile (local w) in
  let connected := false in
  if Js.truthy activeProfile && negb connected then
    bind (act (setCurrentProfile (Some activeProfile))) (fun _ =>
    bind (act (setLoading true)) (fun _ =>
    finally
      (try_catch
         (bindE (JoplinApiService.connect env (Js.prop activeProfile "credentials"))
            (fun _ =>
          bindE (JoplinApiService.getItems env) (fun fetchedItems =>
          bind (act (setItems fetchedItems)) (fun _ =>
          bind (act (setConnected true)) (fun _ => retE tt)))))
         loadActiveProfile_catch)
      (setLoading false))) w
  else (w, Done (Js.Normal tt)).

End App.

(** ** Concrete inputs *)

Module Examples.

Definition engine : Js.Engine :=
  Js.mkEngine (fun _ => "Unexpected token in JSON")
    (fun k => "Cannot access property " +:+ k).

Definition ui0 : Runtime.Ui := Runtime.mkUi None false false None [] None.
Definition api0 : Runtime.Api := Runtime.mkApi None false true.

Definition seed0 : Runtime.Seed :=
  Runtime.mkSeed "1700000000000" "k3x9q2m1z" "11/14/2023"
    "1700000000001" "1700000000002".

(** An environment whose library constructs and initialises a storage. *)
Definition env : Runtime.Env :=
  Runtime.mkEnv engine "http://localhost:5173"
    (fun _ _ => Byte.x2a) (fun _ => seed0) (fun _ => "1700000000003")
    (fun _ _ _ _ => Js.Normal 7).

(** An environment whose library constructor throws. *)
Definition env_broken : Runtime.Env :=
  Runtime.mkEnv engine "http://localhost:5173"
    (fun _ _ => Byte.x2a) (fun _ => seed0) (fun _ => "1700000000003")
    (fun _ _ _ _ => Js.Throw (Js.ErrorObj "sync target unreachable")).

Definition world0 : Runtime.World :=
  Runtime.mkWorld ∅ ∅ EmptyString None ui0 api0 [] 0.

Definition filesystem_credentials : Credentials.t :=
  Credentials.mk Credentials.FileSystem
    (Some (Credentials.mkFilesystem "/home/me/joplin")) None None None None.

Definition onedrive_credentials : Credentials.t :=
  Credentials.mk Credentials.OneDrive None None
    (Some (Credentials.mkOnedrive (Some "client-1") None None (Some true)
             (Some "http://localhost:5173") (Some "Apps/Joplin")))
    None None.

(** What [handleConnect] wrote for [onedrive_credentials]. *)
Definition pending_text : string :=
  ProfileManager.stringify_text (Credentials.to_js onedrive_credentials).

(** The page as the provider's redirect finds it after a refusal: the
    pending credentials and the verifier are in [sessionStorage]. *)
Definition world_refused : Runtime.World :=
  Runtime.mkWorld
    {[ "pending_oauth_credentials" := pending_text;
       "oauth_code_verifier" := "dBjftJeZ4CVP-mB92K27uhbUJU1p1r_wW1gFWFOEjXk" ]}
    ∅ "?error=access_denied&error_description=User+cancelled" None
    ui0 api0 [] 0.

(** The same store, with a code in the address. *)
Definition world_returning : Runtime.World :=
  Runtime.mkWorld
    {[ "pending_oauth_credentials" := pending_text;
       "oauth_code_verifier" := "dBjftJeZ4CVP-mB92K27uhbUJU1p1r_wW1gFWFOEjXk" ]}
    ∅ "?code=abc123" None ui0 api0 [] 0.

(** Pending credentials, but no verifier. *)
Definition world_without_verifier : Runtime.World :=
  Runtime.mkWorld {[ "pending_oauth_credentials" := pending_text ]}
    ∅ "?code=xyz" None ui0 api0 [] 0.

(** A code arrives in a tab whose [sessionStorage] is empty. *)
Definition world_fresh_tab : Runtime.World :=
  Runtime.mkWorld ∅ ∅ "?code=xyz" None ui0 api0 [] 0.


(** The pending credentials as [JSON.parse] returns them. *)
Definition pending_parsed : Js.value :=
  Js.Obj
    [("type", Js.Str "OneDrive");
     ("onedrive",
      Js.Obj [("clientId", Js.Str "client-1");
              ("isPublic", Js.Bool true);
              ("redirectUri", Js.Str "http://localhost:5173");
              ("basePath", Js.Str "Apps/Joplin")])].

Definition token_response : Runtime.Response :=
  Runtime.mkResponse true "200" "OK"
    (ProfileManager.stringify_text
       (Js.Obj [("token_type", Js.Str "Bearer"); ("expires_in", Js.Num "3600");
                ("access_token", Js.Str "AT"); ("refresh_token", Js.Str "RT")])).

(** The request [world_returning] leads to. *)
Definition token_request : Request :=
  OneDriveOAuthService.exchange_request
    (OneDriveOAuthService.new "client-1" "http://localhost:5173")
    "abc123" "dBjftJeZ4CVP-mB92K27uhbUJU1p1r_wW1gFWFOEjXk".


End Examples.

(** * Definitions used to state the properties *)

(** ** Base64 *)

(** A digit of the standard alphabet, moved to the URL-safe one. *)
Definition url_safe (c : ascii) : ascii :=
  let c1 := if Ascii.eqb c "+" then "-"%char else c in
  if Ascii.eqb c1 "/" then "_"%char else c1.

(** The number of digits of the unpadded encoding of [n] bytes. *)
Fixpoint digits_for (n : nat) : nat :=
  match n with
  | 0 => 0
  | 1 => 2
  | 2 => 3
  | S (S (S k)) => 4 + digits_for k
  end.

(** ** The form-urlencoded wire format *)

(** [c] does not occur in [s]. *)
Definition no_char (c : ascii) (s : string) : bool :=
  Str.all (fun x => negb (Ascii.eqb x c)) s.

(** What [parse] does once the optional leading [?] is gone. *)
Definition parse_body (input : string) : URLSearchParams.t :=
  map URLSearchParams.parse_pair
    (List.filter (fun seq => negb (String.eqb seq EmptyString))
       (URLSearchParams.split_on "&" input)).

(** What a request looks like on the wire: method, content type, and the
    pairs a form decoder reads from the body. *)
Definition form_post (req : Request) (params : URLSearchParams.t) : Prop :=
  req_method req = "POST"
  /\ req_headers req = [("Content-Type", "application/x-www-form-urlencoded")]
  /\ req_body req = URLSearchParams.toString params
  /\ URLSearchParams.parse (req_body req) = params.

(** ** JSON *)

(** *** String literals *)

(** How [read_pieces] reads back what [escape_char] wrote for [c]. *)
Definition piece_of (c : ascii) : Js.piece :=
  let n := N_of_ascii c in
  if ((n <? 32) && negb ((n =? 8) || (n =? 9) || (n =? 10) || (n =? 12) || (n =? 13)))%N
  then Js.Unit16 n else Js.Raw c.

Fixpoint pieces_of (s : string) : list Js.piece :=
  match s with
  | EmptyString => []
  | String c r => piece_of c :: pieces_of r
  end.

(** *** Values *)

(** What [JSON.parse] returns for the text of a value: properties
    holding [undefined] are gone, [undefined] array elements have
    become [null], and arrays have lost their named properties. *)
Fixpoint prune (v : Js.value) : Js.value :=
  match v with
  | Js.Arr elems _ =>
      Js.Arr (map (fun e => match e with
                            | Js.Undefined => Js.Null
                            | _ => prune e
                            end) elems) []
  | Js.Obj props =>
      Js.Obj ((fix go (l : list (string * Js.value)) : list (string * Js.value) :=
                 match l with
                 | [] => []
                 | (k, x) :: r =>
                     match x with
                     | Js.Undefined => go r
                     | _ => (k, prune x) :: go r
                     end
                 end) props)
  | _ => v
  end.

(** The properties [JSON.stringify] prints. *)
Fixpoint kept (l : list (string * Js.value)) : list (string * Js.value) :=
  match l with
  | [] => []
  | (k, x) :: r =>
      match x with
      | Js.Undefined => kept r
      | _ => (k, x) :: kept r
      end
  end.

Fixpoint distinct (l : list string) : bool :=
  match l with
  | [] => true
  | k :: r => negb (existsb (String.eqb k) r) && distinct r
  end.

(** A non-negative integer the way JavaScript prints it: digits, without
    a leading zero unless it is zero. *)
Definition plain_integer (lit : string) : bool :=
  match lit with
  | EmptyString => false
  | String c r =>
      Js.is_digit c && Str.all Js.is_digit r
      && (negb (Ascii.eqb c "0") || String.eqb r EmptyString)
  end.

(** Text that can follow a value: nothing, or a comma or a closing
    bracket. *)
Definition delimited (rest : string) : bool :=
  match rest with
  | EmptyString => true
  | String c _ => Ascii.eqb c "," || Ascii.eqb c "}" || Ascii.eqb c "]"
  end.

(** Values whose numbers are plain integers and whose objects name each
    printed property once; [undefined] may fill a property or an array
    element. *)
Fixpoint printable (v : Js.value) : bool :=
  match v with
  | Js.Undefined => false
  | Js.Num lit => plain_integer lit
  | Js.Null | Js.Bool _ | Js.Str _ => true
  | Js.Arr elems _ =>
      forallb (fun e => match e with
                        | Js.Undefined => true
                        | _ => printable e
                        end) elems
  | Js.Obj props =>
      distinct (map fst (kept props))
      && forallb (fun kv => match kv with
                            | (_, Js.Undefined) => true
                            | (_, x) => printable x
                            end) props
  end.

(** Fuel that suffices to parse the text of a value. *)
Fixpoint need (v : Js.value) : nat :=
  match v with
  | Js.Arr elems _ => S (list_sum (map (fun e => S (need e)) elems))
  | Js.Obj props =>
      S (list_sum (map (fun kv => match kv with
                                  | (_, Js.Undefined) => 0
                                  | (_, x) => S (need x)
                                  end) props))
  | _ => 1
  end.

Definition slot_text (e : Js.value) : string :=
  match Js.stringify e with
  | Some t => t
  | None => "null"
  end.

Fixpoint members_text (l : list (string * Js.value)) : list string :=
  match l with
  | [] => []
  | (k, x) :: r =>
      match Js.stringify x with
      | Some t => (Js.quote k +:+ ":" +:+ t) :: members_text r
      | None => members_text r
      end
  end.

(** The first character of the text of a printable value. *)
Definition opens (t : string) : bool :=
  match t with
  | String c _ =>
      Ascii.eqb c "{" || Ascii.eqb c "[" || Ascii.eqb c "034"
      || Ascii.eqb c "t" || Ascii.eqb c "f" || Ascii.eqb c "n"
      || Js.is_digit c
  | EmptyString => false
  end.

Definition member_text (kv : string * Js.value) : string :=
  Js.quote (fst kv) +:+ ":" +:+ slot_text (snd kv).

Definition prune_slot (e : Js.value) : Js.value :=
  match e with
  | Js.Undefined => Js.Null
  | _ => prune e
  end.

(** The statement proved for each value by induction. *)
Definition reads_back (v : Js.value) : Prop :=
  printable v = true ->
  forall t, Js.stringify v = Some t ->
  forall fuel rest, need v <= fuel -> delimited rest = true ->
  Js.parse_value fuel (t +:+ rest) = Js.Got (prune v) rest.

(** ** Invariants of asynchronous code *)

(** [task_inv P Q t]: whenever [t] resumes in a world that satisfies
    [P], it leaves a world that satisfies [P]; and its result, when it
    finishes, satisfies [Q]. *)
Fixpoint task_inv {A} (P : Runtime.World -> Prop) (Q : A -> Prop)
    (t : Runtime.Task A) {struct t} : Prop :=
  match t with
  | Runtime.Done a => Q a
  | Runtime.Await _ k =>
      forall ans w, P w ->
        P (fst (k ans w)) /\ task_inv P Q (snd (k ans w))
  end.

Definition async_inv {A} (P : Runtime.World -> Prop) (Q : A -> Prop)
    (m : Runtime.Async A) : Prop :=
  forall w, P w -> P (fst (m w)) /\ task_inv P Q (snd (m w)).

Definition anything {A} : A -> Prop := fun _ => True.

(** The result of code that cannot throw. *)
Definition returns_normally {A} (r : Js.Completion A) : Prop :=
  exists a, r = Js.Normal a.

(** A property of the world that the changes made around the library
    calls do not disturb: the fields of [joplinApi], the clock,
    [localStorage], and the flags and lists of the user interface. *)
Record tolerant (P : Runtime.World -> Prop) : Prop := mkTolerant {
  tol_api : forall a w, P w -> P (Runtime.with_api a w);
  tol_tick : forall w, P w -> P (Runtime.tick w);
  tol_local : forall l w, P w -> P (Runtime.with_local l w);
  tol_loading : forall b w, P w -> P (Runtime.setLoading b w);
  tol_error : forall e w, P w -> P (Runtime.setError e w);
  tol_items : forall l w, P w -> P (Runtime.setItems l w);
  tol_connected : forall b w, P w -> P (Runtime.setConnected b w);
  tol_search : forall s w, P w -> P (Runtime.with_search s w)
}.

(** The test with which [handleConnect] decides to start the OAuth flow. *)
Definition starts_oauth (credentials : Js.value) : bool :=
  Js.is_string (Js.prop credentials "type") "OneDrive"
  && Js.truthy (Js.prop credentials "onedrive")
  && negb (Js.truthy (Js.prop (Js.prop credentials "onedrive") "authToken")).

(** No request has been issued since the list of requests was [sent],
    and no PKCE verifier is stored. *)
Definition quiet_without_verifier (sent : list Request) (w : Runtime.World) : Prop :=
  Runtime.fetches w = sent
  /\ truthy_str (Storage.getItem (Runtime.session w) App.VERIFIER) = false.

(** None of the three keys of the flow is in [sessionStorage]. *)
Definition store_empty (w : Runtime.World) : Prop :=
  Storage.getItem (Runtime.session w) App.PENDING = None
  /\ Storage.getItem (Runtime.session w) App.VERIFIER = None
  /\ Storage.getItem (Runtime.session w) App.PROCESSED = None.

Definition VERIFIER_MISSING : string :=
  "PKCE code_verifier not found. Please try logging in again.".

(** The store holds pending credentials of type OneDrive: a text under
    [pending_oauth_credentials] that parses to a value whose [type] is
    ["OneDrive"] and whose [onedrive] property is truthy. *)
Definition pending_onedrive (w : Runtime.World) (pendingCreds : Js.value) : Prop :=
  exists text,
    Storage.getItem (Runtime.session w) App.PENDING = Some text
    /\ truthy_str (Some text) = true
    /\ Js.parse text = Some pendingCreds
    /\ Js.is_string (Js.prop pendingCreds "type") "OneDrive" = true
    /\ Js.truthy (Js.prop pendingCreds "onedrive") = true.

(** The address carries the code [code], and no error. *)
Definition carries_code (w : Runtime.World) (code : string) : Prop :=
  let params := URLSearchParams.parse (Runtime.search w) in
  truthy_str (URLSearchParams.get params "error") = false
  /\ URLSearchParams.get params "code" = Some code
  /\ truthy_str (Some code) = true.

(** How the handler goes on when the token endpoint has answered. *)
Definition after_exchange (env : Runtime.Env) (pendingCreds : Js.value)
    (answer : Runtime.Answer) : Runtime.Async unit :=
  Runtime.bind
    (Runtime.try_catch
       (Runtime.bindE (OneDriveOAuthService.token_of_answer (Runtime.engine env) answer)
          (App.finish_onedrive env pendingCreds))
       App.callback_catch)
    (fun _ => Runtime.ret tt).

(** Why a further delivery of [code] cannot start an exchange: the code
    is empty, or no pending credentials are stored, or the replay
    marker is [code]. *)
Inductive Guard : Type :=
| NoCode
| PendingGone
| CodeMarked.

(** The requests issued are [sent], and the guard holds. *)
Definition guarded (g : Guard) (code : string) (sent : list Request)
    (w : Runtime.World) : Prop :=
  Runtime.fetches w = sent
  /\ match g with
     | NoCode => truthy_str (Some code) = false
     | PendingGone =>
         truthy_str (Storage.getItem (Runtime.session w) App.PENDING) = false
     | CodeMarked =>
         same_str (Storage.getItem (Runtime.session w) App.PROCESSED) code = true
     end.


(** ** Deliveries of a code to the handler *)

(** What happens next on the page: the handler runs once more while the
    address carries the code, or the [i]-th suspended run resumes with
    the answer to the call it awaits. *)
Inductive Move : Type :=
| Deliver
| Resume (i : nat) (ans : Runtime.Answer).

(** The query of a redirect that delivers [code]. *)
Definition return_search (code : string) : string :=
  "?" +:+ URLSearchParams.toString [("code", code)].

(** The page: its world, and the runs of the handler started so far. *)
Definition Page : Type := Runtime.World * list (Runtime.Task unit).

Definition step (env : Runtime.Env) (code : string) (m : Move) (s : Page) : Page :=
  match m with
  | Deliver =>
      let r := App.handleOAuthCallback env
                 (Runtime.with_search (return_search code) (fst s)) in
      (fst r, (snd s ++ [snd r])%list)
  | Resume i ans =>
      match snd s !! i with
      | Some (Runtime.Await _ k) =>
          let r := k ans (fst s) in (fst r, <[i := snd r]> (snd s))
      | _ => s
      end
  end.

Definition play (env : Runtime.Env) (code : string) (moves : list Move) (s : Page)
  : Page :=
  fold_left (fun s m => step env code m s) moves s.

(** Every run of the handler on the page keeps [J] when it resumes. *)
Definition page_inv (J : Runtime.World -> Prop) (s : Page) : Prop :=
  J (fst s) /\ List.Forall (task_inv J (fun _ : unit => True)) (snd s).

(** ** Running asynchronous code with given answers *)

(** Like [drive], and returns the answers that were not used. *)
Fixpoint steps {A} (answers : list Runtime.Answer) (t : Runtime.Task A)
    (w : Runtime.World) {struct t}
  : option (Runtime.World * A * list Runtime.Answer) :=
  match t with
  | Runtime.Done a => Some (w, a, answers)
  | Runtime.Await _ k =>
      match answers with
      | [] => None
      | ans :: rest => let r := k ans w in steps rest (snd r) (fst r)
      end
  end.

Definition run_steps {A} (m : Runtime.Async A) (answers : list Runtime.Answer)
    (w : Runtime.World) : option (Runtime.World * A * list Runtime.Answer) :=
  let r := m w in steps answers (snd r) (fst r).

(** The items a filter by type keeps. *)
Definition has_type (lit : string) (item : Js.value) : bool :=
  Js.is_number (Js.prop item "type_") lit.

(** The service holds a storage object and has finished [connect]. *)
Definition connected_api (a : Runtime.Api) : bool :=
  match Runtime.storage a with
  | Some _ => Runtime.initialized a
  | None => false
  end.

(** What [getItems()] makes of the answer of the library. *)
Definition items_of_answer (env : Runtime.Env) (ans : Runtime.Answer)
  : Js.Completion (list Js.value) :=
  match ans with
  | Runtime.Settled (Js.Arr elems _) =>
      Js.Normal (List.filter JoplinApiService.not_null elems)
  | Runtime.Rejected e =>
      Js.Throw (Js.ErrorObj ("Failed to get items: " +:+ Js.message_or_string e))
  | _ =>
      Js.Throw (Js.ErrorObj
                  ("Failed to get items: "
                   +:+ Js.type_error_message (Runtime.engine env) "filter"))
  end.

(** What [getItems()] throws on a service that is not connected. *)
Definition NOT_CONNECTED : string :=
  "Failed to get items: Storage not initialized. Call connect() first.".


(** Two worlds that differ at most in the [joplinApi] singleton and in
    how often the environment was consulted. *)
Definition same_page (w w' : Runtime.World) : Prop :=
  Runtime.session w' = Runtime.session w
  /\ Runtime.local w' = Runtime.local w
  /\ Runtime.search w' = Runtime.search w
  /\ Runtime.href w' = Runtime.href w
  /\ Runtime.ui w' = Runtime.ui w
  /\ Runtime.fetches w' = Runtime.fetches w.

(** * Proofs *)

(** ** Facts about the string toolkit *)

Lemma bounded_N_check (f : N -> bool) (n : nat) :
  forallb f (map N.of_nat (seq 0 n)) = true ->
  forall i, (i < N.of_nat n)%N -> f i = true.
Proof.
  intros Hall i Hi. rewrite forallb_forall in Hall. apply Hall.
  apply in_map_iff. exists (N.to_nat i). split; [lia|].
  apply in_seq. lia.
Qed.

Lemma str_app_cons (c : ascii) (s t : string) :
  String c s +:+ t = String c (s +:+ t).
Proof. reflexivity. Qed.

Lemma str_app_nil_l (t : string) : EmptyString +:+ t = t.
Proof. reflexivity. Qed.

Lemma str_length_app (s t : string) :
  String.length (s +:+ t) = String.length s + String.length t.
Proof.
  induction s as [|c s IH]; [reflexivity|].
  rewrite str_app_cons. simpl. now rewrite IH.
Qed.

Lemma str_all_app p (s t : string) :
  Str.all p (s +:+ t) = Str.all p s && Str.all p t.
Proof.
  induction s as [|c s IH]; [reflexivity|].
  rewrite str_app_cons. simpl. now rewrite IH, andb_assoc.
Qed.

Lemma strip_trailing_all_run c (n : nat) :
  Str.strip_trailing c (Str.repeat_char c n) = EmptyString.
Proof.
  induction n as [|n IH]; simpl; [reflexivity|].
  rewrite IH. now rewrite Ascii.eqb_refl.
Qed.

Lemma strip_trailing_clean c (s : string) :
  Str.all (fun x => negb (Ascii.eqb x c)) s = true ->
  Str.strip_trailing c s = s.
Proof.
  induction s as [|a s IH]; simpl; [reflexivity|].
  intros [Ha Hs]%andb_prop. rewrite (IH Hs).
  destruct s; [|reflexivity].
  apply negb_true_iff in Ha. now rewrite Ha.
Qed.

Lemma strip_trailing_app_run c (s : string) (n : nat) :
  Str.strip_trailing c (s +:+ Str.repeat_char c n) = Str.strip_trailing c s.
Proof.
  induction s as [|a s IH].
  - apply strip_trailing_all_run.
  - rewrite str_app_cons. simpl. now rewrite IH.
Qed.

(** ** Base64: the service's encoder against RFC 4648 *)

(** Induction over a byte array in the groups of three that base64 reads. *)
Lemma triples_ind (A : Type) (P : list A -> Prop) :
  P [] -> (forall a, P [a]) -> (forall a b, P [a; b]) ->
  (forall a b c r, P r -> P (a :: b :: c :: r)) ->
  forall l, P l.
Proof.
  intros H0 H1 H2 H3.
  assert (Hpair : forall l, P l /\ (forall a, P (a :: l)) /\ (forall a b, P (a :: b :: l))).
  { induction l as [|x l (IHa & IHb & IHc)].
    - repeat split; auto.
    - repeat split; auto. }
  intros l. apply Hpair.
Qed.

Lemma replace_twice (s : string) :
  Str.replace_all "/" "_" (Str.replace_all "+" "-" s) = Str.map_chars url_safe s.
Proof. induction s as [|c s IH]; simpl; [reflexivity|]. now rewrite <- IH. Qed.

Lemma digit_url_safe (i : N) :
  (i < 64)%N ->
  url_safe (Base64.digit Base64.std_alphabet i) = Base64.digit Base64.url_alphabet i.
Proof.
  intros Hi.
  apply (bounded_N_check
           (fun i => Ascii.eqb (url_safe (Base64.digit Base64.std_alphabet i))
                       (Base64.digit Base64.url_alphabet i)) 64) in Hi.
  - now apply Ascii.eqb_eq.
  - vm_compute. reflexivity.
Qed.

Lemma digit_url_unreserved (i : N) :
  (i < 64)%N -> is_unreserved (Base64.digit Base64.url_alphabet i) = true.
Proof.
  intros Hi.
  apply (bounded_N_check
           (fun i => is_unreserved (Base64.digit Base64.url_alphabet i)) 64) in Hi;
    [assumption | vm_compute; reflexivity].
Qed.

Lemma code_of_byte (b : byte) : N_of_ascii (ascii_of_byte b) = Byte.to_N b.
Proof.
  rewrite ascii_of_byte_via_N. apply N_ascii_embedding.
  pose proof (Byte.to_N_bounded b). lia.
Qed.

Ltac sextet_bound :=
  unfold Base64.hi6, Base64.mid6a, Base64.mid6b, Base64.lo6;
  repeat match goal with
         | b : byte |- _ =>
             lazymatch goal with
             | H : (Byte.to_N b <= 255)%N |- _ => fail
             | _ => pose proof (Byte.to_N_bounded b)
             end
         end;
  zify; Z.to_euclidean_division_equations; lia.

Lemma hi6_lt (a : byte) : (Base64.hi6 (Byte.to_N a) < 64)%N.
Proof. sextet_bound. Qed.
Lemma mid6a_lt (a b : byte) : (Base64.mid6a (Byte.to_N a) (Byte.to_N b) < 64)%N.
Proof. sextet_bound. Qed.
Lemma mid6a0_lt (a : byte) : (Base64.mid6a (Byte.to_N a) 0 < 64)%N.
Proof. sextet_bound. Qed.
Lemma mid6b_lt (a b : byte) : (Base64.mid6b (Byte.to_N a) (Byte.to_N b) < 64)%N.
Proof. sextet_bound. Qed.
Lemma mid6b0_lt (a : byte) : (Base64.mid6b (Byte.to_N a) 0 < 64)%N.
Proof. sextet_bound. Qed.
Lemma lo6_lt (a : byte) : (Base64.lo6 (Byte.to_N a) < 64)%N.
Proof. sextet_bound. Qed.

Create HintDb sextet.
#[local] Hint Resolve hi6_lt mid6a_lt mid6a0_lt mid6b_lt mid6b0_lt lo6_lt : sextet.

(** [btoa], made URL-safe, is the reference encoding followed by padding. *)
Lemma btoa_url_safe (l : list byte) :
  exists n, Str.map_chars url_safe (Base64.btoa (Str.fromCharCode l))
            = Base64.rfc4648_base64url_nopad l +:+ Str.repeat_char "=" n.
Proof.
  induction l as [| a | a b | a b c r [n IH]] using triples_ind.
  - exists 0. reflexivity.
  - exists 2. cbn [Str.fromCharCode Base64.btoa Str.map_chars Base64.rfc4648_base64url_nopad].
    rewrite !code_of_byte, !digit_url_safe by auto with sextet. reflexivity.
  - exists 1. cbn [Str.fromCharCode Base64.btoa Str.map_chars Base64.rfc4648_base64url_nopad].
    rewrite !code_of_byte, !digit_url_safe by auto with sextet. reflexivity.
  - exists n. cbn [Str.fromCharCode Base64.btoa Str.map_chars Base64.rfc4648_base64url_nopad].
    rewrite !code_of_byte, !digit_url_safe by auto with sextet.
    rewrite IH. reflexivity.
Qed.

Lemma rfc4648_unreserved (l : list byte) :
  Str.all is_unreserved (Base64.rfc4648_base64url_nopad l) = true.
Proof.
  induction l as [| a | a b | a b c r IH] using triples_ind;
    cbn [Base64.rfc4648_base64url_nopad Str.all];
    rewrite ?digit_url_unreserved by auto with sextet; auto.
Qed.

Lemma str_all_impl (p q : ascii -> bool) (s : string) :
  (forall c, p c = true -> q c = true) -> Str.all p s = true -> Str.all q s = true.
Proof.
  intros Hpq. induction s as [|c s IH]; simpl; [reflexivity|].
  intros [Hc Hs]%andb_prop. rewrite (Hpq _ Hc). now apply IH.
Qed.

Lemma unreserved_not_pad (c : ascii) :
  is_unreserved c = true -> negb (Ascii.eqb c "=") = true.
Proof.
  destruct (Ascii.eqb_spec c "=") as [->|]; [vm_compute; discriminate | reflexivity].
Qed.

(** The service's [base64URLEncode] computes RFC 4648 base64url without
    padding, on every byte array. *)
Lemma base64URLEncode_rfc4648 (buffer : list byte) :
  OneDriveOAuthService.base64URLEncode buffer
  = Base64.rfc4648_base64url_nopad buffer.
Proof.
  unfold OneDriveOAuthService.base64URLEncode.
  rewrite replace_twice.
  destruct (btoa_url_safe buffer) as [n ->].
  rewrite strip_trailing_app_run.
  apply strip_trailing_clean.
  eapply str_all_impl; [apply unreserved_not_pad | apply rfc4648_unreserved].
Qed.

Lemma rfc4648_length (l : list byte) :
  String.length (Base64.rfc4648_base64url_nopad l) = digits_for (length l).
Proof.
  induction l as [| a | a b | a b c r IH] using triples_ind; try reflexivity.
  cbn [Base64.rfc4648_base64url_nopad String.length length digits_for].
  now rewrite IH.
Qed.

Lemma getRandomValues_length rnd n : length (getRandomValues rnd n) = n.
Proof. unfold getRandomValues. now rewrite length_map, length_seq. Qed.

(** ** The component's [generateRandomString] *)

Lemma str_app_nil_r (s : string) : s +:+ EmptyString = s.
Proof. induction s as [|c s IH]; [reflexivity | now rewrite str_app_cons, IH]. Qed.

Lemma str_app_assoc (s t u : string) : (s +:+ t) +:+ u = s +:+ (t +:+ u).
Proof.
  induction s as [|c s IH]; [reflexivity | now rewrite !str_app_cons, IH].
Qed.

Lemma fold_append_acc (g : nat -> string) (l : list nat) (acc : string) :
  fold_left (fun result i => result +:+ g i) l acc
  = acc +:+ fold_right (fun i r => g i +:+ r) EmptyString l.
Proof.
  revert acc. induction l as [|i l IH]; intros acc; simpl.
  - now rewrite str_app_nil_r.
  - now rewrite IH, str_app_assoc.
Qed.

Lemma pick_in_range (rnd : RandomSource) (len i : nat) :
  i < len ->
  exists c, OneDriveAuth.pick (getRandomValues rnd len) i = String c EmptyString
            /\ is_unreserved c = true.
Proof.
  intros Hi. unfold OneDriveAuth.pick, getRandomValues.
  rewrite list_lookup_fmap, lookup_seq_lt by assumption. cbn [fmap option_fmap option_map].
  change (N.of_nat (String.length OneDriveAuth.charset)) with 66%N.
  set (k := (Byte.to_N (rnd (0 + i)%nat) mod 66)%N).
  assert (Hk : (k < N.of_nat 66)%N) by (subst k; apply N.mod_lt; lia).
  apply (bounded_N_check
           (fun k => match String.get (N.to_nat k) OneDriveAuth.charset with
                     | Some c => is_unreserved c
                     | None => false
                     end) 66) in Hk; [|vm_compute; reflexivity].
  destruct (String.get (N.to_nat k) OneDriveAuth.charset) as [c|]; [|discriminate].
  now exists c.
Qed.

Lemma picks_length_charset (rnd : RandomSource) (len : nat) (l : list nat) :
  Forall (fun i => i < len) l ->
  let out := fold_right
               (fun i r => OneDriveAuth.pick (getRandomValues rnd len) i +:+ r)
               EmptyString l in
  String.length out = length l /\ Str.all is_unreserved out = true.
Proof.
  induction 1 as [|i l Hi _ [IHlen IHall]]; cbn [fold_right length]; [split; reflexivity|].
  destruct (pick_in_range rnd len i Hi) as (c & -> & Hc).
  rewrite str_app_cons, str_app_nil_l.
  cbn [String.length Str.all]. rewrite Hc.
  split; [now f_equal | assumption].
Qed.

Lemma generateRandomString_spec (rnd : RandomSource) (len : nat) :
  String.length (OneDriveAuth.generateRandomString rnd len) = len
  /\ Str.all is_unreserved (OneDriveAuth.generateRandomString rnd len) = true.
Proof.
  unfold OneDriveAuth.generateRandomString.
  rewrite fold_append_acc, str_app_nil_l.
  destruct (picks_length_charset rnd len (seq 0 len)) as [Hlen Hall].
  - apply Forall_forall. intros i Hi%elem_of_seq. lia.
  - split; [now rewrite Hlen, length_seq | assumption].
Qed.

(** C7.  Every verifier a generator produces, whatever the random source
    returns, has between 43 and 128 characters, all of them from
    [A-Z a-z 0-9 - . _ ~]: the service's [generateCodeVerifier] yields
    exactly 43 characters and the component's [generateRandomString(128)]
    exactly 128. *)
Theorem verifier_length_and_charset (rnd : RandomSource) :
  let v1 := OneDriveOAuthService.generateCodeVerifier rnd in
  let v2 := OneDriveAuth.generateRandomString rnd 128 in
  (43 <= String.length v1 <= 128 /\ Str.all is_unreserved v1 = true)
  /\ (43 <= String.length v2 <= 128 /\ Str.all is_unreserved v2 = true).
Proof.
  cbv zeta. split.
  - unfold OneDriveOAuthService.generateCodeVerifier.
    rewrite base64URLEncode_rfc4648, rfc4648_length, getRandomValues_length.
    split; [cbn; lia | apply rfc4648_unreserved].
  - destruct (generateRandomString_spec rnd 128) as [-> Hall].
    split; [lia | assumption].
Qed.

(** ** The form-urlencoded wire format: parsing undoes serialization *)

Lemma no_char_app c s t : no_char c (s +:+ t) = no_char c s && no_char c t.
Proof. apply str_all_app. Qed.

Ltac each_byte c := destruct c as [[] [] [] [] [] [] [] []].

Lemma encode_byte_delims (c : ascii) :
  no_char "&" (URLSearchParams.encode_byte c) = true
  /\ no_char "=" (URLSearchParams.encode_byte c) = true
  /\ no_char "?" (URLSearchParams.encode_byte c) = true
  /\ no_char "#" (URLSearchParams.encode_byte c) = true.
Proof. each_byte c; vm_compute; auto. Qed.

Lemma decode_encode_byte (c : ascii) (r : string) :
  URLSearchParams.decode (URLSearchParams.encode_byte c +:+ r)
  = String c (URLSearchParams.decode r).
Proof. each_byte c; reflexivity. Qed.

Lemma encode_delims (s : string) :
  no_char "&" (URLSearchParams.encode s) = true
  /\ no_char "=" (URLSearchParams.encode s) = true
  /\ no_char "?" (URLSearchParams.encode s) = true
  /\ no_char "#" (URLSearchParams.encode s) = true.
Proof.
  induction s as [|c s (IH1 & IH2 & IH3 & IH4)]; [repeat split|].
  cbn [URLSearchParams.encode]. rewrite !no_char_app, IH1, IH2, IH3, IH4.
  destruct (encode_byte_delims c) as (-> & -> & -> & ->). auto.
Qed.

Lemma decode_encode (s : string) :
  URLSearchParams.decode (URLSearchParams.encode s) = s.
Proof.
  induction s as [|c s IH]; [reflexivity|].
  cbn [URLSearchParams.encode]. now rewrite decode_encode_byte, IH.
Qed.

Lemma cut_at_first c (x y : string) :
  no_char c x = true ->
  URLSearchParams.cut_at c (x +:+ String c y) = (x, Some y).
Proof.
  induction x as [|a x IH]; intros Hx.
  - rewrite str_app_nil_l. simpl. now rewrite Ascii.eqb_refl.
  - rewrite str_app_cons. simpl in Hx |- *.
    apply andb_prop in Hx as [Ha Hx]. apply negb_true_iff in Ha.
    now rewrite Ha, (IH Hx).
Qed.

Lemma split_on_clean c (x : string) :
  no_char c x = true -> URLSearchParams.split_on c x = [x].
Proof.
  induction x as [|a x IH]; intros Hx; [reflexivity|].
  simpl in Hx |- *. apply andb_prop in Hx as [Ha Hx]. apply negb_true_iff in Ha.
  now rewrite Ha, (IH Hx).
Qed.

Lemma split_on_first c (x y : string) :
  no_char c x = true ->
  URLSearchParams.split_on c (x +:+ String c y)
  = x :: URLSearchParams.split_on c y.
Proof.
  induction x as [|a x IH]; intros Hx.
  - rewrite str_app_nil_l. simpl. now rewrite Ascii.eqb_refl.
  - rewrite str_app_cons. simpl in Hx |- *.
    apply andb_prop in Hx as [Ha Hx]. apply negb_true_iff in Ha.
    now rewrite Ha, (IH Hx).
Qed.

Lemma encode_pair_amp (p : string * string) :
  no_char "&" (URLSearchParams.encode_pair p) = true.
Proof.
  unfold URLSearchParams.encode_pair. rewrite !no_char_app.
  destruct (encode_delims (fst p)) as (-> & _), (encode_delims (snd p)) as (-> & _).
  reflexivity.
Qed.

Lemma encode_pair_nonempty (p : string * string) :
  String.eqb (URLSearchParams.encode_pair p) EmptyString = false.
Proof.
  unfold URLSearchParams.encode_pair.
  destruct (URLSearchParams.encode (fst p)); reflexivity.
Qed.

Lemma parse_encode_pair (p : string * string) :
  URLSearchParams.parse_pair (URLSearchParams.encode_pair p) = p.
Proof.
  unfold URLSearchParams.parse_pair, URLSearchParams.encode_pair.
  change ("=" +:+ URLSearchParams.encode (snd p))
    with (String "=" (URLSearchParams.encode (snd p))).
  rewrite cut_at_first by apply encode_delims.
  rewrite !decode_encode. now destruct p.
Qed.

Lemma parse_body_toString (params : URLSearchParams.t) :
  parse_body (URLSearchParams.toString params) = params.
Proof.
  unfold URLSearchParams.toString.
  induction params as [|p [|q r] IH]; [reflexivity| |].
  - cbn [map Str.join]. unfold parse_body.
    rewrite split_on_clean by apply encode_pair_amp.
    cbn [List.filter]. rewrite encode_pair_nonempty. cbn [negb map].
    now rewrite parse_encode_pair.
  - cbn [map Str.join] in IH |- *. unfold parse_body in IH |- *.
    change ("&" +:+ ?t) with (String "&" t).
    rewrite split_on_first by apply encode_pair_amp.
    cbn [List.filter]. rewrite encode_pair_nonempty. cbn [negb map].
    now rewrite parse_encode_pair, IH.
Qed.

Lemma toString_no_question (params : URLSearchParams.t) :
  no_char "?" (URLSearchParams.toString params) = true.
Proof.
  unfold URLSearchParams.toString.
  assert (Hp : forall p, no_char "?" (URLSearchParams.encode_pair p) = true).
  { intros p. unfold URLSearchParams.encode_pair. rewrite !no_char_app.
    destruct (encode_delims (fst p)) as (_ & _ & -> & _).
    destruct (encode_delims (snd p)) as (_ & _ & -> & _). reflexivity. }
  induction params as [|p [|q r] IH]; [reflexivity| apply Hp |].
  cbn [map Str.join] in IH |- *. rewrite !no_char_app, Hp, IH. reflexivity.
Qed.

Lemma toString_no_hash (params : URLSearchParams.t) :
  no_char "#" (URLSearchParams.toString params) = true.
Proof.
  unfold URLSearchParams.toString.
  assert (Hp : forall p, no_char "#" (URLSearchParams.encode_pair p) = true).
  { intros p. unfold URLSearchParams.encode_pair. rewrite !no_char_app.
    destruct (encode_delims (fst p)) as (_ & _ & _ & ->).
    destruct (encode_delims (snd p)) as (_ & _ & _ & ->). reflexivity. }
  induction params as [|p [|q r] IH]; [reflexivity| apply Hp |].
  cbn [map Str.join] in IH |- *. rewrite !no_char_app, Hp, IH. reflexivity.
Qed.

Lemma cut_at_absent c (s : string) :
  no_char c s = true -> URLSearchParams.cut_at c s = (s, None).
Proof.
  induction s as [|a s IH]; intros Hs; [reflexivity|].
  simpl in Hs |- *. apply andb_prop in Hs as [Ha Hs]. apply negb_true_iff in Ha.
  now rewrite Ha, (IH Hs).
Qed.

(** A server (or [new URLSearchParams(body)]) that parses what
    [toString] produced reads back exactly the pairs that went in. *)
Lemma parse_toString (params : URLSearchParams.t) :
  URLSearchParams.parse (URLSearchParams.toString params) = params.
Proof.
  pose proof (toString_no_question params) as Hq.
  pose proof (parse_body_toString params) as Hb.
  unfold URLSearchParams.parse. unfold parse_body in Hb.
  destruct (URLSearchParams.toString params) as [|c s]; [exact Hb|].
  destruct (Ascii.eqb_spec c "?") as [->|Hne].
  - simpl in Hq. discriminate.
  - each_byte c; try exact Hb. now elim Hne.
Qed.

Lemma parse_query_toString (params : URLSearchParams.t) :
  URLSearchParams.parse ("?" +:+ URLSearchParams.toString params) = params.
Proof. apply parse_body_toString. Qed.

(** The query parameters of [base?query], for a [base] without [?] and
    [#] and a [query] that [toString] wrote. *)
Lemma searchParams_of_toString (base : string) (params : URLSearchParams.t) :
  no_char "?" base = true -> no_char "#" base = true ->
  URL.searchParams (base +:+ "?" +:+ URLSearchParams.toString params) = params.
Proof.
  intros Hq Hh. unfold URL.searchParams, URL.query.
  rewrite (cut_at_absent "#").
  2:{ rewrite !no_char_app, Hh, toString_no_hash. reflexivity. }
  cbn [fst].
  change ("?" +:+ ?t) with (String "?" t).
  rewrite cut_at_first by assumption.
  cbn [snd]. apply parse_toString.
Qed.

(** ** The authorization URL and the token request *)

(** The challenge of the verifier of RFC 7636, appendix B. *)
Example challenge_of_rfc7636_verifier :
  OneDriveOAuthService.generateCodeChallenge
    "dBjftJeZ4CVP-mB92K27uhbUJU1p1r_wW1gFWFOEjXk"
  = "E9Melhoa2OwvFrEMTJguCHaoeK1t8URWbuGJSstw-cM".
Proof. vm_compute. reflexivity. Qed.

(** C6.  For every service object and every output of the random source,
    the URL [getAuthUrlWithPKCE] returns has the query parameter
    [code_challenge_method=S256], and its [code_challenge] parameter is
    the RFC 4648 base64url encoding, without padding, of the SHA-256
    digest of the UTF-8 bytes of the verifier returned by the same
    call. *)
Theorem auth_url_carries_S256_challenge
    (this : OneDriveOAuthService.t) (rnd : RandomSource) :
  let r := OneDriveOAuthService.getAuthUrlWithPKCE this rnd in
  let params := URL.searchParams (OneDriveOAuthService.authUrl r) in
  URLSearchParams.get params "code_challenge_method" = Some "S256"
  /\ URLSearchParams.get params "code_challenge"
     = Some (Base64.rfc4648_base64url_nopad
               (SHA256.digest (Str.encode_utf8 (OneDriveOAuthService.codeVerifier r)))).
Proof.
  cbv zeta. unfold OneDriveOAuthService.getAuthUrlWithPKCE.
  cbn [OneDriveOAuthService.authUrl OneDriveOAuthService.codeVerifier].
  rewrite searchParams_of_toString by reflexivity.
  unfold OneDriveOAuthService.generateCodeChallenge.
  rewrite base64URLEncode_rfc4648.
  split; reflexivity.
Qed.





(** ** [ProfileManager.deleteProfile] *)

Lemma profile_key_not_active (profileId : string) :
  ProfileManager.STORAGE_KEY_PREFIX +:+ profileId <> ProfileManager.ACTIVE_PROFILE_KEY.
Proof. cbv [ProfileManager.STORAGE_KEY_PREFIX ProfileManager.ACTIVE_PROFILE_KEY String.append]. discriminate. Qed.

Lemma str_app_inj_r (p s t : string) : p +:+ s = p +:+ t -> s = t.
Proof.
  induction p as [|c p IH]; [now rewrite !str_app_nil_l|].
  rewrite !str_app_cons. intros [= H]. now apply IH.
Qed.

Lemma same_str_true (o : option string) (s : string) :
  same_str o s = true <-> o = Some s.
Proof.
  destruct o as [t|]; simpl; [|split; discriminate].
  rewrite String.eqb_eq. split; [now intros -> | now intros [= ->]].
Qed.

(** C10.  After [deleteProfile(id)] the active-profile key does not hold
    [id]: it is cleared when it held [id] and untouched otherwise; the
    record of [id] is gone; and [getActiveProfile()] returns [null] or
    the profile of another id, read from a record that is still
    stored. *)
Theorem deleteProfile_active_pointer (ls : gmap string string) (profileId : string) :
  let ls' := ProfileManager.deleteProfile ls profileId in
  ProfileManager.getActiveProfileId ls' <> Some profileId
  /\ ProfileManager.getActiveProfileId ls'
     = (if same_str (ProfileManager.getActiveProfileId ls) profileId
        then None else ProfileManager.getActiveProfileId ls)
  /\ ProfileManager.getProfile ls' profileId = Js.Null
  /\ (ProfileManager.getActiveProfile ls' = Js.Null
      \/ exists other,
           ProfileManager.getActiveProfileId ls' = Some other
           /\ other <> profileId
           /\ Storage.getItem ls' (ProfileManager.STORAGE_KEY_PREFIX +:+ other)
              = Storage.getItem ls (ProfileManager.STORAGE_KEY_PREFIX +:+ other)
           /\ ProfileManager.getActiveProfile ls' = ProfileManager.getProfile ls other).
Proof.
  cbv zeta.
  pose proof (profile_key_not_active profileId) as Hkey.
  assert (Hact : ProfileManager.getActiveProfileId
                   (Storage.removeItem ls (ProfileManager.STORAGE_KEY_PREFIX +:+ profileId))
                 = ProfileManager.getActiveProfileId ls).
  { unfold ProfileManager.getActiveProfileId, Storage.getItem, Storage.removeItem.
    now rewrite lookup_delete_ne. }
  unfold ProfileManager.deleteProfile. rewrite Hact.
  assert (Hgone : forall m : gmap string string,
             ProfileManager.getProfile
               (Storage.removeItem m (ProfileManager.STORAGE_KEY_PREFIX +:+ profileId))
               profileId = Js.Null).
  { intros m. unfold ProfileManager.getProfile, Storage.getItem, Storage.removeItem.
    now rewrite lookup_delete_eq. }
  destruct (same_str (ProfileManager.getActiveProfileId ls) profileId) eqn:Hsame.
  - (* the deleted profile was the active one *)
    assert (Hnone : ProfileManager.getActiveProfileId
                      (ProfileManager.clearActiveProfile
                         (Storage.removeItem ls (ProfileManager.STORAGE_KEY_PREFIX +:+ profileId)))
                    = None).
    { unfold ProfileManager.getActiveProfileId, ProfileManager.clearActiveProfile,
        Storage.getItem, Storage.removeItem. apply lookup_delete_eq. }
    repeat split.
    + rewrite Hnone. discriminate.
    + exact Hnone.
    + unfold ProfileManager.getProfile, ProfileManager.clearActiveProfile,
        Storage.getItem, Storage.removeItem.
      rewrite lookup_delete_ne by (intros E; now apply Hkey).
      now rewrite lookup_delete_eq.
    + left. unfold ProfileManager.getActiveProfile. now rewrite Hnone.
  - repeat split.
    + rewrite Hact. intros E. apply same_str_true in E. congruence.
    + exact Hact.
    + apply Hgone.
    + unfold ProfileManager.getActiveProfile. rewrite Hact.
      destruct (ProfileManager.getActiveProfileId ls) as [other|] eqn:Hother; [|now left].
      destruct (truthy_str (Some other)); [|now left].
      right. exists other.
      assert (Hne : other <> profileId).
      { intros ->. rewrite (proj2 (same_str_true _ _) eq_refl) in Hsame. discriminate. }
      assert (Hrec : Storage.getItem
                       (Storage.removeItem ls (ProfileManager.STORAGE_KEY_PREFIX +:+ profileId))
                       (ProfileManager.STORAGE_KEY_PREFIX +:+ other)
                     = Storage.getItem ls (ProfileManager.STORAGE_KEY_PREFIX +:+ other)).
      { unfold Storage.getItem, Storage.removeItem. apply lookup_delete_ne.
        intros E. apply str_app_inj_r in E. congruence. }
      repeat split; [assumption | assumption |].
      cbn [negb]. unfold ProfileManager.getProfile. now rewrite Hrec.
Qed.

(** ** [JoplinApiService.connect] *)

Import Runtime.

Lemma get_of_object (eng : Js.Engine) (v : Js.value) (k : string) :
  Js.nullish v = false -> Js.get eng v k = Js.Normal (Js.prop v k).
Proof. intros H. unfold Js.get. now rewrite H. Qed.

(** [connect] needs at most one answer, that of [storage.init()]. *)
Lemma connect_completes (env : Env) (credentials : Js.value) (ans : Answer)
    (rest : list Answer) (w : World) :
  is_Some (run (JoplinApiService.connect env credentials) (ans :: rest) w).
Proof.
  unfold run, JoplinApiService.connect, JoplinApiService.connect_body,
    JoplinApiService.connect_catch, try_catch, bindE, bind, liftE, throwE, retE, ret, act, await.
  destruct (Js.get (engine env) credentials "type") as [type|e]; cbn.
  - destruct (JoplinApiService.known_type type) as [kind|]; cbn.
    + destruct (storage_new env (ticks w) kind _ _) as [h|e]; cbn.
      * destruct ans; cbn; eauto.
      * destruct (Js.get (engine env) credentials "type"); cbn; eauto.
    + destruct (Js.get (engine env) credentials "type"); cbn; eauto.
  - destruct (Js.get (engine env) credentials "type"); cbn; eauto.
Qed.

(** C9.  Whenever [connect(credentials)] fails, for every credentials
    value and whatever was connected before, the service is left
    disconnected: [storage] is [null] and [isInitialized()] answers
    [false]; and for a credentials object (a value that is not [null]
    or [undefined]) the error thrown is
    [Failed to connect to <type>: <cause>]. *)
Theorem connect_failure_leaves_disconnected
    (env : Env) (credentials : Js.value) (answers : list Answer)
    (w w' : World) (e : Js.Thrown) :
  run (JoplinApiService.connect env credentials) answers w = Some (w', Js.Throw e) ->
  storage (api w') = None
  /\ JoplinApiService.isInitialized (api w') = false
  /\ (Js.nullish credentials = false ->
      exists cause,
        e = Js.ErrorObj ("Failed to connect to "
                         +:+ Js.to_string (Js.prop credentials "type")
                         +:+ ": " +:+ cause)).
Proof.
  unfold run, JoplinApiService.connect, JoplinApiService.connect_body,
    JoplinApiService.connect_catch, try_catch, bindE, bind, liftE, throwE, retE, ret, act, await.
  unfold Js.get. destruct (Js.nullish credentials) eqn:Hobj; cbn.
  { intros [= <- <-]. cbn. repeat split. discriminate. }
  destruct (JoplinApiService.known_type (Js.prop credentials "type")) as [kind|]; cbn.
  - destruct (storage_new env (ticks w) kind _ _) as [h|e0]; cbn.
    + destruct answers as [|ans rest]; cbn; [discriminate|].
      destruct ans; cbn; try discriminate.
      intros [= <- <-]. cbn. eauto.
    + intros [= <- <-]. cbn. eauto.
  - intros [= <- <-]. cbn. eauto.
Qed.

Lemma connect_failure_witness :
  exists w' e,
    run (JoplinApiService.connect Examples.env_broken
           (Credentials.to_js Examples.filesystem_credentials)) []
      Examples.world0 = Some (w', Js.Throw e)
    /\ storage (api w') = None
    /\ JoplinApiService.isInitialized (api w') = false
    /\ exists cause,
         e = Js.ErrorObj ("Failed to connect to FileSystem: " +:+ cause).
Proof.
  eexists _, _. split; [vm_compute; reflexivity|].
  destruct (connect_failure_leaves_disconnected Examples.env_broken
              (Credentials.to_js Examples.filesystem_credentials) []
              Examples.world0 _ _ eq_refl) as (Hs & Hi & He).
  split; [exact Hs|]. split; [exact Hi|]. exact (He eq_refl).
Defined.

(** ** JSON: [parse] undoes [stringify] *)

(** *** String literals *)

Lemma read_pieces_escape_char (c : ascii) (r : string) :
  Js.read_pieces (Js.escape_char c +:+ r)
  = match Js.read_pieces r with
    | Some (ps, rest) => Some (piece_of c :: ps, rest)
    | None => None
    end.
Proof. each_byte c; reflexivity. Qed.

Lemma assemble_piece_of (c : ascii) (ps : list Js.piece) :
  Js.assemble (piece_of c :: ps) = String c (Js.assemble ps).
Proof. each_byte c; reflexivity. Qed.

Lemma read_pieces_escape (s rest : string) :
  Js.read_pieces (Js.escape s +:+ String "034" rest) = Some (pieces_of s, rest).
Proof.
  induction s as [|c s IH]; [reflexivity|].
  cbn [Js.escape pieces_of]. rewrite str_app_assoc, read_pieces_escape_char.
  now rewrite IH.
Qed.

Lemma assemble_pieces_of (s : string) : Js.assemble (pieces_of s) = s.
Proof.
  induction s as [|c s IH]; [reflexivity|].
  cbn [pieces_of]. now rewrite assemble_piece_of, IH.
Qed.

(** Reading back a quoted string, after its opening quote. *)
Lemma read_string_quote (s rest : string) :
  Js.read_string (Js.escape s +:+ String "034" rest) = Some (s, rest).
Proof.
  unfold Js.read_string. now rewrite read_pieces_escape, assemble_pieces_of.
Qed.

Lemma quote_unfold (s rest : string) :
  Js.quote s +:+ rest = String "034" (Js.escape s +:+ String "034" rest).
Proof.
  unfold Js.quote. rewrite str_app_cons, str_app_assoc. reflexivity.
Qed.

(** *** Numbers *)

Lemma span_digits_all (r rest : string) :
  Str.all Js.is_digit r = true -> delimited rest = true ->
  Js.span_digits (r +:+ rest) = (r, rest).
Proof.
  intros Hr Hd. induction r as [|c r IH].
  - rewrite str_app_nil_l. destruct rest as [|d rest]; [reflexivity|].
    cbn [delimited] in Hd. cbn [Js.span_digits].
    replace (Js.is_digit d) with false; [reflexivity|].
    each_byte d; try reflexivity; discriminate Hd.
  - cbn [Str.all] in Hr. apply andb_prop in Hr as [Hc Hr].
    rewrite str_app_cons. cbn [Js.span_digits]. rewrite Hc, (IH Hr). reflexivity.
Qed.

Lemma read_number_plain (lit rest : string) :
  plain_integer lit = true -> delimited rest = true ->
  Js.read_number (lit +:+ rest) = Some (lit, rest).
Proof.
  intros Hlit Hd. destruct lit as [|c r]; [discriminate|].
  cbn [plain_integer] in Hlit.
  apply andb_prop in Hlit as [Hlit Hzero]. apply andb_prop in Hlit as [Hc Hr].
  pose proof (span_digits_all r rest Hr Hd) as Hspan.
  rewrite str_app_cons.
  assert (Htail : forall int : string,
             String.eqb int EmptyString = false ->
             (if String.eqb int EmptyString then None
              else match match rest with
                         | String "." r0 =>
                             let '(ds, r') := Js.span_digits r0 in
                             if String.eqb ds EmptyString then None
                             else Some (String "." ds, r')
                         | _ => Some (EmptyString, rest)
                         end with
                   | None => None
                   | Some (fr, s3) =>
                       match match s3 with
                             | String e r0 =>
                                 if Ascii.eqb e "e" || Ascii.eqb e "E" then
                                   let '(sg, r1) := match r0 with
                                                    | String "+" t => ("+", t)
                                                    | String "-" t => ("-", t)
                                                    | _ => (EmptyString, r0)
                                                    end in
                                   let '(ds, r2) := Js.span_digits r1 in
                                   if String.eqb ds EmptyString then None
                                   else Some (String e (sg +:+ ds), r2)
                                 else Some (EmptyString, s3)
                             | EmptyString => Some (EmptyString, s3)
                             end with
                       | None => None
                       | Some (ex, s4) => Some (EmptyString +:+ int +:+ fr +:+ ex, s4)
                       end
                   end) = Some (int, rest)).
  { intros int Hint. rewrite Hint.
    destruct rest as [|d rest'].
    - cbv beta iota. now rewrite str_app_nil_l, !str_app_nil_r.
    - cbn [delimited] in Hd.
      each_byte d; try discriminate Hd; cbn [Ascii.eqb Bool.eqb orb andb];
        now rewrite str_app_nil_l, !str_app_nil_r. }
  destruct (Ascii.eqb c "0") eqn:Hc0.
  - apply Ascii.eqb_eq in Hc0. subst c. cbn [negb orb] in Hzero.
    apply String.eqb_eq in Hzero. subst r. rewrite str_app_nil_l.
    unfold Js.read_number. apply (Htail "0"). reflexivity.
  - unfold Js.read_number.
    assert (Hsign : match String c (r +:+ rest) with
                    | String "-" r0 => ("-", r0)
                    | _ => (EmptyString, String c (r +:+ rest))
                    end = (EmptyString, String c (r +:+ rest))).
    { each_byte c; try reflexivity; discriminate Hc. }
    rewrite Hsign.
    assert (Hint : match String c (r +:+ rest) with
                   | String "0" r0 => ("0", r0)
                   | _ => Js.span_digits (String c (r +:+ rest))
                   end = (String c r, rest)).
    { transitivity (Js.span_digits (String c (r +:+ rest))).
      - each_byte c; try reflexivity; discriminate Hc0.
      - cbn [Js.span_digits]. now rewrite Hc, Hspan. }
    rewrite Hint. apply (Htail (String c r)). reflexivity.
Qed.

(** *** Values *)

(** Induction on a value with the hypothesis for every element and every
    property value. *)
Lemma value_nested_ind (P : Js.value -> Prop) :
  P Js.Undefined -> P Js.Null -> (forall b, P (Js.Bool b)) ->
  (forall lit, P (Js.Num lit)) -> (forall s, P (Js.Str s)) ->
  (forall elems extra, Forall P elems -> P (Js.Arr elems extra)) ->
  (forall props, Forall (fun kv => P (snd kv)) props -> P (Js.Obj props)) ->
  forall v, P v.
Proof.
  intros HU HN HB HNum HS HA HO.
  fix self 1. intros [| | b | lit | s | elems extra | props].
  - exact HU.
  - exact HN.
  - apply HB.
  - apply HNum.
  - apply HS.
  - apply HA. induction elems as [|e elems IH]; constructor; [apply self | exact IH].
  - apply HO. induction props as [|[k x] props IH]; constructor; [apply self | exact IH].
Qed.

Lemma stringify_arr (elems : list Js.value) extra :
  Js.stringify (Js.Arr elems extra)
  = Some ("[" +:+ Str.join "," (map slot_text elems) +:+ "]").
Proof.
  reflexivity.
Qed.

Lemma stringify_obj (props : list (string * Js.value)) :
  Js.stringify (Js.Obj props)
  = Some ("{" +:+ Str.join "," (members_text props) +:+ "}").
Proof.
  reflexivity.
Qed.

Lemma prune_obj (props : list (string * Js.value)) :
  prune (Js.Obj props)
  = Js.Obj (map (fun kv => (fst kv, prune (snd kv))) (kept props)).
Proof.
  cbn [prune]. f_equal.
  induction props as [|[k x] props IH]; [reflexivity|].
  cbn [kept]. destruct x; cbn [map fst snd]; now rewrite <- IH.
Qed.

Lemma stringify_defined (v : Js.value) :
  v <> Js.Undefined -> exists t, Js.stringify v = Some t.
Proof. destruct v; try (intros _; eexists; reflexivity). congruence. Qed.

Lemma stringify_opens (v : Js.value) (t : string) :
  printable v = true -> Js.stringify v = Some t -> opens t = true.
Proof.
  destruct v; try discriminate; intros Hp.
  - intros [= <-]. reflexivity.
  - destruct b; intros [= <-]; reflexivity.
  - intros [= <-]. cbn [printable] in Hp.
    destruct lit as [|c r]; [discriminate|]. cbn [plain_integer] in Hp.
    apply andb_prop in Hp as [Hp _]. apply andb_prop in Hp as [Hc _].
    cbn [opens]. rewrite Hc. now rewrite !orb_true_r.
  - intros [= <-]. reflexivity.
  - rewrite stringify_arr. intros [= <-]. reflexivity.
  - rewrite stringify_obj. intros [= <-]. reflexivity.
Qed.

Lemma skip_ws_stay (c : ascii) (r : string) :
  Js.is_ws c = false -> Js.skip_ws (String c r) = String c r.
Proof. intros H. cbn [Js.skip_ws]. now rewrite H. Qed.

Lemma parse_members_step (fuel : nat) (s : string) (acc : list (string * Js.value)) :
  Js.parse_members (S fuel) s acc
  = match Js.skip_ws s with
    | String "034" r =>
        match Js.read_string r with
        | Some (k, r1) =>
            match Js.skip_ws r1 with
            | String ":" r2 =>
                match Js.parse_value fuel r2 with
                | Js.Got v r3 =>
                    match Js.skip_ws r3 with
                    | String "," r4 => Js.parse_members fuel r4 (Js.define acc k v)
                    | String "}" r4 => Js.Got (Js.Obj (Js.define acc k v)) r4
                    | _ => Js.Bad
                    end
                | Js.Bad => Js.Bad
                | Js.Starved => Js.Starved
                end
            | _ => Js.Bad
            end
        | None => Js.Bad
        end
    | _ => Js.Bad
    end.
Proof. reflexivity. Qed.

Lemma parse_elements_step (fuel : nat) (s : string) (acc : list Js.value) :
  Js.parse_elements (S fuel) s acc
  = match Js.parse_value fuel s with
    | Js.Got v r1 =>
        match Js.skip_ws r1 with
        | String "," r2 => Js.parse_elements fuel r2 (acc ++ [v])%list
        | String "]" r2 => Js.Got (Js.Arr (acc ++ [v])%list []) r2
        | _ => Js.Bad
        end
    | Js.Bad => Js.Bad
    | Js.Starved => Js.Starved
    end.
Proof. reflexivity. Qed.

Lemma skip_ws_opens (t rest : string) :
  opens t = true -> Js.skip_ws (t +:+ rest) = t +:+ rest.
Proof.
  destruct t as [|c t]; [discriminate|]. cbn [opens]. rewrite str_app_cons.
  intros H. apply skip_ws_stay.
  each_byte c; try reflexivity; discriminate H.
Qed.

Lemma parse_null (fuel : nat) (rest : string) :
  1 <= fuel -> Js.parse_value fuel ("null" +:+ rest) = Js.Got Js.Null rest.
Proof. destruct fuel; [lia | reflexivity]. Qed.

Lemma define_fresh (acc : list (string * Js.value)) (k : string) (v : Js.value) :
  existsb (String.eqb k) (map fst acc) = false ->
  Js.define acc k v = (acc ++ [(k, v)])%list.
Proof.
  induction acc as [|[n w] acc IH]; [reflexivity|].
  cbn [map fst existsb Js.define]. intros [Hn Hacc]%orb_false_elim.
  rewrite String.eqb_sym in Hn. rewrite Hn. cbn [app]. now rewrite IH.
Qed.

Lemma distinct_app_cons (xs : list string) (k : string) (ys : list string) :
  distinct (xs ++ k :: ys) = true ->
  existsb (String.eqb k) xs = false /\ distinct ((xs ++ [k]) ++ ys) = true.
Proof.
  induction xs as [|x xs IH]; cbn [app distinct existsb]; intros H.
  - split; [reflexivity | exact H].
  - apply andb_prop in H as [Hx Hd]. destruct (IH Hd) as [Hk Hd'].
    rewrite existsb_app in Hx. cbn [existsb] in Hx.
    apply negb_true_iff in Hx.
    apply orb_false_elim in Hx as [Hx1 Hx2].
    apply orb_false_elim in Hx2 as [Hxk Hx2].
    split.
    + rewrite String.eqb_sym, Hxk, Hk. reflexivity.
    + rewrite Hd', andb_true_r. apply negb_true_iff.
      rewrite !existsb_app. cbn [existsb]. now rewrite Hx1, Hxk, Hx2.
Qed.

Lemma list_sum_cons (a : nat) (l : list nat) : list_sum (a :: l) = a + list_sum l.
Proof. reflexivity. Qed.

Lemma members_text_kept (props : list (string * Js.value)) :
  members_text props = map member_text (kept props).
Proof.
  induction props as [|[k x] props IH]; [reflexivity|].
  cbn [members_text kept]. destruct x; cbn [map]; rewrite <- IH; reflexivity.
Qed.

Lemma need_kept (props : list (string * Js.value)) :
  list_sum (map (fun kv => match kv with
                           | (_, Js.Undefined) => 0
                           | (_, x) => S (need x)
                           end) props)
  = list_sum (map (fun kv => S (need (snd kv))) (kept props)).
Proof.
  induction props as [|[k x] props IH]; [reflexivity|].
  cbn [map kept]. rewrite list_sum_cons, IH.
  destruct x; cbn [map snd]; rewrite ?list_sum_cons; reflexivity.
Qed.

Lemma kept_defined (props : list (string * Js.value)) :
  Forall (fun kv => snd kv <> Js.Undefined) (kept props).
Proof.
  induction props as [|[k x] props IH]; [constructor|].
  cbn [kept]. destruct x; try exact IH; constructor; try exact IH; discriminate.
Qed.

Lemma kept_forall (Q : Js.value -> Prop) (props : list (string * Js.value)) :
  Forall (fun kv => Q (snd kv)) props -> Forall (fun kv => Q (snd kv)) (kept props).
Proof.
  induction 1 as [|[k x] props Hx _ IH]; [constructor|].
  cbn [kept]. destruct x; try exact IH; constructor; assumption.
Qed.

Lemma kept_printable (props : list (string * Js.value)) :
  forallb (fun kv => match kv with
                     | (_, Js.Undefined) => true
                     | (_, x) => printable x
                     end) props = true ->
  Forall (fun kv => printable (snd kv) = true) (kept props).
Proof.
  induction props as [|[k x] props IH]; [constructor|].
  cbn [forallb kept]. intros [Hx Hr]%andb_prop.
  destruct x; try (apply IH, Hr); constructor; auto.
Qed.

(** The loop over the properties of an object. *)
Lemma members_loop (ms : list (string * Js.value)) :
  Forall (fun kv => snd kv <> Js.Undefined) ms ->
  Forall (fun kv => printable (snd kv) = true) ms ->
  Forall (fun kv => reads_back (snd kv)) ms ->
  ms <> [] ->
  forall acc fuel rest,
    distinct (map fst acc ++ map fst ms) = true ->
    list_sum (map (fun kv => S (need (snd kv))) ms) <= fuel ->
    Js.parse_members fuel (Str.join "," (map member_text ms) +:+ "}" +:+ rest) acc
    = Js.Got (Js.Obj (acc ++ map (fun kv => (fst kv, prune (snd kv))) ms)) rest.
Proof.
  induction ms as [|[k x] ms IH]; intros Hdef Hpr Hrb Hne acc fuel rest Hdist Hfuel;
    [congruence|].
  apply Forall_cons_1 in Hdef as [Hx Hdef].
  apply Forall_cons_1 in Hpr as [Hpx Hpr].
  apply Forall_cons_1 in Hrb as [Hrx Hrb].
  cbn [fst snd] in Hx, Hpx, Hrx.
  destruct (stringify_defined x Hx) as [t Ht].
  cbn [map snd] in Hfuel. rewrite list_sum_cons in Hfuel.
  destruct fuel as [|fuel]; [lia|].
  cbn [map fst] in Hdist. apply distinct_app_cons in Hdist as [Hfresh Hdist].
  assert (Hmember : forall tail,
             delimited tail = true ->
             Js.parse_members (S fuel) (member_text (k, x) +:+ tail) acc
             = match Js.skip_ws tail with
               | String "," r4 => Js.parse_members fuel r4 (acc ++ [(k, prune x)])
               | String "}" r4 => Js.Got (Js.Obj (acc ++ [(k, prune x)])) r4
               | _ => Js.Bad
               end).
  { intros tail Htail. unfold member_text, slot_text. cbn [fst snd]. rewrite Ht.
    rewrite !str_app_assoc, quote_unfold, parse_members_step.
    rewrite skip_ws_stay by reflexivity.
    rewrite read_string_quote.
    change (":" +:+ ?u) with (String ":" u).
    rewrite skip_ws_stay by reflexivity.
    rewrite (Hrx Hpx t Ht fuel tail) by (lia || assumption).
    now rewrite define_fresh. }
  destruct ms as [|m ms'].
  - cbn [map Str.join]. rewrite Hmember by reflexivity.
    change ("}" +:+ rest) with (String "}" rest).
    rewrite skip_ws_stay by reflexivity. reflexivity.
  - change (Str.join "," (map member_text ((k, x) :: m :: ms')))
      with (member_text (k, x) +:+ "," +:+ Str.join "," (map member_text (m :: ms'))).
    rewrite !str_app_assoc, Hmember by reflexivity.
    change ("," +:+ ?u) with (String "," u).
    rewrite skip_ws_stay by reflexivity.
    rewrite (IH Hdef Hpr Hrb ltac:(discriminate) (acc ++ [(k, prune x)])%list fuel rest).
    + now rewrite <- app_assoc.
    + rewrite map_app. exact Hdist.
    + lia.
Qed.

Lemma slot_text_opens (e : Js.value) :
  match e with Js.Undefined => true | _ => printable e end = true ->
  opens (slot_text e) = true.
Proof.
  intros H. unfold slot_text.
  destruct (Js.stringify e) as [t|] eqn:Ht; [|reflexivity].
  destruct e; try discriminate; eapply stringify_opens; eauto.
Qed.

Lemma parse_slot (e : Js.value) (fuel : nat) (rest : string) :
  match e with Js.Undefined => true | _ => printable e end = true ->
  reads_back e -> need e <= fuel -> delimited rest = true ->
  Js.parse_value fuel (slot_text e +:+ rest) = Js.Got (prune_slot e) rest.
Proof.
  intros Hp Hrb Hfuel Hrest. unfold slot_text.
  destruct (Js.stringify e) as [t|] eqn:Ht.
  - assert (Hp' : printable e = true) by (destruct e; solve [discriminate | exact Hp]).
    rewrite (Hrb Hp' t Ht fuel rest Hfuel Hrest).
    destruct e; solve [discriminate | reflexivity].
  - assert (He : e = Js.Undefined) by (destruct e; try discriminate; reflexivity).
    subst e. apply parse_null. cbn in Hfuel. lia.
Qed.

(** The loop over the elements of an array. *)
Lemma elements_loop (es : list Js.value) :
  Forall (fun e => match e with Js.Undefined => true | _ => printable e end = true) es ->
  Forall reads_back es ->
  es <> [] ->
  forall acc fuel rest,
    list_sum (map (fun e => S (need e)) es) <= fuel ->
    Js.parse_elements fuel (Str.join "," (map slot_text es) +:+ "]" +:+ rest) acc
    = Js.Got (Js.Arr (acc ++ map prune_slot es) []) rest.
Proof.
  induction es as [|e es IH]; intros Hpr Hrb Hne acc fuel rest Hfuel; [congruence|].
  apply Forall_cons_1 in Hpr as [Hpe Hpr].
  apply Forall_cons_1 in Hrb as [Hre Hrb].
  cbn [map] in Hfuel. rewrite list_sum_cons in Hfuel.
  destruct fuel as [|fuel]; [lia|].
  destruct es as [|e2 es'].
  - cbn [map Str.join]. rewrite parse_elements_step.
    rewrite (parse_slot e fuel _ Hpe Hre) by (reflexivity || (cbn in Hfuel; lia)).
    change ("]" +:+ rest) with (String "]" rest).
    rewrite skip_ws_stay by reflexivity. reflexivity.
  - change (Str.join "," (map slot_text (e :: e2 :: es')))
      with (slot_text e +:+ "," +:+ Str.join "," (map slot_text (e2 :: es'))).
    rewrite !str_app_assoc, parse_elements_step.
    rewrite (parse_slot e fuel _ Hpe Hre) by (reflexivity || lia).
    change ("," +:+ ?u) with (String "," u).
    rewrite skip_ws_stay by reflexivity.
    rewrite (IH Hpr Hrb ltac:(discriminate) (acc ++ [prune_slot e])%list fuel rest) by lia.
    now rewrite <- app_assoc.
Qed.

Lemma prune_arr (elems : list Js.value) extra :
  prune (Js.Arr elems extra) = Js.Arr (map prune_slot elems) [].
Proof. reflexivity. Qed.

Lemma need_arr (elems : list Js.value) extra :
  need (Js.Arr elems extra) = S (list_sum (map (fun e => S (need e)) elems)).
Proof. reflexivity. Qed.

Lemma need_obj (props : list (string * Js.value)) :
  need (Js.Obj props) = S (list_sum (map (fun kv => S (need (snd kv))) (kept props))).
Proof. cbn [need]. now rewrite need_kept. Qed.

(** Parsing the text of a printable value gives the value back, pruned,
    and leaves what follows the text. *)
Lemma parse_value_stringify (v : Js.value) : reads_back v.
Proof.
  induction v as [| | b | lit | s | elems extra IH | props IH] using value_nested_ind;
    unfold reads_back; intros Hp t Ht fuel rest Hfuel Hrest; try discriminate.
  - injection Ht as <-. now apply parse_null.
  - destruct fuel; [cbn in Hfuel; lia|].
    destruct b; injection Ht as <-; reflexivity.
  - (* numbers *)
    destruct fuel; [cbn in Hfuel; lia|].
    injection Ht as <-. cbn [printable] in Hp.
    pose proof (read_number_plain lit rest Hp Hrest) as Hnum.
    destruct lit as [|c r]; [discriminate|]. rewrite str_app_cons in Hnum |- *.
    cbn [plain_integer] in Hp.
    apply andb_prop in Hp as [Hp _]. apply andb_prop in Hp as [Hc _].
    cbn [Js.parse_value].
    rewrite skip_ws_stay by (each_byte c; try reflexivity; discriminate Hc).
    cbv beta iota.
    replace (Ascii.eqb c "{") with false
      by (each_byte c; try reflexivity; discriminate Hc).
    replace (Ascii.eqb c "[") with false
      by (each_byte c; try reflexivity; discriminate Hc).
    replace (Ascii.eqb c "034") with false
      by (each_byte c; try reflexivity; discriminate Hc).
    replace (Ascii.eqb c "t") with false
      by (each_byte c; try reflexivity; discriminate Hc).
    replace (Ascii.eqb c "f") with false
      by (each_byte c; try reflexivity; discriminate Hc).
    replace (Ascii.eqb c "n") with false
      by (each_byte c; try reflexivity; discriminate Hc).
    now rewrite Hnum.
  - destruct fuel; [cbn in Hfuel; lia|].
    injection Ht as <-. rewrite quote_unfold.
    cbn [Js.parse_value]. rewrite skip_ws_stay by reflexivity.
    cbv beta iota. replace (Ascii.eqb "034" "{") with false by reflexivity.
    replace (Ascii.eqb "034" "[") with false by reflexivity.
    replace (Ascii.eqb "034" "034") with true by reflexivity.
    now rewrite read_string_quote.
  - (* arrays *)
    rewrite stringify_arr in Ht. injection Ht as <-.
    rewrite need_arr in Hfuel. destruct fuel as [|fuel]; [lia|].
    rewrite prune_arr. cbn [printable] in Hp.
    rewrite forallb_forall in Hp.
    assert (Hslots : Forall (fun e => match e with
                                      | Js.Undefined => true
                                      | _ => printable e
                                      end = true) elems).
    { apply List.Forall_forall. exact Hp. }
    rewrite !str_app_assoc. change ("[" +:+ ?u) with (String "[" u).
    cbn [Js.parse_value]. rewrite skip_ws_stay by reflexivity.
    cbv beta iota. replace (Ascii.eqb "[" "{") with false by reflexivity.
    replace (Ascii.eqb "[" "[") with true by reflexivity.
    destruct elems as [|e elems].
    + cbn [map Str.join]. rewrite str_app_nil_l.
      change ("]" +:+ rest) with (String "]" rest).
      rewrite skip_ws_stay by reflexivity. reflexivity.
    + assert (Ho : opens (Str.join "," (map slot_text (e :: elems))) = true).
      { apply Forall_cons_1 in Hslots as [He _]. apply slot_text_opens in He.
        cbn [map]. destruct elems; cbn [map Str.join]; [exact He|].
        destruct (slot_text e); [discriminate | exact He]. }
      rewrite skip_ws_opens by exact Ho.
      rewrite (elements_loop (e :: elems) Hslots IH ltac:(discriminate) [] fuel rest)
        by lia.
      destruct (Str.join "," (map slot_text (e :: elems))) as [|c u] eqn:Hj;
        [discriminate|].
      rewrite str_app_cons. cbn [opens] in Ho.
      each_byte c; try reflexivity; discriminate Ho.
  - (* objects *)
    rewrite stringify_obj in Ht. injection Ht as <-.
    rewrite need_obj in Hfuel. destruct fuel as [|fuel]; [lia|].
    rewrite prune_obj, members_text_kept.
    cbn [printable] in Hp. apply andb_prop in Hp as [Hdist Hvals].
    rewrite !str_app_assoc. change ("{" +:+ ?u) with (String "{" u).
    cbn [Js.parse_value]. rewrite skip_ws_stay by reflexivity.
    cbv beta iota. replace (Ascii.eqb "{" "{") with true by reflexivity.
    destruct (kept props) as [|m ms] eqn:Hk.
    + cbn [map Str.join]. rewrite str_app_nil_l.
      change ("}" +:+ rest) with (String "}" rest).
      rewrite skip_ws_stay by reflexivity. reflexivity.
    + assert (Hstart : exists u, Str.join "," (map member_text (m :: ms))
                                 = String "034" u).
      { cbn [map]. unfold member_text at 1. unfold Js.quote.
        destruct ms; cbn [map Str.join]; rewrite ?str_app_cons; eauto. }
      destruct Hstart as [u Hu].
      pose proof (members_loop (m :: ms)) as Hloop.
      rewrite <- Hk in Hloop at 1 2 3.
      specialize (Hloop (kept_defined props) (kept_printable props Hvals)
                    (kept_forall _ props IH) ltac:(discriminate) [] fuel rest).
      cbn [app] in Hloop. specialize (Hloop Hdist ltac:(lia)).
      rewrite Hu in Hloop |- *. rewrite str_app_cons in Hloop |- *.
      rewrite skip_ws_stay by reflexivity. exact Hloop.
Qed.

(** *** Enough fuel *)

Lemma join_length_bound (l : list string) :
  list_sum (map (fun x => S (String.length x)) l)
  <= S (String.length (Str.join "," l)).
Proof.
  induction l as [|x [|y r] IH].
  - cbn. lia.
  - cbn [map Str.join]. rewrite list_sum_cons.
    change (list_sum []) with 0. lia.
  - change (Str.join "," (x :: y :: r)) with (x +:+ "," +:+ Str.join "," (y :: r)).
    set (J := Str.join "," (y :: r)) in *.
    set (rest := map (fun x => S (String.length x)) (y :: r)) in *.
    change (map (fun x => S (String.length x)) (x :: y :: r))
      with (S (String.length x) :: rest).
    rewrite list_sum_cons, !str_length_app.
    change (String.length ",") with 1. lia.
Qed.

Lemma list_sum_le (A : Type) (f g : A -> nat) (l : list A) :
  Forall (fun x => f x <= g x) l -> list_sum (map f l) <= list_sum (map g l).
Proof.
  induction 1 as [|x l Hx _ IH]; [reflexivity|].
  cbn [map]. rewrite !list_sum_cons. lia.
Qed.

Lemma need_le_length (v : Js.value) :
  printable v = true -> forall t, Js.stringify v = Some t -> need v <= String.length t.
Proof.
  induction v as [| | b | lit | s | elems extra IH | props IH] using value_nested_ind;
    intros Hp t Ht; try discriminate.
  - injection Ht as <-. cbn. lia.
  - destruct b; injection Ht as <-; cbn; lia.
  - injection Ht as <-. destruct lit; [discriminate|]. cbn. lia.
  - injection Ht as <-. unfold Js.quote. cbn [need String.length]. lia.
  - rewrite stringify_arr in Ht. injection Ht as <-. rewrite need_arr.
    rewrite !str_length_app. cbn [String.length].
    pose proof (join_length_bound (map slot_text elems)) as Hj.
    rewrite map_map in Hj.
    enough (list_sum (map (fun e => S (need e)) elems)
            <= list_sum (map (fun x => S (String.length (slot_text x))) elems)) by lia.
    apply list_sum_le.
    cbn [printable] in Hp. rewrite forallb_forall in Hp.
    apply List.Forall_forall. intros e He.
    rewrite List.Forall_forall in IH. specialize (IH e He). specialize (Hp e He).
    unfold slot_text. destruct (Js.stringify e) as [te|] eqn:Hte.
    + assert (printable e = true) by (destruct e; solve [discriminate | exact Hp]).
      specialize (IH H te eq_refl). lia.
    + destruct e; try discriminate. cbn. lia.
  - rewrite stringify_obj in Ht. injection Ht as <-. rewrite need_obj.
    rewrite members_text_kept, !str_length_app. cbn [String.length].
    pose proof (join_length_bound (map member_text (kept props))) as Hj.
    rewrite map_map in Hj.
    enough (list_sum (map (fun kv => S (need (snd kv))) (kept props))
            <= list_sum (map (fun x => S (String.length (member_text x))) (kept props)))
      by lia.
    apply list_sum_le.
    cbn [printable] in Hp. apply andb_prop in Hp as [_ Hvals].
    pose proof (kept_printable props Hvals) as Hpr.
    pose proof (kept_forall
                  (fun x => printable x = true ->
                            forall t, Js.stringify x = Some t -> need x <= String.length t)
                  props IH) as Hrb.
    pose proof (kept_defined props) as Hdef.
    rewrite List.Forall_forall in Hpr, Hrb, Hdef |- *.
    intros kv Hkv. specialize (Hpr kv Hkv). specialize (Hrb kv Hkv).
    specialize (Hdef kv Hkv).
    destruct (stringify_defined _ Hdef) as [tx Htx].
    specialize (Hrb Hpr tx Htx).
    unfold member_text, slot_text. rewrite Htx, !str_length_app. lia.
Qed.

(** [JSON.parse(JSON.stringify(v))] for a printable [v]. *)
Lemma parse_stringify (v : Js.value) (t : string) :
  printable v = true -> Js.stringify v = Some t -> Js.parse t = Some (prune v).
Proof.
  intros Hp Ht. unfold Js.parse.
  pose proof (need_le_length v Hp t Ht) as Hneed.
  pose proof (parse_value_stringify v Hp t Ht (2 + String.length t) EmptyString
                ltac:(lia) eq_refl) as Hparse.
  rewrite str_app_nil_r in Hparse. now rewrite Hparse.
Qed.

(** *** What the text of an object parses to *)

Ltac split_match H :=
  repeat match type of H with
         | context [match ?x with _ => _ end] =>
             let E := fresh "E" in destruct x eqn:E; try discriminate H
         end.

Lemma parse_members_shape (fuel : nat) :
  forall s acc v rest,
    Js.parse_members fuel s acc = Js.Got v rest -> exists props, v = Js.Obj props.
Proof.
  induction fuel as [|fuel IH]; intros s acc v rest H; [discriminate|].
  rewrite parse_members_step in H. split_match H.
  - injection H as <- _. eauto.
  - eapply IH; eauto.
Qed.

(** A text that starts with a brace parses to an object, if it parses. *)
Lemma parse_brace (r : string) (v : Js.value) :
  Js.parse (String "{" r) = Some v -> exists props, v = Js.Obj props.
Proof.
  unfold Js.parse. cbn [String.length Nat.add Js.parse_value].
  rewrite skip_ws_stay by reflexivity. cbv beta iota.
  replace (Ascii.eqb "{" "{") with true by reflexivity.
  intros H. split_match H. injection H as <-.
  match goal with E : _ = Js.Got _ _ |- _ => rename E into Hv end.
  split_match Hv;
    solve [eapply parse_members_shape; eauto | injection Hv as <- _; eauto].
Qed.

(** *** The fuel [parse] gives is enough *)

Lemma skip_ws_length (s : string) : String.length (Js.skip_ws s) <= String.length s.
Proof.
  induction s as [|c r IH]; [reflexivity|]. cbn [Js.skip_ws].
  destruct (Js.is_ws c); cbn [String.length]; lia.
Qed.

Lemma read_pieces_length (s : string) :
  forall ps rest, Js.read_pieces s = Some (ps, rest) ->
                  String.length rest < String.length s.
Proof.
  remember (String.length s) as n eqn:Hn. revert s Hn.
  induction n as [n IH] using lt_wf_ind. intros s Hn ps rest H.
  destruct s as [|c r]; [discriminate|]. cbn [Js.read_pieces] in H.
  cbn [String.length] in Hn.
  destruct (Ascii.eqb c "034"); [injection H as _ <-; lia|].
  destruct (Ascii.eqb c "\").
  - destruct r as [|e r1]; [discriminate|].
    destruct (Ascii.eqb e "u").
    + destruct r1 as [|h1 [|h2 [|h3 [|h4 r2]]]]; try discriminate.
      destruct (Js.hex4 h1 h2 h3 h4); [|discriminate].
      destruct (Js.read_pieces r2) as [[ps' rest']|] eqn:Hr; [|discriminate].
      injection H as _ <-.
      cbn [String.length] in Hn.
      pose proof (IH (String.length r2) ltac:(lia) r2 eq_refl _ _ Hr). lia.
    + destruct (Js.simple_escape e); [|discriminate].
      destruct (Js.read_pieces r1) as [[ps' rest']|] eqn:Hr; [|discriminate].
      injection H as _ <-.
      cbn [String.length] in Hn.
      pose proof (IH (String.length r1) ltac:(lia) r1 eq_refl _ _ Hr). lia.
  - destruct (N_of_ascii c <? 32)%N; [discriminate|].
    destruct (Js.read_pieces r) as [[ps' rest']|] eqn:Hr; [|discriminate].
    injection H as _ <-.
    pose proof (IH (String.length r) ltac:(lia) r eq_refl _ _ Hr). lia.
Qed.

Lemma read_string_length (s t rest : string) :
  Js.read_string s = Some (t, rest) -> String.length rest < String.length s.
Proof.
  unfold Js.read_string. destruct (Js.read_pieces s) as [[ps r]|] eqn:H; [|discriminate].
  intros [= _ <-]. eapply read_pieces_length; eauto.
Qed.

Lemma expect_length (word s rest : string) :
  Js.expect word s = Some rest -> String.length rest <= String.length s.
Proof.
  revert s. induction word as [|c w IH]; intros s H; cbn [Js.expect] in H.
  - injection H as <-. lia.
  - destruct s as [|d r]; [discriminate|]. destruct (Ascii.eqb c d); [|discriminate].
    apply IH in H. cbn [String.length]. lia.
Qed.

Lemma span_digits_length (s : string) :
  String.length s
  = String.length (fst (Js.span_digits s)) + String.length (snd (Js.span_digits s)).
Proof.
  induction s as [|c r IH]; [reflexivity|]. cbn [Js.span_digits].
  destruct (Js.is_digit c); cbn [fst snd String.length]; lia.
Qed.

Lemma span_digits_rest (s : string) :
  String.length (snd (Js.span_digits s)) <= String.length s.
Proof. pose proof (span_digits_length s). lia. Qed.

Lemma read_number_length (s lit rest : string) :
  Js.read_number s = Some (lit, rest) -> String.length rest < String.length s.
Proof.
  unfold Js.read_number. intros H.
  destruct (match s with String "-" r => ("-", r) | _ => (EmptyString, s) end)
    as [sign s1] eqn:Hsign.
  assert (H1 : String.length s1 <= String.length s).
  { clear H. split_match Hsign; injection Hsign as _ <-; cbn [String.length]; lia. }
  destruct (match s1 with String "0" r => ("0", r) | _ => Js.span_digits s1 end)
    as [int s2] eqn:Hint.
  assert (H2 : String.length s1 = String.length int + String.length s2).
  { clear H. pose proof (span_digits_length s1) as Hs.
    split_match Hint;
      try (rewrite Hint in Hs; cbn [fst snd] in Hs; exact Hs);
      injection Hint as <- <-; reflexivity. }
  destruct (String.eqb_spec int EmptyString) as [|Hne]; [discriminate|].
  assert (H0 : 0 < String.length int) by (destruct int; [now elim Hne | cbn; lia]).
  destruct (match s2 with
            | String "." r =>
                let '(ds, r') := Js.span_digits r in
                if String.eqb ds EmptyString then None else Some (String "." ds, r')
            | _ => Some (EmptyString, s2)
            end) as [[fr s3]|] eqn:Hfr; [|discriminate].
  assert (H3 : String.length s3 <= String.length s2).
  { clear H. split_match Hfr;
      try (injection Hfr as _ <-; cbn [String.length]; lia).
    injection Hfr as _ <-.
    match goal with
    | E : Js.span_digits ?r = (_, _) |- _ =>
        pose proof (span_digits_rest r) as Hs; rewrite E in Hs; cbn [snd] in Hs
    end.
    cbn [String.length]. lia. }
  destruct (match s3 with
            | String e r =>
                if Ascii.eqb e "e" || Ascii.eqb e "E" then
                  let '(sg, r1) := match r with
                                   | String "+" t => ("+", t)
                                   | String "-" t => ("-", t)
                                   | _ => (EmptyString, r)
                                   end in
                  let '(ds, r2) := Js.span_digits r1 in
                  if String.eqb ds EmptyString then None
                  else Some (String e (sg +:+ ds), r2)
                else Some (EmptyString, s3)
            | EmptyString => Some (EmptyString, s3)
            end) as [[ex s4]|] eqn:Hex; [|discriminate].
  assert (H4 : String.length s4 <= String.length s3).
  { clear H. destruct s3 as [|e r]; [injection Hex as _ <-; lia|].
    destruct (Ascii.eqb e "e" || Ascii.eqb e "E"); [|injection Hex as _ <-; lia].
    destruct (match r with
              | String "+" t => ("+", t)
              | String "-" t => ("-", t)
              | _ => (EmptyString, r)
              end) as [sg r1] eqn:Hsg.
    assert (String.length r1 <= String.length r).
    { split_match Hsg; injection Hsg as _ <-; cbn [String.length]; lia. }
    destruct (Js.span_digits r1) as [ds r2] eqn:Hds.
    pose proof (span_digits_rest r1) as Hs. rewrite Hds in Hs. cbn [snd] in Hs.
    destruct (String.eqb ds EmptyString); [discriminate|].
    injection Hex as _ <-. cbn [String.length]. lia. }
  injection H as _ <-. lia.
Qed.

Lemma parse_value_step (fuel : nat) (s : string) :
  Js.parse_value (S fuel) s
  = match Js.skip_ws s with
    | EmptyString => Js.Bad
    | String c r =>
        if Ascii.eqb c "{" then
          match Js.skip_ws r with
          | String "}" r' => Js.Got (Js.Obj []) r'
          | _ => Js.parse_members fuel r []
          end
        else if Ascii.eqb c "[" then
          match Js.skip_ws r with
          | String "]" r' => Js.Got (Js.Arr [] []) r'
          | _ => Js.parse_elements fuel r []
          end
        else if Ascii.eqb c "034" then
          match Js.read_string r with
          | Some (t, rest) => Js.Got (Js.Str t) rest
          | None => Js.Bad
          end
        else if Ascii.eqb c "t" then
          match Js.expect "rue" r with
          | Some rest => Js.Got (Js.Bool true) rest
          | None => Js.Bad
          end
        else if Ascii.eqb c "f" then
          match Js.expect "alse" r with
          | Some rest => Js.Got (Js.Bool false) rest
          | None => Js.Bad
          end
        else if Ascii.eqb c "n" then
          match Js.expect "ull" r with
          | Some rest => Js.Got Js.Null rest
          | None => Js.Bad
          end
        else
          match Js.read_number (String c r) with
          | Some (lit, rest) => Js.Got (Js.Num lit) rest
          | None => Js.Bad
          end
    end.
Proof. reflexivity. Qed.

(** Collects what the equations in the context say about lengths. *)
Ltac length_facts :=
  repeat match goal with
         | E : Js.skip_ws ?a = ?b |- _ =>
             lazymatch goal with
             | _ : String.length b <= String.length a |- _ => fail
             | _ => let L := fresh "L" in
                    pose proof (skip_ws_length a) as L; rewrite E in L
             end
         | E : Js.read_string ?a = Some (_, ?b) |- _ =>
             lazymatch goal with
             | _ : String.length b < String.length a |- _ => fail
             | _ => pose proof (read_string_length _ _ _ E)
             end
         | E : Js.expect _ ?a = Some ?b |- _ =>
             lazymatch goal with
             | _ : String.length b <= String.length a |- _ => fail
             | _ => pose proof (expect_length _ _ _ E)
             end
         | E : Js.read_number ?a = Some (_, ?b) |- _ =>
             lazymatch goal with
             | _ : String.length b < String.length a |- _ => fail
             | _ => pose proof (read_number_length _ _ _ E)
             end
         end;
  cbn [String.length] in *.

(** Every successful call has consumed at least one character. *)
Lemma parse_consumes (fuel : nat) :
  (forall s v r, Js.parse_value fuel s = Js.Got v r ->
                 String.length r < String.length s)
  /\ (forall s acc v r, Js.parse_members fuel s acc = Js.Got v r ->
                        String.length r < String.length s)
  /\ (forall s acc v r, Js.parse_elements fuel s acc = Js.Got v r ->
                        String.length r < String.length s).
Proof.
  induction fuel as [|fuel (IHv & IHm & IHe)]; [repeat split; discriminate|].
  split; [|split].
  - intros s v r H. rewrite parse_value_step in H.
    destruct (Js.skip_ws s) as [|c r0] eqn:E0; [discriminate|].
    destruct (Ascii.eqb c "{").
    { destruct (Js.skip_ws r0) as [|d r1] eqn:E1.
      - apply IHm in H. length_facts. lia.
      - split_match H; try (apply IHm in H; length_facts; lia).
        injection H as _ <-. length_facts. lia. }
    destruct (Ascii.eqb c "[").
    { destruct (Js.skip_ws r0) as [|d r1] eqn:E1.
      - apply IHe in H. length_facts. lia.
      - split_match H; try (apply IHe in H; length_facts; lia).
        injection H as _ <-. length_facts. lia. }
    destruct (Ascii.eqb c "034").
    { destruct (Js.read_string r0) as [[t rest]|] eqn:E1; [|discriminate].
      injection H as _ <-. length_facts. lia. }
    destruct (Ascii.eqb c "t").
    { destruct (Js.expect "rue" r0) as [rest|] eqn:E1; [|discriminate].
      injection H as _ <-. length_facts. lia. }
    destruct (Ascii.eqb c "f").
    { destruct (Js.expect "alse" r0) as [rest|] eqn:E1; [|discriminate].
      injection H as _ <-. length_facts. lia. }
    destruct (Ascii.eqb c "n").
    { destruct (Js.expect "ull" r0) as [rest|] eqn:E1; [|discriminate].
      injection H as _ <-. length_facts. lia. }
    destruct (Js.read_number (String c r0)) as [[lit rest]|] eqn:E1; [|discriminate].
    injection H as _ <-. length_facts. lia.
  - intros s acc v r H. rewrite parse_members_step in H.
    destruct (Js.skip_ws s) as [|c r0] eqn:E0; [discriminate|].
    destruct (Ascii.eqb c "034") eqn:Ec.
    2:{ exfalso. clear -H Ec. each_byte c; try discriminate H; discriminate Ec. }
    assert (Hq : c = "034"%char) by (now apply Ascii.eqb_eq). subst c.
    destruct (Js.read_string r0) as [[k r1]|] eqn:E1; [|discriminate].
    destruct (Js.skip_ws r1) as [|c2 r2] eqn:E2; [discriminate|].
    destruct (Ascii.eqb c2 ":") eqn:Ec2.
    2:{ exfalso. clear -H Ec2. each_byte c2; try discriminate H; discriminate Ec2. }
    assert (Hq : c2 = ":"%char) by (now apply Ascii.eqb_eq). subst c2.
    destruct (Js.parse_value fuel r2) as [v0 r3| |] eqn:E3; try discriminate.
    apply IHv in E3.
    destruct (Js.skip_ws r3) as [|c4 r4] eqn:E4; [discriminate|].
    destruct (Ascii.eqb c4 ",") eqn:Ec4.
    { apply Ascii.eqb_eq in Ec4. subst c4. apply IHm in H. length_facts. lia. }
    destruct (Ascii.eqb c4 "}") eqn:Ec5.
    { apply Ascii.eqb_eq in Ec5. subst c4. injection H as _ <-. length_facts. lia. }
    exfalso. clear -H Ec4 Ec5. each_byte c4; try discriminate H; discriminate.
  - intros s acc v r H. rewrite parse_elements_step in H.
    destruct (Js.parse_value fuel s) as [v0 r1| |] eqn:E1; try discriminate.
    apply IHv in E1.
    destruct (Js.skip_ws r1) as [|c2 r2] eqn:E2; [discriminate|].
    destruct (Ascii.eqb c2 ",") eqn:Ec4.
    { apply Ascii.eqb_eq in Ec4. subst c2. apply IHe in H. length_facts. lia. }
    destruct (Ascii.eqb c2 "]") eqn:Ec5.
    { apply Ascii.eqb_eq in Ec5. subst c2. injection H as _ <-. length_facts. lia. }
    exfalso. clear -H Ec4 Ec5. each_byte c2; try discriminate H; discriminate.
Qed.

(** A successful call succeeds, with the same result, on any fuel that
    is at least the number of characters it consumed. *)
Lemma parse_enough (fuel : nat) :
  (forall s v r, Js.parse_value fuel s = Js.Got v r ->
     forall fuel', String.length s - String.length r <= fuel' ->
                   Js.parse_value fuel' s = Js.Got v r)
  /\ (forall s acc v r, Js.parse_members fuel s acc = Js.Got v r ->
        forall fuel', String.length s - String.length r <= fuel' ->
                      Js.parse_members fuel' s acc = Js.Got v r)
  /\ (forall s acc v r, Js.parse_elements fuel s acc = Js.Got v r ->
        forall fuel', String.length s - String.length r <= fuel' ->
                      Js.parse_elements fuel' s acc = Js.Got v r).
Proof.
  induction fuel as [|fuel (IHv & IHm & IHe)]; [repeat split; discriminate|].
  destruct (parse_consumes fuel) as (Cv & Cm & Ce).
  destruct (parse_consumes (S fuel)) as (Cv' & Cm' & Ce').
  split; [|split].
  - intros s v r H fuel' Hf. pose proof (Cv' _ _ _ H) as Hc.
    destruct fuel' as [|fuel']; [lia|].
    rewrite parse_value_step in H |- *.
    destruct (Js.skip_ws s) as [|c r0] eqn:E0; [discriminate|].
    destruct (Ascii.eqb c "{").
    { destruct (Js.skip_ws r0) as [|d r1] eqn:E1.
      - apply (IHm _ _ _ _ H). length_facts. lia.
      - split_match H; try exact H; apply (IHm _ _ _ _ H); length_facts; lia. }
    destruct (Ascii.eqb c "[").
    { destruct (Js.skip_ws r0) as [|d r1] eqn:E1.
      - apply (IHe _ _ _ _ H). length_facts. lia.
      - split_match H; try exact H; apply (IHe _ _ _ _ H); length_facts; lia. }
    exact H.
  - intros s acc v r H fuel' Hf. pose proof (Cm' _ _ _ _ H) as Hc.
    destruct fuel' as [|fuel']; [lia|].
    rewrite parse_members_step in H |- *.
    destruct (Js.skip_ws s) as [|c r0] eqn:E0; [discriminate|].
    destruct (Ascii.eqb c "034") eqn:Ec.
    2:{ exfalso. clear -H Ec. each_byte c; try discriminate H; discriminate Ec. }
    assert (Hq : c = "034"%char) by (now apply Ascii.eqb_eq). subst c.
    destruct (Js.read_string r0) as [[k r1]|] eqn:E1; [|discriminate].
    destruct (Js.skip_ws r1) as [|c2 r2] eqn:E2; [discriminate|].
    destruct (Ascii.eqb c2 ":") eqn:Ec2.
    2:{ exfalso. clear -H Ec2. each_byte c2; try discriminate H; discriminate Ec2. }
    assert (Hq : c2 = ":"%char) by (now apply Ascii.eqb_eq). subst c2.
    destruct (Js.parse_value fuel r2) as [v0 r3| |] eqn:E3; try discriminate.
    pose proof (Cv _ _ _ E3) as C3.
    destruct (Js.skip_ws r3) as [|c4 r4] eqn:E4; [discriminate|].
    destruct (Ascii.eqb c4 ",") eqn:Ec4.
    { apply Ascii.eqb_eq in Ec4. subst c4. pose proof (Cm _ _ _ _ H) as C4.
      rewrite (IHv _ _ _ E3 fuel') by (length_facts; lia).
      rewrite E4. apply (IHm _ _ _ _ H). length_facts. lia. }
    destruct (Ascii.eqb c4 "}") eqn:Ec5.
    { apply Ascii.eqb_eq in Ec5. subst c4.
      rewrite (IHv _ _ _ E3 fuel')
        by (injection H as _ <-; length_facts; lia).
      rewrite E4. exact H. }
    exfalso. clear -H Ec4 Ec5. each_byte c4; try discriminate H; discriminate.
  - intros s acc v r H fuel' Hf. pose proof (Ce' _ _ _ _ H) as Hc.
    destruct fuel' as [|fuel']; [lia|].
    rewrite parse_elements_step in H |- *.
    destruct (Js.parse_value fuel s) as [v0 r1| |] eqn:E1; try discriminate.
    pose proof (Cv _ _ _ E1) as C1.
    destruct (Js.skip_ws r1) as [|c2 r2] eqn:E2; [discriminate|].
    destruct (Ascii.eqb c2 ",") eqn:Ec4.
    { apply Ascii.eqb_eq in Ec4. subst c2. pose proof (Ce _ _ _ _ H) as C4.
      rewrite (IHv _ _ _ E1 fuel') by (length_facts; lia).
      rewrite E2. apply (IHe _ _ _ _ H). length_facts. lia. }
    destruct (Ascii.eqb c2 "]") eqn:Ec5.
    { apply Ascii.eqb_eq in Ec5. subst c2.
      rewrite (IHv _ _ _ E1 fuel')
        by (injection H as _ <-; length_facts; lia).
      rewrite E2. exact H. }
    exfalso. clear -H Ec4 Ec5. each_byte c2; try discriminate H; discriminate.
Qed.

(** [parse] answers as the recursive descent does with any amount of
    fuel: what is read with some fuel is read with the fuel [parse]
    gives. *)
Lemma parse_fuel_enough (fuel : nat) (text : string) (v : Js.value) (rest : string) :
  Js.parse_value fuel text = Js.Got v rest ->
  Js.skip_ws rest = EmptyString ->
  Js.parse text = Some v.
Proof.
  intros H Hrest. unfold Js.parse.
  rewrite (proj1 (parse_enough fuel) _ _ _ H (2 + String.length text)) by lia.
  now rewrite Hrest.
Qed.

(** ** The pending credentials survive the reload *)

Lemma lookup_absent (props : list (string * Js.value)) (k : string) :
  existsb (String.eqb k) (map fst props) = false -> Js.lookup props k = None.
Proof.
  induction props as [|[n x] props IH]; [reflexivity|].
  cbn [map fst existsb Js.lookup]. intros [Hn Hr]%orb_false_elim.
  rewrite String.eqb_sym in Hn. rewrite Hn. now apply IH.
Qed.

Lemma lookup_pruned_absent (props : list (string * Js.value)) (k : string) :
  existsb (String.eqb k) (map fst props) = false ->
  Js.lookup (map (fun kv => (fst kv, prune (snd kv))) (kept props)) k = None.
Proof.
  induction props as [|[n x] props IH]; [reflexivity|].
  cbn [map fst existsb kept]. intros [Hn Hr]%orb_false_elim.
  rewrite String.eqb_sym in Hn.
  destruct x; cbn [map fst snd Js.lookup]; rewrite ?Hn; now apply IH.
Qed.

(** Reading a property of a pruned object: as before, but pruned. *)
Lemma field_prune (props : list (string * Js.value)) (k : string) :
  distinct (map fst props) = true ->
  Credentials.field (prune (Js.Obj props)) k
  = match Js.lookup props k with
    | Some x => prune x
    | None => Js.Undefined
    end.
Proof.
  rewrite prune_obj. cbn [Credentials.field].
  induction props as [|[n x] props IH]; [reflexivity|].
  cbn [map fst distinct kept Js.lookup]. intros [Hn Hd]%andb_prop.
  apply negb_true_iff in Hn.
  destruct (String.eqb n k) eqn:Hnk.
  - apply String.eqb_eq in Hnk. subst k.
    destruct x; cbn [map fst snd Js.lookup]; rewrite ?String.eqb_refl; try reflexivity.
    now rewrite lookup_pruned_absent.
  - destruct x; cbn [map fst snd Js.lookup]; rewrite ?Hnk; now apply IH.
Qed.

Lemma distinct_kept (props : list (string * Js.value)) :
  distinct (map fst props) = true -> distinct (map fst (kept props)) = true.
Proof.
  assert (Hsub : forall k (l : list (string * Js.value)),
             existsb (String.eqb k) (map fst l) = false ->
             existsb (String.eqb k) (map fst (kept l)) = false).
  { intros k l. induction l as [|[n x] l IH]; [reflexivity|].
    cbn [map fst existsb kept]. intros [Hn Hr]%orb_false_elim.
    destruct x; cbn [map fst existsb]; rewrite ?Hn; now apply IH. }
  induction props as [|[n x] props IH]; [reflexivity|].
  cbn [map fst distinct kept]. intros [Hn Hd]%andb_prop.
  apply negb_true_iff in Hn.
  destruct x; cbn [map fst distinct]; rewrite ?(Hsub _ _ Hn); cbn [negb andb];
    now apply IH.
Qed.

(** Each group of fields prints and reads back. *)
Lemma filesystem_ok (x : Credentials.Filesystem) :
  printable (Credentials.filesystem_js x) = true
  /\ Credentials.filesystem_of_js (prune (Credentials.filesystem_js x)) = Some x.
Proof. destruct x. split; reflexivity. Qed.

Lemma webdav_ok (x : Credentials.Webdav) :
  printable (Credentials.webdav_js x) = true
  /\ Credentials.webdav_of_js (prune (Credentials.webdav_js x)) = Some x.
Proof. destruct x as [a b c [d|]]. all: split; reflexivity. Qed.

Lemma joplinserver_ok (x : Credentials.Joplinserver) :
  printable (Credentials.joplinserver_js x) = true
  /\ Credentials.joplinserver_of_js (prune (Credentials.joplinserver_js x)) = Some x.
Proof. destruct x. split; reflexivity. Qed.

Lemma onedrive_ok (x : Credentials.Onedrive) :
  printable (Credentials.onedrive_js x) = true
  /\ Credentials.onedrive_of_js (prune (Credentials.onedrive_js x)) = Some x.
Proof. destruct x as [[a|] [b|] [c|] [d|] [e|] [f|]]. all: split; reflexivity. Qed.

Lemma googledrive_ok (x : Credentials.Googledrive) :
  printable (Credentials.googledrive_js x) = true
  /\ Credentials.googledrive_of_js (prune (Credentials.googledrive_js x)) = Some x.
Proof. destruct x as [[a|] [b|] [c|] [d|]]. all: split; reflexivity. Qed.

Lemma opt_obj_ok {A} (to : A -> Js.value) (from : Js.value -> option A)
    (o : option A) :
  (forall a, exists props, to a = Js.Obj props) ->
  (forall a, printable (to a) = true /\ from (prune (to a)) = Some a) ->
  match Credentials.opt_obj to o with
  | Js.Undefined => true
  | _ => printable (Credentials.opt_obj to o)
  end = true
  /\ Credentials.read_opt_obj from (prune (Credentials.opt_obj to o)) = Some o.
Proof.
  intros Hshape Hok. destruct o as [a|]; [|split; reflexivity].
  cbn [Credentials.opt_obj]. destruct (Hok a) as [Hp Hr].
  destruct (Hshape a) as [props Hprops]. rewrite Hprops in *.
  split; [exact Hp|].
  rewrite prune_obj in *. cbn [Credentials.read_opt_obj]. now rewrite Hr.
Qed.

Lemma type_name_read (t : Credentials.StorageType) :
  Credentials.read_type (Js.Str (Credentials.type_name t)) = Some t.
Proof. destruct t; reflexivity. Qed.

(** A credentials object is printable, and pruning it loses no field. *)
Lemma credentials_ok (c : Credentials.t) :
  printable (Credentials.to_js c) = true
  /\ Credentials.of_js (prune (Credentials.to_js c)) = Some c.
Proof.
  destruct c as [t fs wd od jsv gd].
  destruct (opt_obj_ok Credentials.filesystem_js Credentials.filesystem_of_js fs
              ltac:(intros a; eexists; reflexivity) filesystem_ok) as [P1 R1].
  destruct (opt_obj_ok Credentials.webdav_js Credentials.webdav_of_js wd
              ltac:(intros a; eexists; reflexivity) webdav_ok) as [P2 R2].
  destruct (opt_obj_ok Credentials.onedrive_js Credentials.onedrive_of_js od
              ltac:(intros a; eexists; reflexivity) onedrive_ok) as [P3 R3].
  destruct (opt_obj_ok Credentials.joplinserver_js Credentials.joplinserver_of_js jsv
              ltac:(intros a; eexists; reflexivity) joplinserver_ok) as [P4 R4].
  destruct (opt_obj_ok Credentials.googledrive_js Credentials.googledrive_of_js gd
              ltac:(intros a; eexists; reflexivity) googledrive_ok) as [P5 R5].
  unfold Credentials.to_js.
  cbn [Credentials.type Credentials.filesystem Credentials.webdav Credentials.onedrive
         Credentials.joplinserver Credentials.googledrive].
  split.
  - cbn [printable]. apply andb_true_intro. split.
    + apply distinct_kept. reflexivity.
    + cbn [forallb]. rewrite P1, P2, P3, P4, P5. reflexivity.
  - unfold Credentials.of_js.
    rewrite !field_prune by reflexivity.
    cbn [Js.lookup String.eqb Ascii.eqb Bool.eqb].
    cbn [prune]. rewrite type_name_read, R1, R2, R3, R4, R5. reflexivity.
Qed.


Example pending_credentials_example :
  Js.parse (ProfileManager.stringify_text
              (Credentials.to_js Examples.onedrive_credentials))
  = Some (Js.Obj
            [("type", Js.Str "OneDrive");
             ("onedrive",
              Js.Obj [("clientId", Js.Str "client-1");
                      ("isPublic", Js.Bool true);
                      ("redirectUri", Js.Str "http://localhost:5173");
                      ("basePath", Js.Str "Apps/Joplin")])]).
Proof. vm_compute. reflexivity. Qed.


(** ** Reasoning about asynchronous code *)

Lemma task_nested_ind {A} (R : Task A -> Prop) :
  (forall a, R (Done a)) ->
  (forall c k, (forall ans w, R (snd (k ans w))) -> R (Await c k)) ->
  forall t, R t.
Proof.
  intros HD HA. fix self 1. intros [a | c k].
  - apply HD.
  - apply HA. intros ans w. apply self.
Qed.

Lemma task_inv_weaken {A} (P : World -> Prop) (Q Q' : A -> Prop) (t : Task A) :
  (forall a, Q a -> Q' a) -> task_inv P Q t -> task_inv P Q' t.
Proof.
  intros HQ. induction t as [a | c k IH] using task_nested_ind; cbn [task_inv].
  - apply HQ.
  - intros H ans w Hw. destruct (H ans w Hw) as [H1 H2]. split; [exact H1|].
    now apply IH.
Qed.

Lemma async_inv_weaken {A} (P : World -> Prop) (Q Q' : A -> Prop) (m : Async A) :
  (forall a, Q a -> Q' a) -> async_inv P Q m -> async_inv P Q' m.
Proof.
  intros HQ Hm w Hw. destruct (Hm w Hw) as [H1 H2]. split; [exact H1|].
  eapply task_inv_weaken; eauto.
Qed.

Lemma then_task_inv {A B} (P : World -> Prop) (Q1 : A -> Prop) (Q : B -> Prop)
    (f : A -> Async B) (t : Task A) :
  (forall a, Q1 a -> async_inv P Q (f a)) ->
  task_inv P Q1 t ->
  forall w, P w -> P (fst (then_task t f w)) /\ task_inv P Q (snd (then_task t f w)).
Proof.
  intros Hf. induction t as [a | c k IH] using task_nested_ind;
    cbn [task_inv then_task]; intros Ht w Hw.
  - now apply Hf.
  - split; [exact Hw|]. cbn [snd task_inv]. intros ans w' Hw'.
    destruct (Ht ans w' Hw') as [H1 H2]. now apply IH.
Qed.

Lemma bind_inv {A B} (P : World -> Prop) (Q1 : A -> Prop) (Q : B -> Prop)
    (m : Async A) (f : A -> Async B) :
  async_inv P Q1 m -> (forall a, Q1 a -> async_inv P Q (f a)) ->
  async_inv P Q (bind m f).
Proof.
  intros Hm Hf w Hw. unfold bind. destruct (Hm w Hw) as [H1 H2].
  now apply (then_task_inv P Q1 Q f).
Qed.

Lemma ret_inv {A} (P : World -> Prop) (Q : A -> Prop) (a : A) :
  Q a -> async_inv P Q (ret a).
Proof. intros Ha w Hw. split; [exact Hw | exact Ha]. Qed.

Lemma act_inv (P : World -> Prop) (Q : unit -> Prop) (f : World -> World) :
  (forall w, P w -> P (f w)) -> Q tt -> async_inv P Q (act f).
Proof. intros Hf HQ w Hw. split; [now apply Hf | exact HQ]. Qed.

Lemma await_inv (P : World -> Prop) (Q : Answer -> Prop) (c : Call) :
  (forall ans, Q ans) -> async_inv P Q (await c).
Proof.
  intros HQ w Hw. split; [exact Hw|]. cbn. intros ans w' Hw'.
  split; [exact Hw' | apply HQ].
Qed.

Lemma bindE_inv {A B} (P : World -> Prop) (Q1 : A -> Prop)
    (Q : Js.Completion B -> Prop) (m : AsyncE A) (f : A -> AsyncE B) :
  async_inv P (fun r => match r with
                        | Js.Normal a => Q1 a
                        | Js.Throw e => Q (Js.Throw e)
                        end) m ->
  (forall a, Q1 a -> async_inv P Q (f a)) ->
  async_inv P Q (bindE m f).
Proof.
  intros Hm Hf. unfold bindE. eapply bind_inv; [exact Hm|].
  intros [a|e] Hr; [now apply Hf | now apply ret_inv].
Qed.

Lemma try_catch_inv {A} (P : World -> Prop) (Q : Js.Completion A -> Prop)
    (body : AsyncE A) (handler : Js.Thrown -> AsyncE A) :
  async_inv P (fun r => match r with
                        | Js.Normal a => Q (Js.Normal a)
                        | Js.Throw e => async_inv P Q (handler e)
                        end) body ->
  async_inv P Q (try_catch body handler).
Proof.
  intros Hb. unfold try_catch. eapply bind_inv; [exact Hb|].
  intros [a|e] Hr; [now apply ret_inv | exact Hr].
Qed.

Lemma finally_inv {A} (P : World -> Prop) (Q : Js.Completion A -> Prop)
    (body : AsyncE A) (cleanup : World -> World) :
  (forall w, P w -> P (cleanup w)) ->
  async_inv P Q body -> async_inv P Q (finally body cleanup).
Proof.
  intros Hc Hb. unfold finally. eapply bind_inv; [exact Hb|].
  intros r Hr w Hw. split; [now apply Hc | exact Hr].
Qed.

Lemma liftE_inv {A} (P : World -> Prop) (Q : Js.Completion A -> Prop)
    (c : Js.Completion A) :
  Q c -> async_inv P Q (liftE c).
Proof. apply ret_inv. Qed.


(** ** [handleOAuthCallback]: the provider reports an error *)

(** What the [error] branch does, in every world: it shows the
    description (or the error code), strips the address, removes the
    pending credentials, and touches nothing else. *)
Lemma provider_error_outcome (env : Env) (w : World) :
  let params := URLSearchParams.parse (search w) in
  truthy_str (URLSearchParams.get params "error") = true ->
  App.handleOAuthCallback env w
  = (session_remove App.PENDING
       (replaceState_pathname
          (setError (if truthy_str (URLSearchParams.get params "error_description")
                     then URLSearchParams.get params "error_description"
                     else URLSearchParams.get params "error") w)),
     Done tt).
Proof. cbv zeta. intros H. unfold App.handleOAuthCallback. now rewrite H. Qed.

(** C3, at the input where it fails.  The provider refuses
    ([?error=access_denied&error_description=User+cancelled]) while the
    pending credentials and the verifier are stored: the handler shows
    the description, calls no endpoint, strips the address and removes
    the pending credentials, but the PKCE verifier stays in
    [sessionStorage]. *)
Theorem provider_error_leaves_verifier :
  let r := App.handleOAuthCallback Examples.env Examples.world_refused in
  snd r = Done tt
  /\ error (ui (fst r)) = Some "User cancelled"
  /\ fetches (fst r) = []
  /\ search (fst r) = EmptyString
  /\ Storage.getItem (session (fst r)) App.PENDING = None
  /\ Storage.getItem (session (fst r)) App.VERIFIER
     = Some "dBjftJeZ4CVP-mB92K27uhbUJU1p1r_wW1gFWFOEjXk".
Proof. vm_compute. repeat split; reflexivity. Qed.

(** ** The library calls keep what they do not touch *)

Section Tolerant.

Variable env : Env.
Variable P : World -> Prop.
Hypothesis Htol : tolerant P.

Lemma connect_inv (credentials : Js.value) :
  async_inv P anything (JoplinApiService.connect env credentials).
Proof.
  unfold JoplinApiService.connect. apply try_catch_inv.
  assert (Hcatch : forall e,
             async_inv P anything (JoplinApiService.connect_catch env credentials e)).
  { intros e. eapply bind_inv with (Q1 := anything).
    - apply act_inv; [|exact I]. intros w Hw. now apply tol_api.
    - intros _ _. eapply bindE_inv with (Q1 := anything).
      + apply liftE_inv. now destruct (Js.get _ _ _).
      + intros type _. now apply ret_inv. }
  unfold JoplinApiService.connect_body.
  eapply bindE_inv with (Q1 := anything).
  - apply liftE_inv. destruct (Js.get _ _ _); [exact I | apply Hcatch].
  - intros type _. destruct (JoplinApiService.known_type type) as [kind|].
    + intros w Hw.
      destruct (storage_new env (ticks w) kind _ _) as [h|e].
      * eapply bind_inv with (Q1 := anything).
        -- now apply await_inv.
        -- intros ans _. destruct ans.
           ++ eapply bind_inv with (Q1 := anything);
                [apply act_inv; [intros w' Hw'; now apply tol_api | exact I]
                | intros _ _; now apply ret_inv].
           ++ eapply bind_inv with (Q1 := anything);
                [apply act_inv; [intros w' Hw'; now apply tol_api | exact I]
                | intros _ _; now apply ret_inv].
           ++ apply ret_inv. apply Hcatch.
        -- now apply tol_api, tol_tick.
      * split; [now apply tol_tick | apply Hcatch].
    + apply ret_inv. apply Hcatch.
Qed.

Lemma getItems_inv : async_inv P anything (JoplinApiService.getItems env).
Proof.
  unfold JoplinApiService.getItems. apply try_catch_inv.
  assert (Hcatch : forall e, async_inv P anything (JoplinApiService.getItems_catch e)).
  { intros e. now apply ret_inv. }
  intros w Hw. unfold JoplinApiService.getItems_body.
  destruct (storage (api w)) as [h|]; [|split; [exact Hw | apply Hcatch]].
  destruct (initialized (api w)); cbn [negb]; [|split; [exact Hw | apply Hcatch]].
  eapply bind_inv with (Q1 := anything); [now apply await_inv | | exact Hw].
  intros ans _. destruct ans as [r | v | e]; try (apply ret_inv; apply Hcatch).
  destruct v; apply ret_inv; solve [exact I | apply Hcatch].
Qed.

(** [saveProfile] and [setActiveProfile] do not throw for a profile
    object. *)
Lemma saveProfile_object (eng : Js.Engine) (props : list (string * Js.value))
    (ls : gmap string string) :
  ProfileManager.saveProfile eng (Js.Obj props) ls
  = (Storage.setItem ls
       (ProfileManager.STORAGE_KEY_PREFIX +:+ Js.to_string (Js.prop (Js.Obj props) "id"))
       (ProfileManager.stringify_text (Js.Obj props)),
     Js.Normal tt).
Proof. reflexivity. Qed.

Lemma stringify_text_object (props : list (string * Js.value)) :
  exists r, ProfileManager.stringify_text (Js.Obj props) = String "{" r.
Proof.
  unfold ProfileManager.stringify_text. rewrite stringify_obj.
  eexists. reflexivity.
Qed.

Lemma setActiveProfile_normal (eng : Js.Engine) (stamp : string)
    (ls : gmap string string) (profileId r : string) :
  ls !! (ProfileManager.STORAGE_KEY_PREFIX +:+ profileId) = Some (String "{" r) ->
  snd (ProfileManager.setActiveProfile eng stamp ls profileId) = Js.Normal tt.
Proof.
  intros Hsaved. unfold ProfileManager.setActiveProfile, ProfileManager.getProfile,
    Storage.getItem, Storage.setItem.
  rewrite lookup_insert_ne by (intros E; symmetry in E; now apply profile_key_not_active in E).
  rewrite Hsaved. cbn [truthy_str negb String.eqb].
  destruct (Js.parse (String "{" r)) as [v|] eqn:Hparse; [|reflexivity].
  destruct (parse_brace r v Hparse) as [props ->].
  cbn [Js.truthy Js.set]. reflexivity.
Qed.

Lemma save_new_profile_run (credentials : Js.value) (w : World) :
  Js.nullish credentials = false ->
  exists p ls,
    Js.prop p "credentials" = credentials
    /\ App.save_new_profile env credentials w
       = (setCurrentProfile (Some p) (with_local ls (tick (tick w))), Done (Js.Normal tt)).
Proof.
  intros Hobj. unfold App.save_new_profile, ProfileManager.createProfile.
  rewrite !(get_of_object _ _ _ Hobj). cbn [truthy_str Js.bind].
  set (p := Js.Obj _).
  exists p. unfold bindE, bind, liftE, ret, App.on_local, act, retE. cbn [fst snd then_task].
  subst p. rewrite saveProfile_object. cbn [fst snd then_task].
  set (props := [("id", _); _; _; _; _; _]) in *.
  set (key := ProfileManager.STORAGE_KEY_PREFIX +:+ _).
  destruct (stringify_text_object props) as [r Hr].
  pose proof (setActiveProfile_normal (engine env) (now env (S (ticks w)))
                (Storage.setItem (local (tick (tick w))) key
                   (ProfileManager.stringify_text (Js.Obj props)))
                (Js.to_string (Js.prop (Js.Obj props) "id")) r) as Hactive.
  cbn [local with_local] in Hactive |- *.
  destruct (ProfileManager.setActiveProfile _ _ _ _) as [ls2 res] eqn:Hset.
  cbn [snd] in Hactive. rewrite Hactive.
  - exists ls2. split; [reflexivity|]. cbn [fst snd then_task]. reflexivity.
  - unfold Storage.setItem. subst key. rewrite Hr. apply lookup_insert_eq.
Qed.

Lemma save_new_profile_inv (credentials : Js.value) (Q : Js.Completion unit -> Prop) :
  (forall p w, Js.prop p "credentials" = credentials -> P w ->
               P (setCurrentProfile (Some p) w)) ->
  (forall r, Q r) ->
  async_inv P Q (App.save_new_profile env credentials).
Proof.
  intros Hprofile HQ w Hw.
  destruct (Js.nullish credentials) eqn:Hn.
  - unfold App.save_new_profile, ProfileManager.createProfile, Js.get.
    rewrite Hn. cbn. split; [now apply tol_tick, tol_tick | apply HQ].
  - destruct (save_new_profile_run credentials w Hn) as (p & ls & Hp & ->).
    split; [|apply HQ]. cbn [fst].
    apply Hprofile; [exact Hp|]. now apply tol_local, tol_tick, tol_tick.
Qed.

Lemma handleConnect_catch_inv (e : Js.Thrown) :
  async_inv P (fun r => r = Js.Normal tt) (App.handleConnect_catch e).
Proof.
  unfold App.handleConnect_catch. eapply bind_inv with (Q1 := anything).
  - apply act_inv; [|exact I]. intros w Hw. now apply tol_error.
  - intros _ _. now apply ret_inv.
Qed.

(** [handleConnect] keeps every property that tolerates what it does on
    the path it takes, and it always returns normally. *)
Lemma handleConnect_inv (credentials : Js.value) :
  (forall w, P w -> P (session_remove App.PENDING w)) ->
  (forall p w, Js.prop p "credentials" = credentials -> P w ->
               P (setCurrentProfile (Some p) w)) ->
  (starts_oauth credentials = true ->
   (forall k v w, P w -> P (session_set k v w))
   /\ (forall h w, P w -> P (with_href h w))) ->
  (Js.is_string (Js.prop credentials "type") "GoogleDrive" = true ->
   forall t w, P w -> P (session_set App.PENDING t w)) ->
  async_inv P (fun r => r = Js.Normal tt) (App.handleConnect env credentials).
Proof.
  intros Hremove Hprofile Hstart Hgoogle.
  set (Qb := fun r : Js.Completion unit =>
               match r with
               | Js.Normal a => Js.Normal a = Js.Normal tt
               | Js.Throw e => async_inv P (fun r => r = Js.Normal tt)
                                 (App.handleConnect_catch e)
               end).
  assert (HQb : forall (A : Type) (r : Js.Completion A),
             match r with
             | Js.Normal _ => anything r
             | Js.Throw e => Qb (Js.Throw e)
             end).
  { intros A [a|e]; [exact I | apply handleConnect_catch_inv]. }
  unfold App.handleConnect.
  eapply bind_inv with (Q1 := anything);
    [apply act_inv; [intros w Hw; now apply tol_loading | exact I]|].
  intros _ _. eapply bind_inv with (Q1 := anything);
    [apply act_inv; [intros w Hw; now apply tol_error | exact I]|].
  intros _ _. apply finally_inv; [intros w Hw; now apply tol_loading|].
  apply try_catch_inv. fold Qb.
  unfold App.handleConnect_body.
  eapply bindE_inv with (Q1 := fun type => type = Js.prop credentials "type").
  { apply liftE_inv. unfold Js.get. destruct (Js.nullish credentials);
      [apply handleConnect_catch_inv | reflexivity]. }
  intros type ->. fold (starts_oauth credentials).
  destruct (starts_oauth credentials) eqn:Hs.
  - (* the OAuth flow starts *)
    destruct (Hstart eq_refl) as [Hset Hhref].
    intros w Hw.
    eapply bind_inv with (Q1 := anything); [now apply await_inv | |].
    + intros _ _. eapply bind_inv with (Q1 := anything);
        [apply act_inv; [intros w' Hw'; now apply Hset | exact I]|].
      intros _ _. eapply bind_inv with (Q1 := anything);
        [apply act_inv; [intros w' Hw'; now apply Hhref | exact I]|].
      intros _ _. apply ret_inv. destruct tt. reflexivity.
    + now apply tol_tick, Hset.
  - eapply bind_inv with (Q1 := anything).
    { apply act_inv; [|exact I]. intros w Hw.
      destruct (Js.is_string (Js.prop credentials "type") "GoogleDrive") eqn:Hg;
        [now apply Hgoogle | exact Hw]. }
    intros _ _. eapply bindE_inv with (Q1 := anything).
    { eapply async_inv_weaken; [|apply connect_inv]. intros r _. apply HQb. }
    intros _ _. eapply bindE_inv with (Q1 := anything).
    { eapply async_inv_weaken; [|apply getItems_inv]. intros r _. apply HQb. }
    intros fetchedItems _. eapply bind_inv with (Q1 := anything);
      [apply act_inv; [intros w Hw; now apply tol_items | exact I]|].
    intros _ _. eapply bind_inv with (Q1 := anything);
      [apply act_inv; [intros w Hw; now apply tol_connected | exact I]|].
    intros _ _. eapply bindE_inv with (Q1 := anything).
    { apply save_new_profile_inv; [exact Hprofile|]. intros r. apply HQb. }
    intros _ _. eapply bind_inv with (Q1 := anything);
      [apply act_inv; [exact Hremove | exact I]|].
    intros _ _. apply ret_inv. reflexivity.
Qed.

End Tolerant.


(** ** [handleOAuthCallback]: a code arrives, the verifier is missing *)

Ltac world_simpl :=
  cbn [session local search href ui api fetches ticks
       with_session with_local with_search with_href with_ui with_api with_fetch tick
       setCurrentProfile setConnected setLoading setError setItems
       session_set session_remove replaceState_pathname
       currentProfile connected loading error items oauthAuthUrl] in *.

Lemma tolerant_quiet (sent : list Request) : tolerant (quiet_without_verifier sent).
Proof. split; intros; exact H. Qed.

Lemma quiet_remove (sent : list Request) (k : string) (w : World) :
  quiet_without_verifier sent w -> quiet_without_verifier sent (session_remove k w).
Proof.
  intros [Hf Hv]. split; [exact Hf|]. world_simpl.
  unfold Storage.getItem, Storage.removeItem in *.
  destruct (decide (k = App.VERIFIER)) as [->|Hk];
    [now rewrite lookup_delete_eq | now rewrite lookup_delete_ne].
Qed.

Lemma callback_catch_inv (P : World -> Prop) (e : Js.Thrown) :
  tolerant P -> (forall k w, P w -> P (session_remove k w)) ->
  async_inv P anything (App.callback_catch e).
Proof.
  intros Htol Hrm. unfold App.callback_catch.
  repeat (eapply bind_inv with (Q1 := anything);
          [apply act_inv; [intros w Hw | exact I] | intros _ _]);
    try solve [now apply Hrm | now apply Htol].
  now apply ret_inv.
Qed.

(** Without a verifier the handler issues no request, whatever the
    address and the rest of the store hold. *)
Lemma no_verifier_no_request (env : Env) (w : World) :
  truthy_str (Storage.getItem (session w) App.VERIFIER) = false ->
  let r := App.handleOAuthCallback env w in
  quiet_without_verifier (fetches w) (fst r)
  /\ task_inv (quiet_without_verifier (fetches w)) anything (snd r).
Proof.
  intros Hv. cbv zeta. set (P := quiet_without_verifier (fetches w)).
  assert (Hw : P w) by (split; [reflexivity | exact Hv]).
  assert (Htol : tolerant P) by apply tolerant_quiet.
  assert (Hrm : forall k w, P w -> P (session_remove k w)) by (intros; now apply quiet_remove).
  unfold App.handleOAuthCallback.
  destruct (truthy_str (URLSearchParams.get _ "error")).
  { split; [|exact I]. cbn [fst]. apply Hrm. apply Htol. now apply Htol. }
  destruct (truthy_str (URLSearchParams.get _ "code")); [|split; [exact Hw | exact I]].
  destruct (same_str _ _); [split; [exact Hw | exact I]|].
  set (code := match URLSearchParams.get _ "code" with Some c => c | None => _ end).
  assert (Hw1 : P (session_set App.PROCESSED code w)).
  { destruct Hw as [Hf Hq]. split; [exact Hf|]. world_simpl.
    unfold Storage.getItem, Storage.setItem in *. now rewrite lookup_insert_ne. }
  destruct (truthy_str (Storage.getItem (session (session_set App.PROCESSED code w)) App.PENDING));
    [|split; [now apply Htol | exact I]].
  revert Hw1. generalize (session_set App.PROCESSED code w). intros w1 Hw1.
  eapply bind_inv with (Q1 := anything); [| intros; now apply ret_inv | exact Hw1].
  apply try_catch_inv. unfold App.callback_try.
  assert (Hcatch : forall (A : Type) (r : Js.Completion A),
             match r with
             | Js.Normal _ => anything r
             | Js.Throw e => async_inv P anything (App.callback_catch e)
             end).
  { intros A [a|e]; [exact I | now apply callback_catch_inv]. }
  eapply bindE_inv with (Q1 := anything); [apply liftE_inv, Hcatch|].
  intros pendingCreds _.
  eapply bind_inv with (Q1 := anything);
    [apply act_inv; [intros; now apply Hrm | exact I]|]. intros _ _.
  eapply bind_inv with (Q1 := anything);
    [apply act_inv; [intros; now apply Htol | exact I]|]. intros _ _.
  eapply bind_inv with (Q1 := anything);
    [apply act_inv; [intros; now apply Htol | exact I]|]. intros _ _.
  eapply bindE_inv with (Q1 := fun type => type = Js.prop pendingCreds "type").
  { apply liftE_inv. unfold Js.get. destruct (Js.nullish pendingCreds);
      [now apply callback_catch_inv | reflexivity]. }
  intros type ->.
  destruct (Js.is_string (Js.prop pendingCreds "type") "OneDrive"
            && Js.truthy (Js.prop pendingCreds "onedrive")) eqn:Hone.
  - (* the OneDrive branch stops at the missing verifier *)
    unfold async_inv at 1. intros w2 Hw2. pose proof Hw2 as [Hf2 Hv2].
    unfold App.complete_onedrive. rewrite Hv2. cbn [negb].
    split; [exact Hw2 | now apply callback_catch_inv].
  - eapply async_inv_weaken; [|apply (handleConnect_inv env P Htol)].
    + intros r ->. exact I.
    + intros w' Hw'. now apply Hrm.
    + intros p w' _ Hw'. exact Hw'.
    + unfold starts_oauth. rewrite Hone. discriminate.
    + intros _ t w' Hw'. destruct Hw' as [Hf Hq]. split; [exact Hf|]. world_simpl.
      unfold Storage.getItem, Storage.setItem in *. now rewrite lookup_insert_ne.
Qed.

Lemma is_string_object (v : Js.value) (k s : string) :
  Js.is_string (Js.prop v k) s = true -> Js.nullish v = false.
Proof. destruct v; try reflexivity; discriminate. Qed.

(** The first, synchronous part of the handler when a fresh code meets
    pending OneDrive credentials: it is the OneDrive branch, run in the
    world where the code is marked, the pending credentials are removed
    and the address is stripped. *)
Lemma callback_enters_onedrive (env : Env) (w : World) (code : string)
    (pendingCreds : Js.value) :
  carries_code w code ->
  same_str (Storage.getItem (session w) App.PROCESSED) code = false ->
  pending_onedrive w pendingCreds ->
  App.handleOAuthCallback env w
  = bind (try_catch (App.complete_onedrive env code pendingCreds) App.callback_catch)
      (fun _ => ret tt)
      (setLoading true
         (replaceState_pathname
            (session_remove App.PENDING (session_set App.PROCESSED code w)))).
Proof.
  intros (Herr & Hcode & Htruthy) Hfresh (text & Htext & Hnonempty & Hparse & Htype & Hod).
  unfold App.handleOAuthCallback. cbv zeta in Herr, Hcode.
  rewrite Herr, Hcode, Htruthy, Hfresh.
  assert (Hpend : Storage.getItem (session (session_set App.PROCESSED code w)) App.PENDING
                  = Some text).
  { world_simpl. unfold Storage.getItem, Storage.setItem in *.
    now rewrite lookup_insert_ne. }
  rewrite Hpend, Hnonempty.
  unfold App.callback_try, Js.JSON_parse. rewrite Hparse.
  unfold try_catch, bindE, bind, liftE, act, ret. cbn [fst snd then_task].
  rewrite (get_of_object _ _ _ (is_string_object _ _ _ Htype)).
  cbn [fst snd then_task]. rewrite Htype, Hod. reflexivity.
Qed.

(** C4, amended.  When the address carries a code and no PKCE verifier
    is stored, the handler issues no request to the token endpoint, now
    or when it resumes; and when the code is not the one already marked
    and the store holds pending OneDrive credentials, the flow fails at
    once with the verifier-missing error, the three keys are removed
    and the address is stripped. *)
Theorem verifier_missing_fails_without_exchange
    (env : Env) (w : World) (code : string) :
  carries_code w code ->
  truthy_str (Storage.getItem (session w) App.VERIFIER) = false ->
  let r := App.handleOAuthCallback env w in
  (quiet_without_verifier (fetches w) (fst r)
   /\ task_inv (quiet_without_verifier (fetches w)) anything (snd r))
  /\ forall pendingCreds,
       same_str (Storage.getItem (session w) App.PROCESSED) code = false ->
       pending_onedrive w pendingCreds ->
       snd r = Done tt
       /\ error (ui (fst r)) = Some VERIFIER_MISSING
       /\ fetches (fst r) = fetches w
       /\ store_empty (fst r)
       /\ search (fst r) = EmptyString.
Proof.
  intros Hcode Hv. cbv zeta. split; [now apply no_verifier_no_request|].
  intros pendingCreds Hfresh Hpending.
  rewrite (callback_enters_onedrive env w code pendingCreds Hcode Hfresh Hpending).
  unfold try_catch, bind, App.complete_onedrive.
  assert (Hv' : truthy_str
                  (Storage.getItem
                     (session (setLoading true
                                 (replaceState_pathname
                                    (session_remove App.PENDING
                                       (session_set App.PROCESSED code w)))))
                     App.VERIFIER) = false).
  { world_simpl. unfold Storage.getItem, Storage.setItem, Storage.removeItem in *.
    now rewrite lookup_delete_ne, lookup_insert_ne. }
  cbv beta zeta. rewrite Hv'. cbn [negb throwE ret fst snd then_task].
  unfold App.callback_catch, bind, act, retE, ret. cbn [fst snd then_task].
  repeat split; world_simpl; unfold Storage.getItem, Storage.removeItem, Storage.setItem.
  - rewrite !lookup_delete_ne by discriminate. apply lookup_delete_eq.
  - apply lookup_delete_eq.
  - rewrite lookup_delete_ne by discriminate. apply lookup_delete_eq.
Qed.

Lemma verifier_missing_witness :
  carries_code Examples.world_without_verifier "xyz"
  /\ truthy_str (Storage.getItem (session Examples.world_without_verifier) App.VERIFIER)
     = false
  /\ pending_onedrive Examples.world_without_verifier Examples.pending_parsed
  /\ let r := App.handleOAuthCallback Examples.env Examples.world_without_verifier in
     snd r = Done tt
     /\ error (ui (fst r)) = Some VERIFIER_MISSING
     /\ fetches (fst r) = []
     /\ store_empty (fst r).
Proof.
  assert (Hcode : carries_code Examples.world_without_verifier "xyz")
    by (vm_compute; repeat split).
  assert (Hv : truthy_str (Storage.getItem (session Examples.world_without_verifier)
                             App.VERIFIER) = false)
    by (vm_compute; reflexivity).
  assert (Hp : pending_onedrive Examples.world_without_verifier Examples.pending_parsed)
    by (exists Examples.pending_text; vm_compute; repeat split).
  split; [exact Hcode|]. split; [exact Hv|]. split; [exact Hp|].
  destruct (verifier_missing_fails_without_exchange Examples.env
              Examples.world_without_verifier "xyz" Hcode Hv) as [_ Hfail].
  destruct (Hfail Examples.pending_parsed ltac:(vm_compute; reflexivity) Hp)
    as (H1 & H2 & H3 & H4 & _).
  cbv zeta. repeat split; try assumption; apply H4.
Defined.

(** C4 as stated fails: a code arrives in a tab whose store holds neither
    verifier nor pending credentials; the handler marks the code, strips
    the address and reports nothing. *)
Lemma verifier_missing_silent_without_pending :
  carries_code Examples.world_fresh_tab "xyz"
  /\ Storage.getItem (session Examples.world_fresh_tab) App.VERIFIER = None
  /\ let r := App.handleOAuthCallback Examples.env Examples.world_fresh_tab in
     snd r = Done tt
     /\ error (ui (fst r)) = None
     /\ error (ui (fst r)) <> Some VERIFIER_MISSING
     /\ Storage.getItem (session (fst r)) App.PROCESSED = Some "xyz".
Proof.
  split; [vm_compute; repeat split|]. split; [vm_compute; reflexivity|].
  vm_compute. repeat split; discriminate.
Qed.


(** ** [handleOAuthCallback]: the exchange *)

Lemma lookup_define (props : list (string * Js.value)) (k k' : string) (x : Js.value) :
  Js.lookup (Js.define props k x) k'
  = if String.eqb k k' then Some x else Js.lookup props k'.
Proof.
  induction props as [|[n y] r IH]; cbn [Js.define Js.lookup].
  - destruct (String.eqb_spec k k'); reflexivity.
  - destruct (String.eqb_spec n k) as [->|Hnk]; cbn [Js.lookup].
    + destruct (String.eqb_spec k k'); reflexivity.
    + rewrite IH. destruct (String.eqb_spec n k') as [->|Hnk'].
      * destruct (String.eqb_spec k k'); [congruence | reflexivity].
      * reflexivity.
Qed.

Lemma set_prop (eng : Js.Engine) (v v' x : Js.value) (k k' : string) :
  Js.set eng v k x = Js.Normal v' ->
  Js.prop v' k' = if String.eqb k k' then x else Js.prop v k'.
Proof.
  destruct v; cbn [Js.set]; intros H; try discriminate; injection H as <-;
    cbn [Js.prop]; rewrite lookup_define; destruct (String.eqb k k'); reflexivity.
Qed.


(** The first, synchronous part of the handler when a fresh code meets
    pending OneDrive credentials and a verifier: the request leaves, and
    the handler waits for the answer. *)
Lemma callback_issues_exchange (env : Env) (w : World) (code verifier : string)
    (pendingCreds : Js.value) :
  carries_code w code ->
  same_str (Storage.getItem (session w) App.PROCESSED) code = false ->
  pending_onedrive w pendingCreds ->
  Storage.getItem (session w) App.VERIFIER = Some verifier ->
  truthy_str (Some verifier) = true ->
  let req := OneDriveOAuthService.exchange_request
               (App.oauth_service env (Js.prop pendingCreds "onedrive")) code verifier in
  exists k,
    App.handleOAuthCallback env w
    = (with_fetch req
         (setLoading true
            (replaceState_pathname
               (session_remove App.PENDING (session_set App.PROCESSED code w)))),
       Await (Fetch req) k)
    /\ forall ans w', k ans w' = after_exchange env pendingCreds ans w'.
Proof.
  intros Hcode Hfresh Hpending Hv Hne. cbv zeta.
  rewrite (callback_enters_onedrive env w code pendingCreds Hcode Hfresh Hpending).
  unfold try_catch, bind, App.complete_onedrive.
  set (w0 := setLoading true _).
  assert (Hv0 : Storage.getItem (session w0) App.VERIFIER = Some verifier).
  { subst w0. world_simpl. unfold Storage.getItem, Storage.setItem, Storage.removeItem in *.
    now rewrite lookup_delete_ne, lookup_insert_ne. }
  cbv beta zeta. rewrite Hv0, Hne. cbn [negb].
  unfold bindE, bind, OneDriveOAuthService.exchangeCodeForToken, bind, act, await.
  cbn [fst snd then_task].
  eexists. split; [reflexivity|].
  intros ans w'. cbv beta zeta. cbn [fst snd then_task].
  unfold after_exchange, try_catch, bindE, bind. reflexivity.
Qed.





(** *** The text of a parsed value is not empty *)

Lemma read_number_nonempty (s lit rest : string) :
  Js.read_number s = Some (lit, rest) -> exists c r, lit = String c r.
Proof.
  unfold Js.read_number. intros H.
  destruct (match s with String "-" r => ("-", r) | _ => (EmptyString, s) end)
    as [sign s1] eqn:Hsign.
  destruct (match s1 with String "0" r => ("0", r) | _ => Js.span_digits s1 end)
    as [int s2] eqn:Hint.
  destruct (String.eqb_spec int EmptyString) as [|Hne]; [discriminate|].
  split_match H. injection H as <- _.
  destruct int as [|c r]; [now elim Hne|].
  destruct sign as [|d sign]; [rewrite str_app_nil_l|]; rewrite str_app_cons; eauto.
Qed.

Lemma parse_elements_shape (fuel : nat) :
  forall s acc v rest,
    Js.parse_elements fuel s acc = Js.Got v rest -> exists elems, v = Js.Arr elems [].
Proof.
  induction fuel as [|fuel IH]; intros s acc v rest H; [discriminate|].
  rewrite parse_elements_step in H. split_match H.
  - injection H as <- _. eauto.
  - eapply IH; eauto.
Qed.

(** The text of a parsed value is not empty. *)
Lemma parse_value_text (fuel : nat) (s : string) (v : Js.value) (rest : string) :
  Js.parse_value fuel s = Js.Got v rest ->
  exists c r, ProfileManager.stringify_text v = String c r.
Proof.
  destruct fuel as [|fuel]; [discriminate|]. cbn [Js.parse_value].
  destruct (Js.skip_ws s) as [|c r]; [discriminate|].
  destruct (Ascii.eqb c "{").
  { intros H.
    assert (exists props, v = Js.Obj props) as [props ->].
    { split_match H;
        solve [eapply parse_members_shape; eauto | injection H as <- _; eauto]. }
    destruct (stringify_text_object props) as [t ->]. eauto. }
  destruct (Ascii.eqb c "[").
  { intros H.
    assert (exists elems, v = Js.Arr elems []) as [elems ->].
    { split_match H;
        solve [eapply parse_elements_shape; eauto | injection H as <- _; eauto]. }
    unfold ProfileManager.stringify_text. rewrite stringify_arr, str_app_cons. eauto. }
  destruct (Ascii.eqb c "034").
  { intros H. split_match H. injection H as <- _.
    unfold ProfileManager.stringify_text. cbn [Js.stringify]. unfold Js.quote. eauto. }
  destruct (Ascii.eqb c "t").
  { intros H. split_match H. injection H as <- _. cbn. eauto. }
  destruct (Ascii.eqb c "f").
  { intros H. split_match H. injection H as <- _. cbn. eauto. }
  destruct (Ascii.eqb c "n").
  { intros H. split_match H. injection H as <- _. cbn. eauto. }
  intros H. destruct (Js.read_number (String c r)) as [[lit rest']|] eqn:Hn; [|discriminate].
  injection H as <- _. destruct (read_number_nonempty _ _ _ Hn) as (d & t & ->).
  cbn. eauto.
Qed.

Lemma parsed_text_nonempty (text : string) (v : Js.value) :
  Js.parse text = Some v ->
  Js.truthy (Js.Str (ProfileManager.stringify_text v)) = true.
Proof.
  unfold Js.parse. intros H.
  destruct (Js.parse_value _ text) as [v' rest| |] eqn:Hv; try discriminate.
  split_match H. injection H as ->.
  destruct (parse_value_text _ _ _ _ Hv) as (c & r & ->). reflexivity.
Qed.

(** *** What the handler keeps once the request has left *)

Lemma tolerant_guarded (g : Guard) (code : string) (sent : list Request) :
  tolerant (guarded g code sent).
Proof. split; intros; exact H. Qed.

Lemma guarded_remove_pending (g : Guard) (code : string) (sent : list Request)
    (w : World) :
  guarded g code sent w -> guarded g code sent (session_remove App.PENDING w).
Proof.
  intros [Hf Hg]. split; [exact Hf|]. destruct g; world_simpl;
    unfold Storage.getItem, Storage.removeItem in *.
  - exact Hg.
  - now rewrite lookup_delete_eq.
  - now rewrite lookup_delete_ne.
Qed.

Lemma pending_gone_remove (code : string) (sent : list Request) (k : string)
    (w : World) :
  guarded PendingGone code sent w -> guarded PendingGone code sent (session_remove k w).
Proof.
  intros [Hf Hg]. split; [exact Hf|]. world_simpl.
  unfold Storage.getItem, Storage.removeItem in *.
  destruct (decide (k = App.PENDING)) as [->|Hk];
    [now rewrite lookup_delete_eq | now rewrite lookup_delete_ne].
Qed.

Lemma exchange_error_throws (eng : Js.Engine) (errorJson : Js.value) (status : string) :
  exists e,
    Js.bind (Js.get eng errorJson "error_description") (fun description =>
    Js.bind (if Js.truthy description then Js.Normal description
             else Js.get eng errorJson "error") (fun shown =>
    Js.Throw (A := Js.value) (Js.ErrorObj
      ("OAuth token exchange failed (" +:+ status +:+ "): " +:+ Js.to_string shown))))
    = Js.Throw e.
Proof.
  destruct (Js.get eng errorJson "error_description") as [d|e]; cbn [Js.bind]; [|eauto].
  destruct (Js.truthy d); [cbn [Js.bind]; eauto|].
  destruct (Js.get eng errorJson "error"); cbn [Js.bind]; eauto.
Qed.

(** Whatever the token endpoint answers, the rest of the handler issues
    no request and stores no pending credentials. *)
Lemma after_exchange_inv (env : Env) (pendingCreds : Js.value) (ans : Answer)
    (code : string) (sent : list Request) :
  Js.is_string (Js.prop pendingCreds "type") "OneDrive" = true ->
  async_inv (guarded PendingGone code sent) anything
    (after_exchange env pendingCreds ans).
Proof.
  intros Htype. set (P := guarded PendingGone code sent).
  assert (Htol : tolerant P) by apply tolerant_guarded.
  assert (Hrm : forall k w, P w -> P (session_remove k w))
    by (intros; now apply pending_gone_remove).
  assert (Hcatch : forall (A : Type) (r : Js.Completion A),
             match r with
             | Js.Normal _ => anything r
             | Js.Throw e => async_inv P anything (App.callback_catch e)
             end).
  { intros A [a|e]; [exact I | now apply callback_catch_inv]. }
  unfold after_exchange.
  eapply bind_inv with (Q1 := anything); [|intros; now apply ret_inv].
  apply try_catch_inv.
  eapply bindE_inv
    with (Q1 := fun v => Js.truthy (Js.Str (ProfileManager.stringify_text v)) = true).
  { unfold OneDriveOAuthService.token_of_answer.
    destruct ans as [resp|v|e]; try (apply ret_inv; now apply callback_catch_inv).
    destruct (ok resp); cbn [negb]; apply liftE_inv.
    - unfold Js.JSON_parse. destruct (Js.parse (body resp)) as [v|] eqn:Hparse.
      + now apply parsed_text_nonempty in Hparse.
      + now apply callback_catch_inv.
    - match goal with
      | |- context [Js.get _ ?j "error_description"] =>
          destruct (exchange_error_throws (engine env) j (status resp)) as [e ->]
      end.
      now apply callback_catch_inv. }
  intros tokenData Htoken. unfold App.finish_onedrive.
  eapply bind_inv with (Q1 := anything);
    [apply act_inv; [intros; now apply Hrm | exact I]|]. intros _ _.
  eapply bind_inv with (Q1 := anything);
    [apply act_inv; [intros; now apply Hrm | exact I]|]. intros _ _.
  eapply bindE_inv
    with (Q1 := fun onedrive' =>
                  Js.prop onedrive' "authToken"
                  = Js.Str (ProfileManager.stringify_text tokenData)).
  { apply liftE_inv. destruct (Js.set _ _ _ _) as [onedrive'|e] eqn:Hset.
    - now rewrite (set_prop _ _ _ _ _ "authToken" Hset).
    - now apply callback_catch_inv. }
  intros onedrive' Hauth.
  eapply bindE_inv
    with (Q1 := fun creds =>
                  Js.prop creds "type" = Js.prop pendingCreds "type"
                  /\ Js.prop creds "onedrive" = onedrive').
  { apply liftE_inv. destruct (Js.set _ _ _ _) as [creds|e] eqn:Hset.
    - split; [apply (set_prop _ _ _ _ _ "type" Hset)
             | apply (set_prop _ _ _ _ _ "onedrive" Hset)].
    - now apply callback_catch_inv. }
  intros creds [Hctype Hcod].
  eapply bindE_inv with (Q1 := anything).
  { apply save_new_profile_inv; [exact Htol | intros; assumption | intros r; apply Hcatch]. }
  intros _ _. apply try_catch_inv.
  eapply async_inv_weaken; [|apply (handleConnect_inv env P Htol)].
  - intros r ->. exact I.
  - intros w Hw. now apply Hrm.
  - intros p w _ Hw. exact Hw.
  - unfold starts_oauth. rewrite Hcod, Hauth, Htoken.
    cbn [negb]. rewrite andb_false_r. discriminate.
  - rewrite Hctype. destruct (Js.prop pendingCreds "type"); try discriminate.
    cbn [Js.is_string] in Htype |- *. apply String.eqb_eq in Htype as ->. discriminate.
Qed.
Lemma callback_catch_guard (code : string) (sent : list Request) (e : Js.Thrown)
    (w : World) :
  fetches w = sent ->
  guarded PendingGone code sent (fst (App.callback_catch e w))
  /\ snd (App.callback_catch e w) = Done (Js.Normal tt).
Proof.
  intros Hf. unfold App.callback_catch, bind, act, retE, ret. cbn [fst snd then_task].
  split; [|reflexivity]. split; [exact Hf|]. world_simpl.
  unfold Storage.getItem, Storage.removeItem.
  rewrite !lookup_delete_ne by discriminate. now rewrite lookup_delete_eq.
Qed.

(** The first delivery of a code leaves the page guarded against the
    next one, and issues at most one request. *)
Lemma first_delivery (env : Env) (code : string) (w : World) :
  carries_code w code ->
  let r := App.handleOAuthCallback env w in
  exists g reqs,
    length reqs <= 1
    /\ guarded g code (fetches w ++ reqs) (fst r)
    /\ task_inv (guarded g code (fetches w ++ reqs)) anything (snd r).
Proof.
  intros (Herr & Hcode & Htruthy). cbv zeta in *.
  unfold App.handleOAuthCallback. rewrite Herr, Hcode, Htruthy.
  destruct (same_str (Storage.getItem (session w) App.PROCESSED) code) eqn:Hsame.
  { exists CodeMarked, []. rewrite app_nil_r. split; [cbn; lia|].
    split; [split; [reflexivity | exact Hsame] | exact I]. }
  set (w1 := session_set App.PROCESSED code w).
  assert (Hmark : same_str (Storage.getItem (session w1) App.PROCESSED) code = true).
  { subst w1. world_simpl. unfold Storage.getItem, Storage.setItem.
    rewrite lookup_insert_eq. apply String.eqb_refl. }
  destruct (Storage.getItem (session w1) App.PENDING) as [text|] eqn:Htext;
    cbn [truthy_str].
  2:{ exists CodeMarked, []. rewrite app_nil_r. split; [cbn; lia|].
      split; [split; [reflexivity | exact Hmark] | exact I]. }
  destruct (negb (String.eqb text EmptyString)) eqn:Hne.
  2:{ exists CodeMarked, []. rewrite app_nil_r. split; [cbn; lia|].
      split; [split; [reflexivity | exact Hmark] | exact I]. }
  unfold App.callback_try, Js.JSON_parse.
  destruct (Js.parse text) as [pendingCreds|] eqn:Hparse.
  2:{ unfold try_catch, bindE, bind, liftE, throwE, ret. cbn [fst snd then_task].
      destruct (callback_catch_guard code (fetches w) (Js.ErrorObj
                  (Js.syntax_error_message (engine env) text)) w1 eq_refl) as [Hg Hd].
      rewrite Hd. cbn [then_task fst snd].
      exists PendingGone, []. rewrite app_nil_r. split; [cbn; lia|].
      split; [exact Hg | exact I]. }
  unfold try_catch, bindE, bind, liftE, throwE, act, ret. cbn [fst snd then_task].
  set (w2 := setLoading true _).
  assert (Hw2 : fetches w2 = fetches w) by reflexivity.
  assert (Hgone : Storage.getItem (session w2) App.PENDING = None).
  { subst w2. world_simpl. unfold Storage.getItem, Storage.removeItem.
    apply lookup_delete_eq. }
  assert (Hmark2 : same_str (Storage.getItem (session w2) App.PROCESSED) code = true).
  { subst w2 w1. world_simpl. unfold Storage.getItem, Storage.removeItem, Storage.setItem.
    rewrite lookup_delete_ne by discriminate. rewrite lookup_insert_eq.
    apply String.eqb_refl. }
  clearbody w2. unfold Js.get.
  destruct (Js.nullish pendingCreds) eqn:Hnull.
  { cbn [fst snd then_task].
    destruct (callback_catch_guard code (fetches w)
                (Js.ErrorObj (Js.type_error_message (engine env) "type")) w2 Hw2)
      as [Hg Hd].
    rewrite Hd. cbn [then_task fst snd].
    exists PendingGone, []. rewrite app_nil_r. split; [cbn; lia|].
    split; [exact Hg | exact I]. }
  destruct (Js.is_string (Js.prop pendingCreds "type") "OneDrive"
            && Js.truthy (Js.prop pendingCreds "onedrive")) eqn:Hone.
  - (* the OneDrive branch *)
    apply andb_prop in Hone as [Htype Hod].
    unfold App.complete_onedrive.
    destruct (truthy_str (Storage.getItem (session w2) App.VERIFIER)) eqn:Hv;
      cbn [negb].
    + (* the request leaves *)
      set (req := OneDriveOAuthService.exchange_request
                    (App.oauth_service env (Js.prop pendingCreds "onedrive")) code
                    match Storage.getItem (session w2) App.VERIFIER with
                    | Some v => v
                    | None => EmptyString
                    end).
      exists PendingGone, [req]. split; [cbn; lia|].
      unfold bindE, bind, OneDriveOAuthService.exchangeCodeForToken, bind, act, await.
      cbn [fst snd then_task]. fold req.
      split.
      * split; [world_simpl; now rewrite Hw2|]. world_simpl. now rewrite Hgone.
      * cbn [task_inv]. intros ans w' Hw'.
        exact (after_exchange_inv env pendingCreds ans code (fetches w ++ [req])%list
                 Htype w' Hw').
    + unfold throwE, ret. cbn [fst snd then_task].
      destruct (callback_catch_guard code (fetches w)
                  (Js.ErrorObj "PKCE code_verifier not found. Please try logging in again.")
                  w2 Hw2) as [Hg Hd].
      rewrite Hd. cbn [then_task fst snd].
      exists PendingGone, []. rewrite app_nil_r. split; [cbn; lia|].
      split; [exact Hg | exact I].
  - (* any other provider: [handleConnect] *)
    set (P := guarded CodeMarked code (fetches w)).
    assert (HP : P w2) by (split; [exact Hw2 | exact Hmark2]).
    assert (Htol : tolerant P) by apply tolerant_guarded.
    assert (Hinv : async_inv P anything
                     (bind (try_catch (App.handleConnect env pendingCreds)
                              App.callback_catch) (fun _ => ret tt))).
    { eapply bind_inv with (Q1 := anything); [|intros; now apply ret_inv].
      apply try_catch_inv.
      eapply async_inv_weaken; [|apply (handleConnect_inv env P Htol)].
      - intros r ->. exact I.
      - intros w' Hw'. now apply guarded_remove_pending.
      - intros p w' _ Hw'. exact Hw'.
      - unfold starts_oauth. rewrite Hone. discriminate.
      - intros _ t w' [Hf Hm]. split; [exact Hf|]. world_simpl.
        unfold Storage.getItem, Storage.setItem in *. now rewrite lookup_insert_ne. }
    exists CodeMarked, []. rewrite app_nil_r. split; [cbn; lia|].
    exact (Hinv w2 HP).
Qed.

(** *** Deliveries on the page *)

Lemma return_search_parse (code : string) (w : World) :
  URLSearchParams.parse (search (with_search (return_search code) w)) = [("code", code)].
Proof. cbn [search with_search]. apply parse_query_toString. Qed.

Lemma return_search_carries (code : string) (w : World) :
  truthy_str (Some code) = true ->
  carries_code (with_search (return_search code) w) code.
Proof.
  intros H. unfold carries_code. rewrite return_search_parse. cbv zeta.
  repeat split. exact H.
Qed.

(** A marked code is not processed again. *)
Lemma marked_code_skipped (env : Env) (code : string) (w : World) :
  carries_code w code ->
  same_str (Storage.getItem (session w) App.PROCESSED) code = true ->
  App.handleOAuthCallback env w = (w, Done tt).
Proof.
  intros (Herr & Hcode & Htruthy) Hsame. cbv zeta in *.
  unfold App.handleOAuthCallback. now rewrite Herr, Hcode, Htruthy, Hsame.
Qed.

(** Under a guard, a delivery of the code returns at once, issues no
    request and keeps the guard. *)
Lemma guarded_delivery (env : Env) (g : Guard) (code : string) (sent : list Request)
    (w : World) :
  guarded g code sent w ->
  let r := App.handleOAuthCallback env (with_search (return_search code) w) in
  snd r = Done tt /\ guarded g code sent (fst r).
Proof.
  intros [Hf Hg]. cbv zeta.
  set (w0 := with_search (return_search code) w).
  assert (H0 : guarded g code sent w0) by (split; [exact Hf | exact Hg]).
  destruct (truthy_str (Some code)) eqn:Htruthy.
  2:{ unfold App.handleOAuthCallback. subst w0. rewrite return_search_parse.
      cbn [URLSearchParams.get String.eqb Ascii.eqb Bool.eqb truthy_str].
      cbn [truthy_str] in Htruthy. rewrite Htruthy. split; [reflexivity | exact H0]. }
  pose proof (return_search_carries code w Htruthy) as Hcarries. fold w0 in Hcarries.
  destruct (same_str (Storage.getItem (session w0) App.PROCESSED) code) eqn:Hsame.
  { rewrite (marked_code_skipped env code w0 Hcarries Hsame). split; [reflexivity | exact H0]. }
  destruct g.
  - cbv beta iota in Hg. congruence.
  - destruct Hcarries as (Herr & Hcode & _). cbv zeta in *.
    unfold App.handleOAuthCallback. rewrite Herr, Hcode, Htruthy, Hsame.
    assert (Hp : truthy_str
                   (Storage.getItem (session (session_set App.PROCESSED code w0))
                      App.PENDING) = false).
    { world_simpl. unfold Storage.getItem, Storage.setItem in *.
      rewrite lookup_insert_ne by discriminate. exact Hg. }
    rewrite Hp. split; [reflexivity|]. split; [exact Hf|]. cbn [fst]. world_simpl.
    unfold Storage.getItem, Storage.setItem in *.
    rewrite lookup_insert_ne by discriminate. exact Hg.
  - cbv beta iota in Hg. subst w0. cbn [session with_search] in Hsame. congruence.
Qed.

(** What a delivery of any code does on a page without suspended runs. *)
Lemma delivery_guards (env : Env) (code : string) (w : World) :
  let r := App.handleOAuthCallback env (with_search (return_search code) w) in
  exists g reqs,
    length reqs <= 1
    /\ guarded g code (fetches w ++ reqs) (fst r)
    /\ task_inv (guarded g code (fetches w ++ reqs)) anything (snd r).
Proof.
  cbv zeta. destruct (truthy_str (Some code)) eqn:Htruthy.
  - apply (first_delivery env code (with_search (return_search code) w)).
    now apply return_search_carries.
  - exists NoCode, []. rewrite app_nil_r. split; [cbn; lia|].
    assert (Hg : guarded NoCode code (fetches w) w) by (split; [reflexivity | exact Htruthy]).
    destruct (guarded_delivery env NoCode code (fetches w) w Hg) as [Hd Hg'].
    rewrite Hd. split; [exact Hg' | exact I].
Qed.

Lemma step_guarded (env : Env) (g : Guard) (code : string) (sent : list Request)
    (m : Move) (s : Page) :
  page_inv (guarded g code sent) s -> page_inv (guarded g code sent) (step env code m s).
Proof.
  intros [Hw Ht]. destruct m as [|i ans]; cbn [step].
  - destruct (guarded_delivery env g code sent (fst s) Hw) as [Hd Hg].
    split; [exact Hg|]. cbn [snd]. apply Forall_app. split; [exact Ht|].
    rewrite Hd. repeat constructor.
  - destruct (snd s !! i) as [[a|c k]|] eqn:Hi; try (split; assumption).
    pose proof (Forall_lookup_1 _ _ _ _ Ht Hi) as Hk.
    cbn [task_inv] in Hk. destruct (Hk ans (fst s) Hw) as [H1 H2].
    split; [exact H1|]. cbn [snd]. now apply Forall_insert.
Qed.

Lemma play_guarded (env : Env) (g : Guard) (code : string) (sent : list Request)
    (moves : list Move) :
  forall s, page_inv (guarded g code sent) s ->
            page_inv (guarded g code sent) (play env code moves s).
Proof.
  induction moves as [|m moves IH]; intros s Hs; [exact Hs|].
  cbn [play fold_left]. apply IH. now apply step_guarded.
Qed.

(** Once the handler has run for a code, further deliveries of this code
    and resumptions of suspended runs issue no request. *)
Lemma play_after_first (env : Env) (code : string) (moves : list Move) (w : World) :
  List.In Deliver moves ->
  fetches (fst (play env code moves (w, [])))
  = fetches (fst (App.handleOAuthCallback env (with_search (return_search code) w))).
Proof.
  induction moves as [|m moves IH]; intros Hin; [destruct Hin|].
  destruct m as [|i ans].
  - clear IH Hin. cbn [play fold_left step fst snd app].
    destruct (delivery_guards env code w) as (g & reqs & _ & Hg & Ht).
    cbv zeta in Hg, Ht.
    set (r := App.handleOAuthCallback env (with_search (return_search code) w)) in *.
    assert (Hpage : page_inv (guarded g code (fetches w ++ reqs)) (fst r, [snd r])).
    { split; [exact Hg|]. cbn [snd]. repeat constructor. exact Ht. }
    destruct (play_guarded env g code _ moves _ Hpage) as [[Hf _] _].
    fold (play env code moves (fst r, [snd r])). rewrite Hf.
    destruct Hg as [Hf' _]. now rewrite Hf'.
  - destruct Hin as [Hin|Hin]; [discriminate|].
    cbn [play fold_left step fst snd]. rewrite lookup_nil. apply IH, Hin.
Qed.

(** *** Running a task to its end *)

Lemma drive_inv {A} (P : World -> Prop) (Q : A -> Prop) (t : Task A) :
  task_inv P Q t ->
  forall answers w w' a,
    P w -> drive answers t w = Some (w', a) -> P w' /\ Q a.
Proof.
  induction t as [a | c k IH] using task_nested_ind; cbn [task_inv drive].
  - intros Ha answers w w' a' Hw H. injection H as <- <-. now split.
  - intros Hk [|ans rest] w w' a Hw H; [discriminate|].
    destruct (Hk ans w Hw) as [H1 H2]. eapply IH; eauto.
Qed.


(** ** The claims about the exchange *)




(** C1, amended.  The handler runs for a code on a page without
    suspended runs.  This first delivery issues at most one request to
    the token endpoint, and whatever follows (further deliveries of the
    same code, resumptions of suspended runs with any answers) issues
    none.  The first delivery issues exactly one request, the exchange
    of that code, and sets the replay marker to the code, when the code
    is not empty and not yet marked, pending OneDrive credentials are
    stored and the PKCE verifier is present.  A delivery that finds the
    marker equal to the code changes nothing. *)
Theorem repeated_delivery_exchanges_at_most_once
    (env : Env) (code : string) (w : World) :
  let first := App.handleOAuthCallback env (with_search (return_search code) w) in
  (exists reqs,
      fetches (fst first) = (fetches w ++ reqs)%list /\ length reqs <= 1)
  /\ (forall moves,
        List.In Deliver moves ->
        fetches (fst (play env code moves (w, []))) = fetches (fst first))
  /\ (forall pendingCreds verifier,
        truthy_str (Some code) = true ->
        same_str (Storage.getItem (session w) App.PROCESSED) code = false ->
        pending_onedrive w pendingCreds ->
        Storage.getItem (session w) App.VERIFIER = Some verifier ->
        truthy_str (Some verifier) = true ->
        fetches (fst first)
        = (fetches w
           ++ [OneDriveOAuthService.exchange_request
                 (App.oauth_service env (Js.prop pendingCreds "onedrive"))
                 code verifier])%list
        /\ Storage.getItem (session (fst first)) App.PROCESSED = Some code)
  /\ (forall w',
        carries_code w' code ->
        same_str (Storage.getItem (session w') App.PROCESSED) code = true ->
        App.handleOAuthCallback env w' = (w', Done tt)).
Proof.
  cbv zeta. split; [|split; [|split]].
  - destruct (delivery_guards env code w) as (g & reqs & Hlen & [Hf _] & _).
    exists reqs. split; [exact Hf | exact Hlen].
  - intros moves Hin. now apply play_after_first.
  - intros pendingCreds verifier Htruthy Hfresh Hpending Hv Hne.
    destruct (callback_issues_exchange env (with_search (return_search code) w)
                code verifier pendingCreds
                (return_search_carries code w Htruthy) Hfresh Hpending Hv Hne)
      as (k & -> & _).
    cbn [fst]. split; [reflexivity|]. world_simpl.
    unfold Storage.getItem, Storage.removeItem, Storage.setItem.
    rewrite lookup_delete_ne by discriminate. apply lookup_insert_eq.
  - intros w' Hcarries Hsame. exact (marked_code_skipped env code w' Hcarries Hsame).
Qed.

Lemma repeated_delivery_witness :
  let moves := [Deliver; Deliver; Resume 0 (Responded Examples.token_response);
                Resume 0 (Settled Js.Undefined); Deliver] in
  pending_onedrive Examples.world_returning Examples.pending_parsed
  /\ fetches (fst (play Examples.env "abc123" moves (Examples.world_returning, [])))
     = [Examples.token_request].
Proof.
  cbv zeta.
  assert (Hp : pending_onedrive Examples.world_returning Examples.pending_parsed)
    by (exists Examples.pending_text; vm_compute; repeat split).
  split; [exact Hp|].
  destruct (repeated_delivery_exchanges_at_most_once Examples.env "abc123"
              Examples.world_returning) as (_ & Hplay & Hexact & _).
  rewrite Hplay by (left; reflexivity).
  destruct (Hexact Examples.pending_parsed
              "dBjftJeZ4CVP-mB92K27uhbUJU1p1r_wW1gFWFOEjXk"
              eq_refl ltac:(vm_compute; reflexivity) Hp
              ltac:(vm_compute; reflexivity) eq_refl) as [Hf _].
  exact Hf.
Defined.

(** C1 as stated fails: the code [qrs] is delivered twice to a page
    whose store holds no pending credentials; the first delivery marks
    the code, the second is skipped, and the token endpoint is not
    called at all. *)
Lemma two_deliveries_without_pending_no_exchange :
  let s := play Examples.env "qrs" [Deliver; Deliver] (Examples.world0, []) in
  fetches (fst s) = []
  /\ length (fetches (fst s)) <> 1
  /\ Storage.getItem (session (fst s)) App.PROCESSED = Some "qrs".
Proof. vm_compute. repeat split. discriminate. Qed.


(** * Further properties of the code *)

(** ** [OneDriveOAuthService]: the token endpoint *)

(** X1.  [refreshToken] issues one POST whose form-encoded body decodes to
    [client_id], [refresh_token], [redirect_uri] and
    [grant_type=refresh_token], with neither a client secret nor a
    code verifier.  A response that is not [ok] makes it throw
    [Token refresh failed (<status>): <body>]; a response that is [ok]
    gives the parsed body; a rejected [fetch] is thrown again. *)
Theorem refreshToken_request_and_outcome
    (eng : Js.Engine) (this : OneDriveOAuthService.t) (token : string) (w : World) :
  let req := OneDriveOAuthService.refresh_request this token in
  exists k,
    OneDriveOAuthService.refreshToken eng this token w
    = (with_fetch req w, Await (Fetch req) k)
    /\ req_url req = OneDriveOAuthService.tokenUrl
    /\ form_post req
         [ ("client_id", OneDriveOAuthService.clientId this);
           ("refresh_token", token);
           ("redirect_uri", OneDriveOAuthService.redirectUri this);
           ("grant_type", "refresh_token") ]
    /\ URLSearchParams.get (URLSearchParams.parse (req_body req)) "client_secret" = None
    /\ URLSearchParams.get (URLSearchParams.parse (req_body req)) "code_verifier" = None
    /\ (forall resp w',
          k (Responded resp) w'
          = (w', Done (if ok resp then Js.JSON_parse eng (body resp)
                       else Js.Throw
                              (Js.ErrorObj ("Token refresh failed (" +:+ status resp
                                            +:+ "): " +:+ body resp)))))
    /\ (forall e w', k (Rejected e) w' = (w', Done (Js.Throw e))).
Proof.
  cbv zeta. eexists. split; [reflexivity|]. split; [reflexivity|].
  split.
  { unfold form_post.
    cbn [OneDriveOAuthService.refresh_request req_method req_headers req_body].
    rewrite parse_toString. repeat split; reflexivity. }
  cbn [OneDriveOAuthService.refresh_request req_body]. rewrite parse_toString.
  split; [reflexivity|]. split; [reflexivity|].
  split.
  - intros resp w'. cbn [fst snd then_task].
    unfold OneDriveOAuthService.refreshed_of_answer. destruct (ok resp); reflexivity.
  - intros e w'. reflexivity.
Qed.



(** X3.  The authorization URL is the consumers authorize endpoint followed
    by a query that decodes to exactly seven parameters: the client id
    and the redirect URI as they were given (whatever characters they
    hold), the fixed scope, [response_type=code], [prompt=login], the
    challenge and its method.  There is no [state] parameter and no
    client secret. *)
Theorem auth_url_parameters (this : OneDriveOAuthService.t) (rnd : RandomSource) :
  let r := OneDriveOAuthService.getAuthUrlWithPKCE this rnd in
  let verifier := OneDriveOAuthService.codeVerifier r in
  verifier = OneDriveOAuthService.generateCodeVerifier rnd
  /\ (exists query,
        OneDriveOAuthService.authUrl r
        = OneDriveOAuthService.authorize_endpoint +:+ "?" +:+ query)
  /\ URL.searchParams (OneDriveOAuthService.authUrl r)
     = [ ("client_id", OneDriveOAuthService.clientId this);
         ("scope", OneDriveOAuthService.scope this);
         ("response_type", "code");
         ("redirect_uri", OneDriveOAuthService.redirectUri this);
         ("prompt", "login");
         ("code_challenge", OneDriveOAuthService.generateCodeChallenge verifier);
         ("code_challenge_method", "S256") ]
  /\ URLSearchParams.get (URL.searchParams (OneDriveOAuthService.authUrl r)) "state" = None
  /\ URLSearchParams.get (URL.searchParams (OneDriveOAuthService.authUrl r))
       "client_secret" = None.
Proof.
  cbv zeta. unfold OneDriveOAuthService.getAuthUrlWithPKCE.
  cbn [OneDriveOAuthService.authUrl OneDriveOAuthService.codeVerifier].
  rewrite searchParams_of_toString by reflexivity.
  split; [reflexivity|]. split; [eexists; reflexivity|].
  repeat split; reflexivity.
Qed.

(** ** [ProfileManager]: what is stored is read back *)

Lemma prune_defined (v : Js.value) : v <> Js.Undefined -> prune v <> Js.Undefined.
Proof. destruct v; intros H; try discriminate; congruence. Qed.

Lemma kept_pruned (props : list (string * Js.value)) :
  kept (map (fun kv => (fst kv, prune (snd kv))) (kept props))
  = map (fun kv => (fst kv, prune (snd kv))) (kept props).
Proof.
  induction props as [|[k x] props IH]; [reflexivity|].
  cbn [kept]. destruct x; try exact IH; cbn [map fst snd kept prune]; now rewrite IH.
Qed.

Lemma map_fst_pruned (props : list (string * Js.value)) :
  map fst (map (fun kv : string * Js.value => (fst kv, prune (snd kv))) props)
  = map fst props.
Proof. rewrite map_map. reflexivity. Qed.

(** Pruning twice is pruning once, and a printable value stays
    printable. *)
Lemma prune_stable (v : Js.value) :
  prune (prune v) = prune v
  /\ (printable v = true -> printable (prune v) = true).
Proof.
  induction v as [| | b | lit | s | elems extra IH | props IH] using value_nested_ind;
    try (split; [reflexivity | auto]).
  - rewrite !prune_arr. split.
    + f_equal. rewrite map_map. apply map_ext_Forall.
      eapply Forall_impl; [exact IH|]. intros e [He _].
      destruct e; try reflexivity; exact He.
    + cbn [printable]. rewrite !forallb_forall. intros Hp e Hin.
      apply in_map_iff in Hin as (e0 & <- & Hin0).
      specialize (Hp e0 Hin0).
      rewrite List.Forall_forall in IH.
      destruct (IH e0 Hin0) as [_ Hpr].
      destruct e0; try reflexivity; cbn [prune_slot]; exact (Hpr Hp).
  - rewrite !prune_obj. split.
    + rewrite kept_pruned. f_equal. rewrite map_map. cbn [fst snd].
      apply map_ext_Forall.
      pose proof (kept_forall
                    (fun x => prune (prune x) = prune x
                              /\ (printable x = true -> printable (prune x) = true))
                    props IH) as IHk.
      eapply Forall_impl; [exact IHk|]. intros [k x] [Hx _]. cbn [fst snd] in *.
      now rewrite Hx.
    + cbn [printable]. intros [Hd Hv]%andb_prop. apply andb_true_intro. split.
      * now rewrite kept_pruned, map_fst_pruned.
      * rewrite forallb_forall. intros [k y] Hin.
        apply in_map_iff in Hin as ([k0 x] & [= <- <-] & Hin0). cbn [fst snd] in *.
        pose proof (kept_printable props Hv) as Hpr.
        pose proof (kept_forall
                      (fun x => prune (prune x) = prune x
                                /\ (printable x = true -> printable (prune x) = true))
                      props IH) as Hih.
        rewrite List.Forall_forall in Hpr, Hih.
        specialize (Hpr _ Hin0). specialize (Hih _ Hin0). cbn [snd] in *.
        destruct Hih as [_ Hih]. specialize (Hih Hpr).
        destruct (prune x); try reflexivity; exact Hih.
Qed.

Lemma getProfile_saved (eng : Js.Engine) (props : list (string * Js.value))
    (ls : gmap string string) :
  printable (Js.Obj props) = true ->
  ProfileManager.getProfile
    (fst (ProfileManager.saveProfile eng (Js.Obj props) ls))
    (Js.to_string (Js.prop (Js.Obj props) "id"))
  = prune (Js.Obj props).
Proof.
  intros Hp. rewrite saveProfile_object. cbn [fst].
  unfold ProfileManager.getProfile, Storage.getItem, Storage.setItem.
  rewrite lookup_insert_eq.
  destruct (stringify_text_object props) as [r Hr]. rewrite Hr.
  cbn [truthy_str String.eqb negb]. rewrite <- Hr.
  assert (Ht : Js.stringify (Js.Obj props)
               = Some (ProfileManager.stringify_text (Js.Obj props)))
    by (unfold ProfileManager.stringify_text; now rewrite stringify_obj).
  now rewrite (parse_stringify _ _ Hp Ht).
Qed.

Lemma credentials_shape (c : Credentials.t) :
  exists cprops,
    Credentials.to_js c = Js.Obj cprops
    /\ Js.lookup cprops "type" = Some (Js.Str (Credentials.type_name (Credentials.type c))).
Proof. eexists. split; reflexivity. Qed.

Lemma of_js_prop (v : Js.value) (k : string) (props : list (string * Js.value)) :
  v = Js.Obj props -> Credentials.field v k = Js.prop v k.
Proof. intros ->. reflexivity. Qed.

(** X4.  A profile made by [createProfile] for credentials of the form's
    type, saved and made active as [handleConnect] does, is the active
    profile the next page load reads: same id, type and creation stamp,
    [lastUsed] set by [setActiveProfile], and credentials equal to the
    original in every field.  The stamps are integers, as [Date.now()]
    prints them. *)
Theorem saved_profile_is_read_back
    (eng : Js.Engine) (seed : Seed) (stamp : string) (c : Credentials.t)
    (ls : gmap string string) :
  plain_integer (lastUsed_now seed) = true ->
  plain_integer (createdAt_now seed) = true ->
  plain_integer stamp = true ->
  let id := "profile_" +:+ id_now seed +:+ "_" +:+ id_random seed in
  exists profile,
    ProfileManager.createProfile eng seed (Credentials.to_js c) None = Js.Normal profile
    /\ Js.prop profile "id" = Js.Str id
    /\ let ls1 := fst (ProfileManager.saveProfile eng profile ls) in
       let r := ProfileManager.setActiveProfile eng stamp ls1 id in
       let active := ProfileManager.getActiveProfile (fst r) in
       snd r = Js.Normal tt
       /\ ProfileManager.getActiveProfileId (fst r) = Some id
       /\ Js.prop active "id" = Js.Str id
       /\ Js.prop active "type" = Js.Str (Credentials.type_name (Credentials.type c))
       /\ Js.prop active "lastUsed" = Js.Num stamp
       /\ Js.prop active "createdAt" = Js.Num (createdAt_now seed)
       /\ Credentials.of_js (Js.prop active "credentials") = Some c.
Proof.
  intros H1 H2 H3. cbv zeta.
  destruct (credentials_ok c) as [Hcp Hcr].
  destruct (prune_stable (Credentials.to_js c)) as [Hidem Hpp]. specialize (Hpp Hcp).
  destruct (credentials_shape c) as (cprops & Hshape & Htype).
  unfold ProfileManager.createProfile, Js.get. rewrite Hshape in *.
  cbn [Js.nullish truthy_str Js.bind Js.prop]. rewrite Htype. cbn [Js.to_string].
  eexists. split; [reflexivity|].
  set (id := "profile_" +:+ id_now seed +:+ "_" +:+ id_random seed).
  set (name := Credentials.type_name (Credentials.type c) +:+ " - " +:+ today seed).
  set (props := [("id", Js.Str id); ("name", Js.Str name);
                 ("type", Js.Str (Credentials.type_name (Credentials.type c)));
                 ("credentials", Js.Obj cprops);
                 ("lastUsed", Js.Num (lastUsed_now seed));
                 ("createdAt", Js.Num (createdAt_now seed))]).
  split; [reflexivity|].
  assert (Hp : printable (Js.Obj props) = true).
  { subst props. cbn [printable kept map fst distinct existsb forallb String.eqb
                        Ascii.eqb Bool.eqb negb andb orb].
    cbn [printable] in Hcp. rewrite Hcp, H1, H2. reflexivity. }
  set (q := prune (Js.Obj cprops)) in *.
  assert (Hq : exists qprops, q = Js.Obj qprops)
    by (subst q; rewrite prune_obj; eauto).
  destruct Hq as [qprops Hq].
  assert (Hprune : prune (Js.Obj props)
                   = Js.Obj [("id", Js.Str id); ("name", Js.Str name);
                             ("type", Js.Str (Credentials.type_name (Credentials.type c)));
                             ("credentials", q);
                             ("lastUsed", Js.Num (lastUsed_now seed));
                             ("createdAt", Js.Num (createdAt_now seed))]).
  { rewrite prune_obj. subst props. cbn [kept map fst snd]. reflexivity. }
  pose proof (getProfile_saved eng props ls Hp) as Hget.
  rewrite saveProfile_object in Hget |- *. cbn [fst] in Hget |- *.
  change (Js.to_string (Js.prop (Js.Obj props) "id")) with id in Hget |- *.
  set (key := ProfileManager.STORAGE_KEY_PREFIX +:+ id) in *.
  set (ls1 := Storage.setItem ls key _) in *.
  assert (Hkey : key <> ProfileManager.ACTIVE_PROFILE_KEY)
    by apply profile_key_not_active.
  (* [setActiveProfile] *)
  unfold ProfileManager.setActiveProfile.
  assert (Hget1 : ProfileManager.getProfile
                    (Storage.setItem ls1 ProfileManager.ACTIVE_PROFILE_KEY id) id
                  = prune (Js.Obj props)).
  { rewrite <- Hget. unfold ProfileManager.getProfile, Storage.getItem, Storage.setItem.
    fold key. now rewrite lookup_insert_ne by congruence. }
  rewrite Hget1, Hprune. cbn [Js.truthy Js.set Js.define String.eqb Ascii.eqb Bool.eqb].
  set (props2 := [("id", Js.Str id); ("name", Js.Str name);
                  ("type", Js.Str (Credentials.type_name (Credentials.type c)));
                  ("credentials", q);
                  ("lastUsed", Js.Num stamp);
                  ("createdAt", Js.Num (createdAt_now seed))]).
  assert (Hp2 : printable (Js.Obj props2) = true).
  { subst props2. rewrite Hq in *.
    cbn [printable kept map fst distinct existsb forallb String.eqb
           Ascii.eqb Bool.eqb negb andb orb].
    cbn [printable] in Hpp. rewrite Hpp, H3, H2. reflexivity. }
  pose proof (getProfile_saved eng props2
                (Storage.setItem ls1 ProfileManager.ACTIVE_PROFILE_KEY id) Hp2) as Hget2.
  rewrite saveProfile_object in Hget2 |- *. cbn [fst snd] in Hget2 |- *.
  change (Js.to_string (Js.prop (Js.Obj props2) "id")) with id in Hget2 |- *.
  fold key in Hget2 |- *.
  split; [reflexivity|].
  assert (Hact : ProfileManager.getActiveProfileId
                   (Storage.setItem
                      (Storage.setItem ls1 ProfileManager.ACTIVE_PROFILE_KEY id) key
                      (ProfileManager.stringify_text (Js.Obj props2)))
                 = Some id).
  { unfold ProfileManager.getActiveProfileId, Storage.getItem, Storage.setItem.
    rewrite lookup_insert_ne by congruence. apply lookup_insert_eq. }
  split; [exact Hact|].
  unfold ProfileManager.getActiveProfile. rewrite Hact.
  assert (Hid : truthy_str (Some id) = true) by reflexivity.
  rewrite Hid. cbn [negb]. rewrite Hget2.
  assert (Hprune2 : prune (Js.Obj props2)
                    = Js.Obj [("id", Js.Str id); ("name", Js.Str name);
                              ("type", Js.Str (Credentials.type_name (Credentials.type c)));
                              ("credentials", prune q);
                              ("lastUsed", Js.Num stamp);
                              ("createdAt", Js.Num (createdAt_now seed))]).
  { rewrite prune_obj. subst props2. rewrite Hq. cbn [kept map fst snd]. reflexivity. }
  rewrite Hprune2. cbn [Js.prop Js.lookup String.eqb Ascii.eqb Bool.eqb].
  repeat split. subst q. now rewrite Hidem.
Qed.

Lemma saved_profile_witness :
  let active :=
    ProfileManager.getActiveProfile
      (fst (ProfileManager.setActiveProfile Examples.engine "1700000000003"
              (fst (ProfileManager.saveProfile Examples.engine
                      (Js.Obj [("id", Js.Str "profile_1700000000000_k3x9q2m1z");
                               ("name", Js.Str "OneDrive - 11/14/2023");
                               ("type", Js.Str "OneDrive");
                               ("credentials",
                                Credentials.to_js Examples.onedrive_credentials);
                               ("lastUsed", Js.Num "1700000000001");
                               ("createdAt", Js.Num "1700000000002")]) ∅))
              "profile_1700000000000_k3x9q2m1z")) in
  Js.prop active "lastUsed" = Js.Num "1700000000003"
  /\ Credentials.of_js (Js.prop active "credentials") = Some Examples.onedrive_credentials.
Proof.
  cbv zeta.
  destruct (saved_profile_is_read_back Examples.engine Examples.seed0 "1700000000003"
              Examples.onedrive_credentials ∅ eq_refl eq_refl eq_refl)
    as (profile & Hcreate & _ & _ & _ & _ & _ & Hlast & _ & Hcred).
  injection Hcreate as <-. split; [exact Hlast | exact Hcred].
Defined.

(** X5.  [deleteProfile(id)] touches the record of [id] and the active
    pointer only: every other key of [localStorage], and so every other
    profile, is as before.  Deleting an id that has no record and is
    not active changes nothing, and deleting twice is deleting once. *)
Theorem deleteProfile_frame (ls : gmap string string) (profileId : string) :
  (forall k,
      k <> ProfileManager.STORAGE_KEY_PREFIX +:+ profileId ->
      k <> ProfileManager.ACTIVE_PROFILE_KEY ->
      Storage.getItem (ProfileManager.deleteProfile ls profileId) k
      = Storage.getItem ls k)
  /\ (forall other,
        other <> profileId ->
        ProfileManager.getProfile (ProfileManager.deleteProfile ls profileId) other
        = ProfileManager.getProfile ls other)
  /\ (Storage.getItem ls (ProfileManager.STORAGE_KEY_PREFIX +:+ profileId) = None ->
      ProfileManager.getActiveProfileId ls <> Some profileId ->
      ProfileManager.deleteProfile ls profileId = ls)
  /\ ProfileManager.deleteProfile (ProfileManager.deleteProfile ls profileId) profileId
     = ProfileManager.deleteProfile ls profileId.
Proof.
  pose proof (profile_key_not_active profileId) as Hkey.
  assert (Hact : forall m : gmap string string,
             ProfileManager.getActiveProfileId
               (Storage.removeItem m (ProfileManager.STORAGE_KEY_PREFIX +:+ profileId))
             = ProfileManager.getActiveProfileId m).
  { intros m. unfold ProfileManager.getActiveProfileId, Storage.getItem, Storage.removeItem.
    now rewrite lookup_delete_ne. }
  assert (Hframe : forall k,
             k <> ProfileManager.STORAGE_KEY_PREFIX +:+ profileId ->
             k <> ProfileManager.ACTIVE_PROFILE_KEY ->
             Storage.getItem (ProfileManager.deleteProfile ls profileId) k
             = Storage.getItem ls k).
  { intros k Hk Ha. unfold ProfileManager.deleteProfile. rewrite Hact.
    destruct (same_str _ _);
      unfold ProfileManager.clearActiveProfile, Storage.getItem, Storage.removeItem;
      now rewrite ?lookup_delete_ne by congruence. }
  assert (Hnoop : forall m : gmap string string,
             Storage.getItem m (ProfileManager.STORAGE_KEY_PREFIX +:+ profileId) = None ->
             ProfileManager.getActiveProfileId m <> Some profileId ->
             ProfileManager.deleteProfile m profileId = m).
  { intros m Hnone Hnot. unfold ProfileManager.deleteProfile. rewrite Hact.
    destruct (same_str _ _) eqn:Hs; [apply same_str_true in Hs; congruence|].
    unfold Storage.removeItem, Storage.getItem in *. now apply delete_id. }
  split; [exact Hframe|]. split; [|split; [apply Hnoop|]].
  - intros other Hne. unfold ProfileManager.getProfile.
    rewrite Hframe; [reflexivity | | apply profile_key_not_active].
    intros E. apply str_app_inj_r in E. congruence.
  - apply Hnoop.
    + unfold ProfileManager.deleteProfile. rewrite Hact.
      destruct (same_str _ _);
        unfold ProfileManager.clearActiveProfile, Storage.getItem, Storage.removeItem;
        rewrite ?lookup_delete_ne by congruence; apply lookup_delete_eq.
    + unfold ProfileManager.deleteProfile. rewrite Hact.
      destruct (same_str (ProfileManager.getActiveProfileId ls) profileId) eqn:Hs.
      * unfold ProfileManager.getActiveProfileId, ProfileManager.clearActiveProfile,
          Storage.getItem, Storage.removeItem.
        rewrite lookup_delete_eq. discriminate.
      * rewrite Hact. intros E. apply same_str_true in E. congruence.
Qed.

(** ** [ProfileManager]: updating a stored profile *)

(** X6.  [updateOneDriveToken(id, token)] changes nothing when no profile is
    stored under [id], and nothing when the stored profile has
    credentials without a OneDrive section.  Otherwise it writes, under
    the profile's own id, the stored profile with
    [credentials.onedrive.authToken] replaced by the token and
    [lastUsed] set: every other property of the profile, of its
    credentials and of the OneDrive section is as it was stored. *)
Theorem updateOneDriveToken_outcome
    (eng : Js.Engine) (stamp : string) (ls : gmap string string)
    (profileId token : string) :
  let profile := ProfileManager.getProfile ls profileId in
  let r := ProfileManager.updateOneDriveToken eng stamp ls profileId token in
  (Js.truthy profile = false -> r = (ls, Js.Normal tt))
  /\ (Js.truthy profile = true ->
      Js.nullish (Js.prop profile "credentials") = false ->
      Js.truthy (Js.prop (Js.prop profile "credentials") "onedrive") = false ->
      r = (ls, Js.Normal tt))
  /\ (forall pp cp od,
        profile = Js.Obj pp ->
        Js.prop profile "credentials" = Js.Obj cp ->
        Js.prop (Js.Obj cp) "onedrive" = Js.Obj od ->
        exists profile',
          r = (Storage.setItem ls
                 (ProfileManager.STORAGE_KEY_PREFIX
                  +:+ Js.to_string (Js.prop profile "id"))
                 (ProfileManager.stringify_text profile'),
               Js.Normal tt)
          /\ Js.prop (Js.prop (Js.prop profile' "credentials") "onedrive") "authToken"
             = Js.Str token
          /\ Js.prop profile' "lastUsed" = Js.Num stamp
          /\ (forall k, k <> "authToken" ->
                Js.prop (Js.prop (Js.prop profile' "credentials") "onedrive") k
                = Js.prop (Js.Obj od) k)
          /\ (forall k, k <> "onedrive" ->
                Js.prop (Js.prop profile' "credentials") k = Js.prop (Js.Obj cp) k)
          /\ (forall k, k <> "credentials" -> k <> "lastUsed" ->
                Js.prop profile' k = Js.prop profile k)).
Proof.
  cbv zeta. unfold ProfileManager.updateOneDriveToken.
  set (profile := ProfileManager.getProfile ls profileId).
  split; [intros ->; reflexivity|]. split.
  - intros -> Hn Hf. unfold Js.get. rewrite Hn, Hf. reflexivity.
  - intros pp cp od Hp Hc Ho. rewrite Hp in *. rewrite Hc.
    unfold Js.get. cbn [Js.truthy Js.nullish]. rewrite Ho.
    cbn [Js.truthy Js.set Js.bind].
    set (od' := Js.define od "authToken" (Js.Str token)).
    set (cp' := Js.define cp "onedrive" (Js.Obj od')).
    set (pp1 := Js.define pp "credentials" (Js.Obj cp')).
    set (pp2 := Js.define pp1 "lastUsed" (Js.Num stamp)).
    exists (Js.Obj pp2). rewrite saveProfile_object.
    assert (Hprop : forall k,
               Js.prop (Js.Obj pp2) k
               = if String.eqb "lastUsed" k then Js.Num stamp
                 else if String.eqb "credentials" k then Js.Obj cp'
                      else Js.prop (Js.Obj pp) k).
    { intros k. subst pp2 pp1. cbn [Js.prop]. rewrite !lookup_define.
      destruct (String.eqb "lastUsed" k); [reflexivity|].
      destruct (String.eqb "credentials" k); reflexivity. }
    assert (Hcprop : forall k,
               Js.prop (Js.Obj cp') k
               = if String.eqb "onedrive" k then Js.Obj od' else Js.prop (Js.Obj cp) k).
    { intros k. subst cp'. cbn [Js.prop]. rewrite lookup_define.
      destruct (String.eqb "onedrive" k); reflexivity. }
    assert (Hoprop : forall k,
               Js.prop (Js.Obj od') k
               = if String.eqb "authToken" k then Js.Str token else Js.prop (Js.Obj od) k).
    { intros k. subst od'. cbn [Js.prop]. rewrite lookup_define.
      destruct (String.eqb "authToken" k); reflexivity. }
    split.
    { rewrite (Hprop "id"). reflexivity. }
    rewrite !(Hprop "credentials"), (Hprop "lastUsed").
    cbn [String.eqb Ascii.eqb Bool.eqb]. rewrite !(Hcprop "onedrive").
    cbn [String.eqb Ascii.eqb Bool.eqb].
    split; [now rewrite (Hoprop "authToken")|]. split; [reflexivity|].
    split; [|split].
    + intros k Hk. rewrite Hoprop. destruct (String.eqb_spec "authToken" k); congruence.
    + intros k Hk. rewrite Hcprop. destruct (String.eqb_spec "onedrive" k); congruence.
    + intros k Hk1 Hk2. rewrite Hprop.
      destruct (String.eqb_spec "lastUsed" k); [congruence|].
      destruct (String.eqb_spec "credentials" k); congruence.
Qed.

(** X7.  [updateProfileCredentials(id, credentials)] changes nothing when no
    profile is stored under [id].  Otherwise it writes, under the
    profile's own id, the stored profile with its credentials replaced
    and [lastUsed] set, every other property as it was stored; the
    active-profile pointer is never touched. *)
Theorem updateProfileCredentials_outcome
    (eng : Js.Engine) (stamp : string) (ls : gmap string string)
    (profileId : string) (credentials : Js.value) :
  let profile := ProfileManager.getProfile ls profileId in
  let r := ProfileManager.updateProfileCredentials eng stamp ls profileId credentials in
  (Js.truthy profile = false -> r = (ls, Js.Normal tt))
  /\ (forall pp,
        profile = Js.Obj pp ->
        exists profile',
          r = (Storage.setItem ls
                 (ProfileManager.STORAGE_KEY_PREFIX
                  +:+ Js.to_string (Js.prop profile' "id"))
                 (ProfileManager.stringify_text profile'),
               Js.Normal tt)
          /\ Js.prop profile' "credentials" = credentials
          /\ Js.prop profile' "lastUsed" = Js.Num stamp
          /\ (forall k, k <> "credentials" -> k <> "lastUsed" ->
                Js.prop profile' k = Js.prop profile k)
          /\ ProfileManager.getActiveProfileId (fst r)
             = ProfileManager.getActiveProfileId ls).
Proof.
  cbv zeta. unfold ProfileManager.updateProfileCredentials.
  set (profile := ProfileManager.getProfile ls profileId).
  split; [intros ->; reflexivity|].
  intros pp Hp. rewrite Hp. cbn [Js.truthy Js.set].
  set (pp1 := Js.define pp "credentials" credentials).
  set (pp2 := Js.define pp1 "lastUsed" (Js.Num stamp)).
  exists (Js.Obj pp2). rewrite saveProfile_object.
  assert (Hprop : forall k,
             Js.prop (Js.Obj pp2) k
             = if String.eqb "lastUsed" k then Js.Num stamp
               else if String.eqb "credentials" k then credentials
                    else Js.prop (Js.Obj pp) k).
  { intros k. subst pp2 pp1. cbn [Js.prop]. rewrite !lookup_define.
    destruct (String.eqb "lastUsed" k); [reflexivity|].
    destruct (String.eqb "credentials" k); reflexivity. }
  split; [reflexivity|].
  split; [now rewrite (Hprop "credentials")|].
  split; [now rewrite (Hprop "lastUsed")|]. split.
  - intros k Hk1 Hk2. rewrite Hprop.
    destruct (String.eqb_spec "lastUsed" k); [congruence|].
    destruct (String.eqb_spec "credentials" k); congruence.
  - cbn [fst]. unfold ProfileManager.getActiveProfileId, Storage.getItem, Storage.setItem.
    apply lookup_insert_ne. apply profile_key_not_active.
Qed.


(** ** Running asynchronous code with given answers *)

Lemma steps_drive {A} (t : Task A) :
  forall answers w,
    drive answers t w
    = match steps answers t w with
      | Some (w', a, _) => Some (w', a)
      | None => None
      end.
Proof.
  induction t as [a | c k IH] using task_nested_ind; intros answers w; [reflexivity|].
  cbn [drive steps]. destruct answers as [|ans rest]; [reflexivity|]. apply IH.
Qed.

Lemma run_run_steps {A} (m : Async A) (answers : list Answer) (w : World) :
  run m answers w
  = match run_steps m answers w with
    | Some (w', a, _) => Some (w', a)
    | None => None
    end.
Proof. apply steps_drive. Qed.

Lemma steps_then_task {A B} (t : Task A) (f : A -> Async B) :
  forall answers w,
    steps answers (snd (then_task t f w)) (fst (then_task t f w))
    = match steps answers t w with
      | Some (w1, a, rest) => run_steps (f a) rest w1
      | None => None
      end.
Proof.
  induction t as [a | c k IH] using task_nested_ind; intros answers w; [reflexivity|].
  cbn [then_task fst snd steps]. destruct answers as [|ans rest]; [reflexivity|].
  apply IH.
Qed.

Lemma run_steps_bind {A B} (m : Async A) (f : A -> Async B)
    (answers : list Answer) (w : World) :
  run_steps (bind m f) answers w
  = match run_steps m answers w with
    | Some (w1, a, rest) => run_steps (f a) rest w1
    | None => None
    end.
Proof. unfold run_steps at 1, bind. cbv zeta. apply steps_then_task. Qed.

Lemma run_steps_ret {A} (a : A) (answers : list Answer) (w : World) :
  run_steps (ret a) answers w = Some (w, a, answers).
Proof. reflexivity. Qed.

Lemma run_steps_act (f : World -> World) (answers : list Answer) (w : World) :
  run_steps (act f) answers w = Some (f w, tt, answers).
Proof. reflexivity. Qed.

Lemma run_steps_await (c : Call) (answers : list Answer) (w : World) :
  run_steps (await c) answers w
  = match answers with
    | [] => None
    | ans :: rest => Some (w, ans, rest)
    end.
Proof. unfold run_steps, await. cbn. destruct answers; reflexivity. Qed.

Lemma run_steps_bindE {A B} (m : AsyncE A) (f : A -> AsyncE B)
    (answers : list Answer) (w : World) :
  run_steps (bindE m f) answers w
  = match run_steps m answers w with
    | Some (w1, Js.Normal a, rest) => run_steps (f a) rest w1
    | Some (w1, Js.Throw e, rest) => Some (w1, Js.Throw e, rest)
    | None => None
    end.
Proof.
  unfold bindE. rewrite run_steps_bind.
  destruct (run_steps m answers w) as [[[w1 [a|e]] rest]|]; reflexivity.
Qed.

Lemma run_steps_try_catch {A} (body : AsyncE A) (handler : Js.Thrown -> AsyncE A)
    (answers : list Answer) (w : World) :
  run_steps (try_catch body handler) answers w
  = match run_steps body answers w with
    | Some (w1, Js.Normal a, rest) => Some (w1, Js.Normal a, rest)
    | Some (w1, Js.Throw e, rest) => run_steps (handler e) rest w1
    | None => None
    end.
Proof.
  unfold try_catch. rewrite run_steps_bind.
  destruct (run_steps body answers w) as [[[w1 [a|e]] rest]|]; reflexivity.
Qed.

Lemma run_steps_finally {A} (body : AsyncE A) (cleanup : World -> World)
    (answers : list Answer) (w : World) :
  run_steps (finally body cleanup) answers w
  = match run_steps body answers w with
    | Some (w1, r, rest) => Some (cleanup w1, r, rest)
    | None => None
    end.
Proof.
  unfold finally. rewrite run_steps_bind.
  destruct (run_steps body answers w) as [[[w1 r] rest]|]; reflexivity.
Qed.

(** ** [JoplinApiService]: reading items *)

Lemma getItems_steps (env : Env) (answers : list Answer) (w : World) :
  run_steps (JoplinApiService.getItems env) answers w
  = if connected_api (api w) then
      match answers with
      | [] => None
      | ans :: rest => Some (w, items_of_answer env ans, rest)
      end
    else Some (w, Js.Throw (Js.ErrorObj NOT_CONNECTED), answers).
Proof.
  unfold JoplinApiService.getItems. rewrite run_steps_try_catch.
  unfold run_steps at 1, JoplinApiService.getItems_body, connected_api.
  destruct (storage (api w)) as [h|]; [|reflexivity].
  destruct (initialized (api w)); [|reflexivity].
  cbn [negb]. unfold bind, await. cbn [fst snd then_task steps].
  destruct answers as [|ans rest]; [reflexivity|].
  destruct ans as [r|v|e]; try reflexivity.
  destruct v; reflexivity.
Qed.

(** X8.  [getItems()] on a service that is not connected fails at once,
    without a call to the library.  On a connected service it makes one
    call, for all items with [unserializeAll], uses one answer and
    leaves the state as it is: an array gives its elements without the
    [null] ones, in order; a rejection with an [Error] is rethrown as
    [Failed to get items: <message>]; whatever is thrown is an [Error]
    with that prefix, and a result never holds [null]. *)
Theorem getItems_outcome (env : Env) (w : World) :
  (connected_api (api w) = false ->
   JoplinApiService.getItems env w = (w, Done (Js.Throw (Js.ErrorObj NOT_CONNECTED))))
  /\ (connected_api (api w) = true ->
      (exists handle k,
          storage (api w) = Some handle
          /\ JoplinApiService.getItems env w
             = (w, Await (StorageGetItems handle
                            (Js.Obj [("unserializeAll", Js.Bool true);
                                     ("ids", Js.Undefined)])) k))
      /\ forall ans rest,
          exists r,
            run_steps (JoplinApiService.getItems env) (ans :: rest) w = Some (w, r, rest)
            /\ (forall elems extra,
                   ans = Settled (Js.Arr elems extra) ->
                   r = Js.Normal (List.filter JoplinApiService.not_null elems))
            /\ (forall m,
                   ans = Rejected (Js.ErrorObj m) ->
                   r = Js.Throw (Js.ErrorObj ("Failed to get items: " +:+ m)))
            /\ (forall items,
                   r = Js.Normal items -> Forall (fun item => item <> Js.Null) items)
            /\ (forall e,
                   r = Js.Throw e ->
                   exists m, e = Js.ErrorObj ("Failed to get items: " +:+ m))).
Proof.
  split.
  - unfold connected_api, JoplinApiService.getItems, JoplinApiService.getItems_body,
      try_catch, bind.
    destruct (storage (api w)) as [h|]; [|reflexivity].
    intros ->. reflexivity.
  - intros Hc. split.
    + unfold connected_api in Hc.
      unfold JoplinApiService.getItems, JoplinApiService.getItems_body, try_catch, bind.
      destruct (storage (api w)) as [h|]; [|discriminate]. rewrite Hc.
      cbn. eexists _, _. split; reflexivity.
    + intros ans rest. rewrite getItems_steps, Hc.
      eexists. split; [reflexivity|].
      split; [intros elems extra ->; reflexivity|].
      split; [intros m ->; reflexivity|].
      split.
      * intros items Hr. destruct ans as [r|v|e]; try discriminate.
        destruct v; try discriminate. injection Hr as <-.
        apply List.Forall_forall. intros x Hx. apply List.filter_In in Hx.
        destruct Hx as [_ Hx]. intros ->. discriminate.
      * intros e Hr. destruct ans as [r|v|e0]; cbn in Hr.
        -- injection Hr as <-. eauto.
        -- destruct v; try discriminate; injection Hr as <-; eauto.
        -- injection Hr as <-. eauto.
Qed.

Lemma has_type_not_null (lit : string) (item : Js.value) :
  has_type lit item = true -> Js.nullish item = false.
Proof. destruct item; cbn; congruence. Qed.

Lemma filter_type_defined (eng : Js.Engine) (lit : string) (items : list Js.value) :
  (forall item, In item items -> Js.nullish item = false) ->
  JoplinApiService.filter_type eng lit items
  = Js.Normal (List.filter (has_type lit) items).
Proof.
  induction items as [|item rest IH]; intros Hall; [reflexivity|].
  cbn [JoplinApiService.filter_type List.filter].
  rewrite (get_of_object _ _ _ (Hall item (or_introl eq_refl))).
  rewrite IH by (intros i Hi; apply Hall; now right).
  reflexivity.
Qed.

Lemma filter_type_undefined (eng : Js.Engine) (lit : string) (items : list Js.value) :
  In Js.Undefined items ->
  exists e, JoplinApiService.filter_type eng lit items = Js.Throw e.
Proof.
  induction items as [|item rest IH]; intros Hin; [destruct Hin|].
  cbn [JoplinApiService.filter_type].
  destruct Hin as [-> | Hin]; [cbn; eauto|].
  destruct (Js.get eng item "type_") as [t|e]; [|cbn; eauto].
  destruct (IH Hin) as [e ->]. cbn. eauto.
Qed.

Lemma filter_not_null_undefined (elems : list Js.value) :
  In Js.Undefined (List.filter JoplinApiService.not_null elems) <-> In Js.Undefined elems.
Proof.
  rewrite List.filter_In. split; [tauto|]. intros H. split; [exact H | reflexivity].
Qed.

Lemma filter_typed_valid (lit : string) (elems : list Js.value) :
  List.filter (has_type lit) (List.filter JoplinApiService.not_null elems)
  = List.filter (has_type lit) elems.
Proof.
  induction elems as [|x rest IH]; [reflexivity|].
  cbn [List.filter]. destruct x; cbn [JoplinApiService.not_null List.filter];
    rewrite ?IH; reflexivity.
Qed.

Lemma no_undefined_valid (elems : list Js.value) :
  ~ In Js.Undefined elems ->
  forall item, In item (List.filter JoplinApiService.not_null elems) ->
               Js.nullish item = false.
Proof.
  intros Hno item Hin. apply List.filter_In in Hin. destruct Hin as [Hin Hnn].
  destruct item; try reflexivity; [now elim Hno | discriminate].
Qed.

Lemma items_of_type_steps (env : Env) (lit : string) (answers : list Answer) (w : World) :
  run_steps (JoplinApiService.items_of_type env lit) answers w
  = match run_steps (JoplinApiService.getItems env) answers w with
    | Some (w1, r, rest) =>
        Some (w1,
              match r with
              | Js.Normal items =>
                  match JoplinApiService.filter_type (engine env) lit items with
                  | Js.Normal kept => kept
                  | Js.Throw _ => []
                  end
              | Js.Throw _ => []
              end, rest)
    | None => None
    end.
Proof.
  unfold JoplinApiService.items_of_type. rewrite run_steps_bind.
  destruct (run_steps _ answers w) as [[[w1 r] rest]|]; reflexivity.
Qed.

(** X9.  [getNotes], [getFolders], [getTags] and [getResources] never throw.
    On a service that is not connected each returns the empty array at
    once.  On a connected service each uses one answer and leaves the
    state as it is: from an array without [undefined] elements it keeps,
    in order, the elements whose [type_] is its number (1, 2, 5, 4);
    an array with an [undefined] element, which passes the [null]
    filter of [getItems] and has no [type_] to read, gives the empty
    array, and so does a rejection; every item returned has the
    function's type. *)
Theorem typed_lists_outcome (env : Env) (w : World) :
  Forall
    (fun entry : (Env -> Async (list Js.value)) * string =>
       let f := fst entry in
       let lit := snd entry in
       (connected_api (api w) = false -> f env w = (w, Done []))
       /\ (connected_api (api w) = true ->
           forall ans rest,
           exists kept,
             run_steps (f env) (ans :: rest) w = Some (w, kept, rest)
             /\ (forall elems extra,
                    ans = Settled (Js.Arr elems extra) ->
                    (In Js.Undefined elems -> kept = [])
                    /\ (~ In Js.Undefined elems ->
                        kept = List.filter (has_type lit) elems))
             /\ (forall e, ans = Rejected e -> kept = [])
             /\ Forall (fun item => Js.prop item "type_" = Js.Num lit) kept))
    [(JoplinApiService.getNotes, "1"); (JoplinApiService.getFolders, "2");
     (JoplinApiService.getTags, "5"); (JoplinApiService.getResources, "4")].
Proof.
  assert (Hany : forall lit,
             (connected_api (api w) = false ->
              JoplinApiService.items_of_type env lit w = (w, Done []))
             /\ (connected_api (api w) = true ->
                 forall ans rest,
                 exists kept,
                   run_steps (JoplinApiService.items_of_type env lit) (ans :: rest) w
                   = Some (w, kept, rest)
                   /\ (forall elems extra,
                          ans = Settled (Js.Arr elems extra) ->
                          (In Js.Undefined elems -> kept = [])
                          /\ (~ In Js.Undefined elems ->
                              kept = List.filter (has_type lit) elems))
                   /\ (forall e, ans = Rejected e -> kept = [])
                   /\ Forall (fun item => Js.prop item "type_" = Js.Num lit) kept)).
  { intros lit. split.
    - intros Hc. unfold JoplinApiService.items_of_type, bind.
      rewrite (proj1 (getItems_outcome env w) Hc). reflexivity.
    - intros Hc ans rest. rewrite items_of_type_steps, getItems_steps, Hc.
      eexists. split; [reflexivity|].
      split; [|split].
      + intros elems extra ->. cbn [items_of_answer]. split.
        * intros Hu. apply filter_not_null_undefined in Hu.
          destruct (filter_type_undefined (engine env) lit _ Hu) as [e ->]. reflexivity.
        * intros Hno.
          rewrite (filter_type_defined _ _ _ (no_undefined_valid elems Hno)).
          apply filter_typed_valid.
      + intros e ->. reflexivity.
      + destruct (items_of_answer env ans) as [items|e]; [|constructor].
        destruct (JoplinApiService.filter_type (engine env) lit items) as [kept|e] eqn:Hf;
          [|constructor].
        clear -Hf. revert kept Hf.
        induction items as [|x items IH]; intros kept Hf; cbn in Hf.
        * injection Hf as <-. constructor.
        * destruct (Js.get (engine env) x "type_") as [t|e] eqn:Hg; [|discriminate].
          cbn [Js.bind] in Hf.
          destruct (JoplinApiService.filter_type (engine env) lit items) as [k|e];
            [|discriminate].
          cbn [Js.bind] in Hf. injection Hf as <-.
          specialize (IH k eq_refl).
          destruct (Js.is_number t lit) eqn:Hn; [|exact IH].
          constructor; [|exact IH].
          unfold Js.get in Hg. destruct (Js.nullish x); [discriminate|].
          injection Hg as <-. destruct (Js.prop x "type_"); try discriminate.
          cbn in Hn. apply String.eqb_eq in Hn. now subst. }
  repeat constructor; cbv zeta; cbn [fst snd]; apply Hany.
Qed.

Lemma first_valid (elems : list Js.value) :
  match List.filter JoplinApiService.not_null elems with
  | first :: _ => first
  | [] => Js.Null
  end
  = match List.find JoplinApiService.not_null elems with
    | Some item => item
    | None => Js.Null
    end.
Proof.
  induction elems as [|x rest IH]; [reflexivity|].
  cbn [List.filter List.find]. destruct (JoplinApiService.not_null x); [reflexivity | exact IH].
Qed.

(** X10.  [getItem(id)] never throws.  On a service that is not connected it
    returns [null] at once.  On a connected service it asks the library
    for the one id, uses one answer and leaves the state as it is: from
    an array it returns the first element that is not [null], or [null]
    when there is none; a rejection gives [null]. *)
Theorem getItem_outcome (env : Env) (id : string) (w : World) :
  (connected_api (api w) = false ->
   JoplinApiService.getItem env id w = (w, Done Js.Null))
  /\ (connected_api (api w) = true ->
      (exists handle k,
          storage (api w) = Some handle
          /\ JoplinApiService.getItem env id w
             = (w, Await (StorageGetItems handle
                            (Js.Obj [("ids", Js.Arr [Js.Str id] []);
                                     ("unserializeAll", Js.Bool true)])) k))
      /\ forall ans rest,
          exists item,
            run_steps (JoplinApiService.getItem env id) (ans :: rest) w
            = Some (w, item, rest)
            /\ (forall elems extra,
                   ans = Settled (Js.Arr elems extra) ->
                   item = match List.find JoplinApiService.not_null elems with
                          | Some first => first
                          | None => Js.Null
                          end)
            /\ (forall e, ans = Rejected e -> item = Js.Null)).
Proof.
  unfold connected_api, JoplinApiService.getItem, JoplinApiService.getItem_body.
  split.
  - unfold bind. destruct (storage (api w)) as [h|]; [|reflexivity].
    intros ->. reflexivity.
  - intros Hc. destruct (storage (api w)) as [h|] eqn:Hs; [|discriminate]. split.
    + unfold bind. rewrite Hs, Hc. cbn. eexists _, _. split; reflexivity.
    + intros ans rest. unfold run_steps, bind. rewrite Hs, Hc.
      cbn [negb await fst snd then_task steps].
      destruct ans as [r|v|e]; cbn.
      * eexists. split; [reflexivity|]. split; [discriminate|discriminate].
      * destruct v; cbn; eexists; (split; [reflexivity|]);
          (split; [|discriminate]); try discriminate.
        intros elems0 extra0 [= <- <-]. apply first_valid.
      * eexists. split; [reflexivity|]. split; [discriminate|reflexivity].
Qed.

(** ** [JoplinApiService.connect] *)

Lemma known_type_str (type : Js.value) (kind : string) :
  JoplinApiService.known_type type = Some kind -> type = Js.Str kind.
Proof.
  unfold JoplinApiService.known_type.
  destruct type; cbn [Js.is_string]; try discriminate.
  repeat match goal with
         | |- (if String.eqb ?a ?b then _ else _) = _ -> _ =>
             destruct (String.eqb_spec a b) as [->|_]; [intros [= <-]; reflexivity|]
         end.
  discriminate.
Qed.

Lemma known_type_object (credentials : Js.value) (kind : string) :
  JoplinApiService.known_type (Js.prop credentials "type") = Some kind ->
  Js.nullish credentials = false.
Proof. destruct credentials; cbn; congruence. Qed.

Lemma connect_steps_known (env : Env) (credentials : Js.value) (kind : string)
    (answers : list Answer) (w : World) :
  JoplinApiService.known_type (Js.prop credentials "type") = Some kind ->
  let off := with_api (mkApi None false (oauthFlowHandler (api w))) (tick w) in
  let failed e :=
    Js.Throw (Js.ErrorObj ("Failed to connect to " +:+ kind +:+ ": "
                           +:+ Js.message_or_string e)) in
  run_steps (JoplinApiService.connect env credentials) answers w
  = match storage_new env (ticks w) kind (JoplinApiService.options credentials kind)
            (String.eqb kind "OneDrive" && oauthFlowHandler (api w)) with
    | Js.Normal handle =>
        match answers with
        | [] => None
        | Rejected e :: rest => Some (off, failed e, rest)
        | _ :: rest =>
            Some (with_api (mkApi (Some handle) true (oauthFlowHandler (api w))) (tick w),
                  Js.Normal tt, rest)
        end
    | Js.Throw e => Some (off, failed e, answers)
    end.
Proof.
  intros Hk. cbv zeta. pose proof (known_type_object _ _ Hk) as Hobj.
  pose proof (known_type_str _ _ Hk) as Htype.
  unfold run_steps, JoplinApiService.connect, JoplinApiService.connect_body,
    JoplinApiService.connect_catch, try_catch, bindE, bind, liftE, throwE, retE, ret,
    act, await.
  rewrite (get_of_object _ _ _ Hobj). cbn [fst snd then_task]. rewrite Hk.
  destruct (storage_new env (ticks w) kind _ _) as [h|e]; cbn [fst snd then_task steps].
  - destruct answers as [|ans rest]; [reflexivity|].
    destruct ans; cbn [fst snd then_task steps]; rewrite ?Htype; reflexivity.
  - rewrite Htype. reflexivity.
Qed.

Lemma connect_steps_spec (env : Env) (credentials : Js.value)
    (answers rest : list Answer) (w w' : World) (r : Js.Completion unit) :
  run_steps (JoplinApiService.connect env credentials) answers w = Some (w', r, rest) ->
  same_page w w'
  /\ match r with
     | Js.Normal _ => connected_api (api w') = true /\ Js.nullish credentials = false
     | Js.Throw _ => connected_api (api w') = false
     end.
Proof.
  destruct (Js.nullish credentials) eqn:Hobj.
  { unfold run_steps, JoplinApiService.connect, JoplinApiService.connect_body,
      JoplinApiService.connect_catch, try_catch, bindE, bind, liftE, throwE, retE, ret,
      act, await, Js.get.
    rewrite Hobj. cbn. intros [= <- <- <-]. repeat split. }
  destruct (JoplinApiService.known_type (Js.prop credentials "type")) as [kind|] eqn:Hk.
  - rewrite (connect_steps_known env credentials kind answers w Hk). cbv zeta.
    destruct (storage_new env (ticks w) kind _ _) as [h|e].
    + destruct answers as [|ans more]; [discriminate|].
      destruct ans; intros [= <- <- <-]; repeat split.
    + intros [= <- <- <-]; repeat split.
  - unfold run_steps, JoplinApiService.connect, JoplinApiService.connect_body,
      JoplinApiService.connect_catch, try_catch, bindE, bind, liftE, throwE, retE, ret,
      act, await.
    rewrite (get_of_object _ _ _ Hobj). cbn [fst snd then_task]. rewrite Hk.
    cbn. intros [= <- <- <-]. repeat split.
Qed.

(** X11.  [connect(credentials)] for credentials whose [type] is one of the
    five storage types, a library that constructs the storage and an
    [init()] that does not reject: the service ends connected, holding
    the new storage object; the library was given the type and the
    options made from the credentials, and the OAuth flow handler for
    OneDrive only; nothing else of the page changes.  For any other
    [type] the call fails at once, without consulting the library,
    and drops whatever storage was connected. *)
Theorem connect_outcome (env : Env) (credentials : Js.value) (w : World) :
  (forall kind handle ans rest,
      JoplinApiService.known_type (Js.prop credentials "type") = Some kind ->
      storage_new env (ticks w) kind (JoplinApiService.options credentials kind)
        (String.eqb kind "OneDrive" && oauthFlowHandler (api w)) = Js.Normal handle ->
      (forall e, ans <> Rejected e) ->
      exists w',
        run_steps (JoplinApiService.connect env credentials) (ans :: rest) w
        = Some (w', Js.Normal tt, rest)
        /\ Js.prop credentials "type" = Js.Str kind
        /\ storage (api w') = Some handle
        /\ JoplinApiService.isInitialized (api w') = true
        /\ oauthFlowHandler (api w') = oauthFlowHandler (api w)
        /\ same_page w w')
  /\ (Js.nullish credentials = false ->
      JoplinApiService.known_type (Js.prop credentials "type") = None ->
      let type := Js.to_string (Js.prop credentials "type") in
      JoplinApiService.connect env credentials w
      = (with_api (mkApi None false (oauthFlowHandler (api w))) w,
         Done (Js.Throw (Js.ErrorObj
                           ("Failed to connect to " +:+ type
                            +:+ ": Unsupported storage type: " +:+ type))))).
Proof.
  split.
  - intros kind handle ans rest Hk Hnew Hans.
    rewrite (connect_steps_known env credentials kind (ans :: rest) w Hk). cbv zeta.
    rewrite Hnew. destruct ans as [resp|v|e]; [| |now elim (Hans e)];
      (eexists; split; [reflexivity|]);
      (split; [now apply known_type_str|]); repeat split.
  - intros Hobj Hk. cbv zeta.
    unfold JoplinApiService.connect, JoplinApiService.connect_body,
      JoplinApiService.connect_catch, try_catch, bindE, bind, liftE, throwE, retE, ret, act.
    rewrite (get_of_object _ _ _ Hobj). cbn [fst snd then_task]. rewrite Hk.
    reflexivity.
Qed.

Lemma connect_outcome_witness :
  exists w',
    run_steps (JoplinApiService.connect Examples.env
                 (Credentials.to_js Examples.filesystem_credentials))
      [Settled Js.Undefined] Examples.world0
    = Some (w', Js.Normal tt, [])
    /\ storage (api w') = Some 7
    /\ JoplinApiService.isInitialized (api w') = true.
Proof.
  destruct (proj1 (connect_outcome Examples.env
                     (Credentials.to_js Examples.filesystem_credentials)
                     Examples.world0)
              "FileSystem" 7 (Settled Js.Undefined) [] eq_refl eq_refl
              ltac:(discriminate))
    as (w' & Hrun & _ & Hs & Hi & _).
  exists w'. split; [exact Hrun|]. split; [exact Hs | exact Hi].
Defined.

(** ** The active profile *)

Lemma saveProfile_keeps_pointer (eng : Js.Engine) (profile : Js.value)
    (ls : gmap string string) :
  ProfileManager.getActiveProfileId (fst (ProfileManager.saveProfile eng profile ls))
  = ProfileManager.getActiveProfileId ls.
Proof.
  unfold ProfileManager.saveProfile.
  destruct (Js.get eng profile "id") as [id|e]; [|reflexivity].
  cbn [fst]. unfold ProfileManager.getActiveProfileId, Storage.getItem, Storage.setItem.
  apply lookup_insert_ne. apply profile_key_not_active.
Qed.

Lemma setActiveProfile_pointer (eng : Js.Engine) (stamp : string)
    (ls : gmap string string) (profileId : string) :
  ProfileManager.getActiveProfileId
    (fst (ProfileManager.setActiveProfile eng stamp ls profileId))
  = Some profileId.
Proof.
  unfold ProfileManager.setActiveProfile.
  assert (Hset : ProfileManager.getActiveProfileId
                   (Storage.setItem ls ProfileManager.ACTIVE_PROFILE_KEY profileId)
                 = Some profileId) by apply lookup_insert_eq.
  destruct (Js.truthy _); [|exact Hset].
  destruct (Js.set eng _ "lastUsed" _) as [p|e]; [|exact Hset].
  now rewrite saveProfile_keeps_pointer.
Qed.

(** X12.  [setActiveProfile(id)] always leaves the active pointer at [id].
    When no record is stored for [id] it changes nothing else and does
    not throw, and the pointer dangles: [getActiveProfile()] is [null].
    When the record is the text of a JSON object, that object is
    written back, under its own [id], with [lastUsed] set to the time of
    the call and every other property as stored. *)
Theorem setActiveProfile_outcome
    (eng : Js.Engine) (stamp : string) (ls : gmap string string) (profileId : string) :
  let key := ProfileManager.STORAGE_KEY_PREFIX +:+ profileId in
  let ls1 := Storage.setItem ls ProfileManager.ACTIVE_PROFILE_KEY profileId in
  let r := ProfileManager.setActiveProfile eng stamp ls profileId in
  ProfileManager.getActiveProfileId (fst r) = Some profileId
  /\ (Storage.getItem ls key = None ->
      r = (ls1, Js.Normal tt)
      /\ ProfileManager.getActiveProfile (fst r) = Js.Null)
  /\ (forall text props,
        Storage.getItem ls key = Some text ->
        Js.parse text = Some (Js.Obj props) ->
        let profile' := Js.Obj (Js.define props "lastUsed" (Js.Num stamp)) in
        r = (Storage.setItem ls1
               (ProfileManager.STORAGE_KEY_PREFIX
                +:+ Js.to_string (Js.prop profile' "id"))
               (ProfileManager.stringify_text profile'),
             Js.Normal tt)
        /\ Js.prop profile' "lastUsed" = Js.Num stamp
        /\ (forall k, k <> "lastUsed" ->
                      Js.prop profile' k = Js.prop (Js.Obj props) k)).
Proof.
  cbv zeta. split; [apply setActiveProfile_pointer|].
  assert (Hk : Storage.getItem
                 (Storage.setItem ls ProfileManager.ACTIVE_PROFILE_KEY profileId)
                 (ProfileManager.STORAGE_KEY_PREFIX +:+ profileId)
               = Storage.getItem ls (ProfileManager.STORAGE_KEY_PREFIX +:+ profileId)).
  { unfold Storage.getItem, Storage.setItem. apply lookup_insert_ne.
    intros E. symmetry in E. now apply profile_key_not_active in E. }
  split.
  - intros Hnone. unfold ProfileManager.setActiveProfile, ProfileManager.getProfile.
    rewrite Hk, Hnone. cbn [truthy_str negb Js.truthy]. split; [reflexivity|].
    cbn [fst]. unfold ProfileManager.getActiveProfile, ProfileManager.getActiveProfileId.
    unfold Storage.getItem at 1 2, Storage.setItem at 1 2. rewrite lookup_insert_eq.
    destruct (truthy_str (Some profileId)); [|reflexivity]. cbn [negb].
    unfold ProfileManager.getProfile. rewrite Hk, Hnone. reflexivity.
  - intros text props Hsome Hparse.
    unfold ProfileManager.setActiveProfile, ProfileManager.getProfile.
    rewrite Hk, Hsome.
    assert (Htext : truthy_str (Some text) = true).
    { destruct text; [discriminate Hparse | reflexivity]. }
    rewrite Htext, Hparse. cbn [negb Js.truthy Js.set].
    rewrite saveProfile_object.
    split; [reflexivity|]. cbn [Js.prop]. split.
    + rewrite lookup_define. now rewrite String.eqb_refl.
    + intros k Hne. rewrite lookup_define.
      destruct (String.eqb_spec "lastUsed" k); congruence.
Qed.

(** ** [handleConnect] *)

Lemma save_new_profile_steps (env : Env) (credentials : Js.value)
    (answers : list Answer) (w : World) :
  Js.nullish credentials = false ->
  exists p ls,
    Js.prop p "credentials" = credentials
    /\ ProfileManager.getActiveProfileId ls = Some (Js.to_string (Js.prop p "id"))
    /\ run_steps (App.save_new_profile env credentials) answers w
       = Some (setCurrentProfile (Some p) (with_local ls (tick (tick w))),
               Js.Normal tt, answers).
Proof.
  intros Hobj. unfold run_steps, App.save_new_profile, ProfileManager.createProfile.
  rewrite !(get_of_object _ _ _ Hobj). cbn [truthy_str Js.bind].
  set (p := Js.Obj _).
  exists p. unfold bindE, bind, liftE, ret, App.on_local, act, retE. cbn [fst snd then_task].
  subst p. rewrite saveProfile_object. cbn [fst snd then_task].
  set (props := [("id", _); _; _; _; _; _]) in *.
  set (key := ProfileManager.STORAGE_KEY_PREFIX +:+ _).
  destruct (stringify_text_object props) as [r Hr].
  pose proof (setActiveProfile_normal (engine env) (now env (S (ticks w)))
                (Storage.setItem (local (tick (tick w))) key
                   (ProfileManager.stringify_text (Js.Obj props)))
                (Js.to_string (Js.prop (Js.Obj props) "id")) r) as Hactive.
  pose proof (setActiveProfile_pointer (engine env) (now env (S (ticks w)))
                (Storage.setItem (local (tick (tick w))) key
                   (ProfileManager.stringify_text (Js.Obj props)))
                (Js.to_string (Js.prop (Js.Obj props) "id"))) as Hpointer.
  cbn [local with_local] in Hactive, Hpointer |- *.
  destruct (ProfileManager.setActiveProfile _ _ _ _) as [ls2 res] eqn:Hset.
  cbn [fst snd] in Hactive, Hpointer. rewrite Hactive.
  - exists ls2. split; [reflexivity|]. split; [exact Hpointer|].
    cbn [fst snd then_task steps]. reflexivity.
  - unfold Storage.setItem. subst key. rewrite Hr. apply lookup_insert_eq.
Qed.

Lemma handleConnect_steps (env : Env) (credentials : Js.value)
    (answers : list Answer) (w : World) :
  run_steps (App.handleConnect env credentials) answers w
  = match run_steps (App.handleConnect_body env credentials) answers
            (setError None (setLoading true w)) with
    | Some (w1, Js.Normal _, rest) => Some (setLoading false w1, Js.Normal tt, rest)
    | Some (w1, Js.Throw e, rest) =>
        Some (setLoading false
                (setError (Some (Js.message_or "Failed to connect" e)) w1),
              Js.Normal tt, rest)
    | None => None
    end.
Proof.
  unfold App.handleConnect.
  rewrite run_steps_bind, run_steps_act, run_steps_bind, run_steps_act, run_steps_finally,
    run_steps_try_catch.
  destruct (run_steps (App.handleConnect_body env credentials) answers _)
    as [[[w1 [[]|e]] rest]|]; reflexivity.
Qed.

Lemma handleConnect_body_direct (env : Env) (credentials : Js.value)
    (answers : list Answer) (w : World) :
  Js.nullish credentials = false ->
  starts_oauth credentials = false ->
  run_steps (App.handleConnect_body env credentials) answers w
  = match run_steps (JoplinApiService.connect env credentials) answers
            (if Js.is_string (Js.prop credentials "type") "GoogleDrive"
             then session_set App.PENDING (ProfileManager.stringify_text credentials) w
             else w) with
    | Some (w2, Js.Normal _, rest) =>
        match run_steps (JoplinApiService.getItems env) rest w2 with
        | Some (w3, Js.Normal fetchedItems, rest') =>
            match run_steps (App.save_new_profile env credentials) rest'
                    (setConnected true (setItems fetchedItems w3)) with
            | Some (w4, Js.Normal _, rest'') =>
                Some (session_remove App.PENDING w4, Js.Normal tt, rest'')
            | Some (w4, Js.Throw e, rest'') => Some (w4, Js.Throw e, rest'')
            | None => None
            end
        | Some (w3, Js.Throw e, rest') => Some (w3, Js.Throw e, rest')
        | None => None
        end
    | Some (w2, Js.Throw e, rest) => Some (w2, Js.Throw e, rest)
    | None => None
    end.
Proof.
  intros Hobj Hdirect. unfold App.handleConnect_body.
  rewrite run_steps_bindE, (get_of_object _ _ _ Hobj).
  unfold liftE. rewrite run_steps_ret.
  unfold starts_oauth in Hdirect. rewrite Hdirect.
  rewrite run_steps_bind, run_steps_act, run_steps_bindE.
  destruct (run_steps (JoplinApiService.connect env credentials) answers _)
    as [[[w2 [[]|e]] rest]|]; try reflexivity.
  rewrite run_steps_bindE.
  destruct (run_steps (JoplinApiService.getItems env) rest w2)
    as [[[w3 [fetchedItems|e]] rest']|]; try reflexivity.
  rewrite run_steps_bind, run_steps_act, run_steps_bind, run_steps_act, run_steps_bindE.
  destruct (run_steps (App.save_new_profile env credentials) rest' _)
    as [[[w4 [[]|e]] rest'']|]; try reflexivity.
Qed.

(** X13.  [handleConnect(credentials)] for credentials that do not start the
    OneDrive login (another type, or OneDrive with a token) never
    throws, ends with [loading] off, issues no [fetch] and asks for no
    navigation.  Either it shows no error, and then the page is
    connected: the service holds an initialised storage, the items
    shown hold no [null], a new profile with these credentials is
    current and is the active profile in [localStorage], and no pending
    credentials are left in [sessionStorage].  Or it shows an error, and
    then nothing was saved: [localStorage], the current profile, the
    items and the connected flag are as before; [sessionStorage] is as
    before too, except that for GoogleDrive the pending credentials
    written before the attempt stay there. *)
Theorem handleConnect_direct_outcome
    (env : Env) (credentials : Js.value) (answers : list Answer)
    (w w' : World) (r : Js.Completion unit) :
  starts_oauth credentials = false ->
  run (App.handleConnect env credentials) answers w = Some (w', r) ->
  r = Js.Normal tt
  /\ loading (ui w') = false
  /\ fetches w' = fetches w
  /\ href w' = href w
  /\ search w' = search w
  /\ match error (ui w') with
     | None =>
         connected (ui w') = true
         /\ connected_api (api w') = true
         /\ Forall (fun item => item <> Js.Null) (items (ui w'))
         /\ (exists profile,
                currentProfile (ui w') = Some profile
                /\ Js.prop profile "credentials" = credentials
                /\ ProfileManager.getActiveProfileId (local w')
                   = Some (Js.to_string (Js.prop profile "id")))
         /\ Storage.getItem (session w') App.PENDING = None
     | Some _ =>
         local w' = local w
         /\ currentProfile (ui w') = currentProfile (ui w)
         /\ items (ui w') = items (ui w)
         /\ connected (ui w') = connected (ui w)
         /\ session w'
            = if Js.is_string (Js.prop credentials "type") "GoogleDrive"
              then Storage.setItem (session w) App.PENDING
                     (ProfileManager.stringify_text credentials)
              else session w
     end.
Proof.
  intros Hdirect. rewrite run_run_steps, handleConnect_steps.
  set (w0 := setError None (setLoading true w)).
  destruct (Js.nullish credentials) eqn:Hobj.
  { unfold App.handleConnect_body. rewrite run_steps_bindE. unfold Js.get, liftE.
    rewrite Hobj, run_steps_ret. intros [= <- <-].
    destruct credentials; try discriminate; cbn; repeat split. }
  rewrite (handleConnect_body_direct env credentials answers w0 Hobj Hdirect).
  set (w1 := if Js.is_string _ "GoogleDrive" then _ else w0).
  assert (Hw1 : local w1 = local w /\ ui w1 = ui w0 /\ fetches w1 = fetches w
                /\ href w1 = href w /\ search w1 = search w
                /\ session w1
                   = if Js.is_string (Js.prop credentials "type") "GoogleDrive"
                     then Storage.setItem (session w) App.PENDING
                            (ProfileManager.stringify_text credentials)
                     else session w).
  { subst w1. destruct (Js.is_string _ "GoogleDrive"); repeat split. }
  destruct Hw1 as (Hl1 & Hu1 & Hf1 & Hh1 & Hs1 & Hss1).
  destruct (run_steps (JoplinApiService.connect env credentials) answers w1)
    as [[[w2 rc] rest]|] eqn:Hc; [|discriminate].
  destruct (connect_steps_spec _ _ _ _ _ _ _ Hc) as ((Hss2 & Hl2 & Hs2 & Hh2 & Hu2 & Hf2) & Hrc).
  destruct rc as [[]|e].
  2:{ intros [= <- <-]. cbn. rewrite Hu2, Hu1, Hl2, Hl1, Hf2, Hf1, Hh2, Hh1, Hs2, Hs1,
        Hss2, Hss1. subst w0. cbn. repeat split. }
  destruct Hrc as [Hcon _]. rewrite getItems_steps, Hcon.
  destruct rest as [|ans rest]; [discriminate|].
  destruct (items_of_answer env ans) as [fetchedItems|e] eqn:Hitems.
  2:{ intros [= <- <-]. cbn. rewrite Hu2, Hu1, Hl2, Hl1, Hf2, Hf1, Hh2, Hh1, Hs2, Hs1,
        Hss2, Hss1. subst w0. cbn. repeat split. }
  destruct (save_new_profile_steps env credentials rest
              (setConnected true (setItems fetchedItems w2)) Hobj)
    as (p & ls & Hp & Hactive & ->).
  intros [= <- <-]. cbn. rewrite Hu2, Hu1, Hf2, Hf1, Hh2, Hh1, Hs2, Hs1.
  subst w0. cbn.
  repeat split; try assumption.
  - destruct ans as [resp|v|e]; try discriminate.
    destruct v; try discriminate. injection Hitems as <-.
    apply List.Forall_forall. intros x Hx. apply List.filter_In in Hx.
    destruct Hx as [_ Hx]. intros ->. discriminate.
  - exists p. repeat split; assumption.
  - unfold Storage.getItem, Storage.removeItem. apply lookup_delete_eq.
Qed.

Lemma handleConnect_direct_witness :
  exists w',
    run (App.handleConnect Examples.env
           (Credentials.to_js Examples.filesystem_credentials))
      [Settled Js.Undefined;
       Settled (Js.Arr [Js.Obj [("id", Js.Str "n1"); ("type_", Js.Num "1")]; Js.Null] [])]
      Examples.world0
    = Some (w', Js.Normal tt)
    /\ loading (ui w') = false
    /\ connected (ui w') = true.
Proof.
  assert (Hstart : starts_oauth (Credentials.to_js Examples.filesystem_credentials)
                   = false) by (vm_compute; reflexivity).
  destruct (run (App.handleConnect Examples.env
                   (Credentials.to_js Examples.filesystem_credentials))
              [Settled Js.Undefined;
               Settled (Js.Arr [Js.Obj [("id", Js.Str "n1"); ("type_", Js.Num "1")];
                                Js.Null] [])]
              Examples.world0) as [[w' r]|] eqn:Hrun;
    [|vm_compute in Hrun; discriminate].
  destruct (handleConnect_direct_outcome _ _ _ _ _ _ Hstart Hrun)
    as (Hr & Hl & _ & _ & _ & Hc).
  subst r. exists w'. split; [reflexivity|]. split; [exact Hl|].
  vm_compute in Hrun. injection Hrun as <-.
  vm_compute in Hc. exact (proj1 Hc).
Defined.





(** ** [handleRefresh], [handleDisconnect] and [loadActiveProfile] *)

(** X15.  [handleRefresh()] does nothing on a service that is not
    initialised.  On a connected service it uses one answer, never
    throws and ends with [loading] off; it changes nothing but what the
    list shows: an array replaces the items by its elements that are
    not [null] and clears the error; a rejection leaves the items as
    they were and shows [Failed to get items: <message>]. *)
Theorem handleRefresh_outcome (env : Env) (w : World) :
  (JoplinApiService.isInitialized (api w) = false ->
   App.handleRefresh env w = (w, Done (Js.Normal tt)))
  /\ (connected_api (api w) = true ->
      forall ans rest,
      exists w',
        run_steps (App.handleRefresh env) (ans :: rest) w = Some (w', Js.Normal tt, rest)
        /\ loading (ui w') = false
        /\ session w' = session w /\ local w' = local w /\ api w' = api w
        /\ fetches w' = fetches w /\ href w' = href w /\ search w' = search w
        /\ currentProfile (ui w') = currentProfile (ui w)
        /\ connected (ui w') = connected (ui w)
        /\ (forall elems extra,
               ans = Settled (Js.Arr elems extra) ->
               items (ui w') = List.filter JoplinApiService.not_null elems
               /\ error (ui w') = None)
        /\ (forall m,
               ans = Rejected (Js.ErrorObj m) ->
               items (ui w') = items (ui w)
               /\ error (ui w') = Some ("Failed to get items: " +:+ m))).
Proof.
  split.
  - intros Hi. unfold App.handleRefresh. now rewrite Hi.
  - intros Hc ans rest.
    assert (Hi : JoplinApiService.isInitialized (api w) = true).
    { unfold connected_api in Hc. unfold JoplinApiService.isInitialized.
      destruct (storage (api w)); [exact Hc | discriminate]. }
    unfold run_steps at 1, App.handleRefresh. rewrite Hi. cbn [negb].
    match goal with
    | |- context [steps ?a (snd (?m w)) (fst (?m w))] =>
        change (steps a (snd (m w)) (fst (m w))) with (run_steps m a w)
    end.
    rewrite run_steps_bind, run_steps_act, run_steps_bind, run_steps_act,
      run_steps_finally, run_steps_try_catch, run_steps_bindE, getItems_steps.
    world_simpl. rewrite Hc.
    destruct (items_of_answer env ans) as [fetchedItems|e] eqn:Hitems.
    + rewrite run_steps_bind, run_steps_act. unfold retE. rewrite run_steps_ret.
      eexists. split; [reflexivity|]. world_simpl.
      repeat (split; [reflexivity|]). split.
      * intros elems extra ->. injection Hitems as <-. split; reflexivity.
      * intros m ->. discriminate.
    + unfold App.handleRefresh_catch.
      rewrite run_steps_bind, run_steps_act. unfold retE. rewrite run_steps_ret.
      eexists. split; [reflexivity|]. world_simpl.
      repeat (split; [reflexivity|]). split.
      * intros elems extra ->. discriminate.
      * intros m ->. injection Hitems as <-. split; reflexivity.
Qed.

Lemma getProfile_frame (ls ls' : gmap string string) (profileId : string) :
  Storage.getItem ls' (ProfileManager.STORAGE_KEY_PREFIX +:+ profileId)
  = Storage.getItem ls (ProfileManager.STORAGE_KEY_PREFIX +:+ profileId) ->
  ProfileManager.getProfile ls' profileId = ProfileManager.getProfile ls profileId.
Proof. intros H. unfold ProfileManager.getProfile. now rewrite H. Qed.

Lemma no_pointer_no_profile (ls : gmap string string) :
  ProfileManager.getActiveProfileId ls = None ->
  ProfileManager.getActiveProfile ls = Js.Null.
Proof. intros H. unfold ProfileManager.getActiveProfile. now rewrite H. Qed.

(** X16.  [handleDisconnect()] is a logout of the page only.  Afterwards the
    service holds no storage, the page shows nothing (no items, no
    error, no current profile, not connected) and no profile is active;
    every saved profile, with its credentials, is still in
    [localStorage], and [sessionStorage] is untouched.  A page loaded
    with this [localStorage] does not reconnect, a refresh does
    nothing, and disconnecting again changes nothing. *)
Theorem handleDisconnect_outcome (env : Env) (w : World) :
  let w' := App.handleDisconnect w in
  storage (api w') = None
  /\ JoplinApiService.isInitialized (api w') = false
  /\ oauthFlowHandler (api w') = oauthFlowHandler (api w)
  /\ ui w' = mkUi None false (loading (ui w)) None [] (oauthAuthUrl (ui w))
  /\ ProfileManager.getActiveProfileId (local w') = None
  /\ (forall k, k <> ProfileManager.ACTIVE_PROFILE_KEY ->
                Storage.getItem (local w') k = Storage.getItem (local w) k)
  /\ (forall profileId,
         ProfileManager.getProfile (local w') profileId
         = ProfileManager.getProfile (local w) profileId)
  /\ session w' = session w
  /\ fetches w' = fetches w
  /\ (forall page, local page = local w' ->
                   App.loadActiveProfile env page = (page, Done (Js.Normal tt)))
  /\ App.handleRefresh env w' = (w', Done (Js.Normal tt))
  /\ App.handleDisconnect w' = w'.
Proof.
  cbv zeta.
  assert (Hgone : ProfileManager.getActiveProfileId (local (App.handleDisconnect w)) = None).
  { unfold App.handleDisconnect, JoplinApiService.disconnect. world_simpl.
    apply lookup_delete_eq. }
  assert (Hkeep : forall k, k <> ProfileManager.ACTIVE_PROFILE_KEY ->
                    Storage.getItem (local (App.handleDisconnect w)) k
                    = Storage.getItem (local w) k).
  { intros k Hk. unfold App.handleDisconnect, JoplinApiService.disconnect. world_simpl.
    unfold ProfileManager.clearActiveProfile, Storage.getItem, Storage.removeItem.
    apply lookup_delete_ne. congruence. }
  split; [reflexivity|]. split; [reflexivity|]. split; [reflexivity|].
  split; [reflexivity|]. split; [exact Hgone|]. split; [exact Hkeep|]. split.
  { intros profileId. apply getProfile_frame, Hkeep.
    intros E. now apply profile_key_not_active in E. }
  split; [reflexivity|]. split; [reflexivity|]. split.
  { intros page Hpage. unfold App.loadActiveProfile.
    rewrite Hpage, (no_pointer_no_profile _ Hgone). reflexivity. }
  split; [reflexivity|].
  unfold App.handleDisconnect, JoplinApiService.disconnect. world_simpl.
  unfold ProfileManager.clearActiveProfile, Storage.removeItem.
  rewrite delete_id by apply lookup_delete_eq.
  reflexivity.
Qed.

(** X17.  [loadActiveProfile()] does nothing when [localStorage] names no
    active profile or holds no readable record for it.  Otherwise it
    never throws, ends with [loading] off and never shows an error.
    When the connection and the first listing succeed, the stored
    profile is current, the page is connected and [localStorage] is as
    it was.  When either fails, the active pointer is removed (the
    record itself stays), no profile is current, and the items and the
    connected flag are as before. *)
Theorem loadActiveProfile_outcome (env : Env) (w : World) :
  let active := ProfileManager.getActiveProfile (local w) in
  (Js.truthy active = false ->
   App.loadActiveProfile env w = (w, Done (Js.Normal tt)))
  /\ (Js.truthy active = true ->
      forall answers w' r,
        run (App.loadActiveProfile env) answers w = Some (w', r) ->
        r = Js.Normal tt
        /\ loading (ui w') = false
        /\ error (ui w') = error (ui w)
        /\ session w' = session w /\ fetches w' = fetches w
        /\ href w' = href w /\ search w' = search w
        /\ match currentProfile (ui w') with
           | Some profile =>
               profile = active
               /\ connected (ui w') = true
               /\ connected_api (api w') = true
               /\ local w' = local w
               /\ Forall (fun item => item <> Js.Null) (items (ui w'))
           | None =>
               ProfileManager.getActiveProfileId (local w') = None
               /\ (forall k, k <> ProfileManager.ACTIVE_PROFILE_KEY ->
                             Storage.getItem (local w') k = Storage.getItem (local w) k)
               /\ connected (ui w') = connected (ui w)
               /\ items (ui w') = items (ui w)
           end).
Proof.
  cbv zeta. split.
  - intros Hf. unfold App.loadActiveProfile. now rewrite Hf.
  - intros Ht answers w' r. rewrite run_run_steps.
    unfold run_steps at 1, App.loadActiveProfile. rewrite Ht. cbn [negb andb].
    match goal with
    | |- context [steps ?a (snd (?m w)) (fst (?m w))] =>
        change (steps a (snd (m w)) (fst (m w))) with (run_steps m a w)
    end.
    set (active := ProfileManager.getActiveProfile (local w)) in *.
    rewrite run_steps_bind, run_steps_act, run_steps_bind, run_steps_act,
      run_steps_finally, run_steps_try_catch, run_steps_bindE.
    set (w0 := setLoading true (setCurrentProfile (Some active) w)).
    assert (Hfail : forall w2 e rest,
               same_page w0 w2 ->
               match run_steps (App.loadActiveProfile_catch e) rest w2 with
               | Some (w1, r0, _) => Some (setLoading false w1, r0)
               | None => None
               end = Some (w', r) ->
               r = Js.Normal tt
               /\ loading (ui w') = false
               /\ error (ui w') = error (ui w)
               /\ session w' = session w /\ fetches w' = fetches w
               /\ href w' = href w /\ search w' = search w
               /\ match currentProfile (ui w') with
                  | Some profile =>
                      profile = active
                      /\ connected (ui w') = true
                      /\ connected_api (api w') = true
                      /\ local w' = local w
                      /\ Forall (fun item => item <> Js.Null) (items (ui w'))
                  | None =>
                      ProfileManager.getActiveProfileId (local w') = None
                      /\ (forall k, k <> ProfileManager.ACTIVE_PROFILE_KEY ->
                                    Storage.getItem (local w') k
                                    = Storage.getItem (local w) k)
                      /\ connected (ui w') = connected (ui w)
                      /\ items (ui w') = items (ui w)
                  end).
    { intros w2 e rest (Hs & Hl & Hse & Hh & Hu & Hf).
      unfold App.loadActiveProfile_catch.
      rewrite run_steps_bind, run_steps_act, run_steps_bind, run_steps_act.
      unfold retE. rewrite run_steps_ret. intros [= <- <-]. world_simpl.
      rewrite Hs, Hl, Hse, Hh, Hu, Hf. subst w0. world_simpl.
      repeat (split; [reflexivity|]). split; [apply lookup_delete_eq|].
      split; [|split; reflexivity].
      intros k Hk. unfold ProfileManager.clearActiveProfile, Storage.getItem,
        Storage.removeItem. apply lookup_delete_ne. congruence. }
    destruct (run_steps (JoplinApiService.connect env (Js.prop active "credentials"))
                answers w0) as [[[w2 rc] rest]|] eqn:Hc; [|discriminate].
    destruct (connect_steps_spec _ _ _ _ _ _ _ Hc) as (Hpage & Hrc).
    destruct rc as [[]|e]; [|exact (Hfail w2 e rest Hpage)].
    destruct Hrc as [Hcon _]. rewrite run_steps_bindE, getItems_steps, Hcon.
    destruct rest as [|ans rest]; [discriminate|].
    destruct (items_of_answer env ans) as [fetchedItems|e] eqn:Hitems;
      [|exact (Hfail w2 e rest Hpage)].
    rewrite run_steps_bind, run_steps_act, run_steps_bind, run_steps_act.
    unfold retE. rewrite run_steps_ret. intros [= <- <-]. world_simpl.
    destruct Hpage as (Hs & Hl & Hse & Hh & Hu & Hf).
    rewrite Hs, Hl, Hse, Hh, Hu, Hf. subst w0. world_simpl.
    repeat (split; [reflexivity|]). split; [exact Hcon|]. split; [reflexivity|].
    destruct ans as [resp|v|e]; try discriminate.
    destruct v; try discriminate. injection Hitems as <-.
    apply List.Forall_forall. intros x Hx. apply List.filter_In in Hx.
    destruct Hx as [_ Hx]. intros ->. discriminate.
Qed.

Lemma loadActiveProfile_witness :
  let page :=
    with_local
      {[ "joplin_active_profile" := "p1";
         "joplin_profile_p1" :=
           ProfileManager.stringify_text
             (Js.Obj [("id", Js.Str "p1");
                      ("credentials",
                       Credentials.to_js Examples.filesystem_credentials)]) ]}
      Examples.world0 in
  exists w',
    run (App.loadActiveProfile Examples.env)
      [Settled Js.Undefined; Rejected (Js.ErrorObj "offline")] page
    = Some (w', Js.Normal tt)
    /\ error (ui w') = None
    /\ ProfileManager.getActiveProfileId (local w') = None.
Proof.
  cbv zeta.
  set (page := with_local _ Examples.world0).
  assert (Ht : Js.truthy (ProfileManager.getActiveProfile (local page)) = true)
    by (vm_compute; reflexivity).
  destruct (run (App.loadActiveProfile Examples.env)
              [Settled Js.Undefined; Rejected (Js.ErrorObj "offline")] page)
    as [[w' r]|] eqn:Hrun; [|vm_compute in Hrun; discriminate].
  destruct (proj2 (loadActiveProfile_outcome Examples.env page) Ht _ _ _ Hrun)
    as (Hr & _ & He & _ & _ & _ & _ & Hp).
  subst r. exists w'. split; [reflexivity|]. split; [exact He|].
  vm_compute in Hrun. injection Hrun as <-.
  vm_compute in Hp. exact (proj1 Hp).
Defined.

(** ** [handleOAuthCallback]: the exchange fails *)

Lemma failed_exchange_throws (eng : Js.Engine) (ans : Answer) (page : World) :
  (forall resp, ans = Responded resp -> ok resp = false) ->
  exists e,
    OneDriveOAuthService.token_of_answer eng ans page = (page, Done (Js.Throw e))
    /\ (forall thrown, ans = Rejected thrown -> e = thrown)
    /\ (forall resp fields d,
           ans = Responded resp ->
           Js.parse (body resp) = Some (Js.Obj fields) ->
           Js.lookup fields "error_description" = Some (Js.Str d) ->
           d <> EmptyString ->
           e = Js.ErrorObj ("OAuth token exchange failed (" +:+ status resp
                            +:+ "): " +:+ d)).
Proof.
  intros Hfail. destruct ans as [resp|v|thrown].
  - unfold OneDriveOAuthService.token_of_answer. rewrite (Hfail resp eq_refl).
    cbn [negb]. unfold liftE, ret.
    match goal with
    | |- context [Js.get _ ?j "error_description"] =>
        destruct (exchange_error_throws eng j (status resp)) as [e He]
    end.
    exists e. split; [now rewrite He|]. split; [discriminate|].
    intros resp0 fields d [= <-] Hparse Hd Hne.
    unfold Js.JSON_parse in He. rewrite Hparse in He.
    unfold Js.get in He. cbn [Js.nullish Js.bind Js.prop] in He. rewrite Hd in He.
    cbn [Js.truthy] in He.
    destruct (String.eqb d EmptyString) eqn:Hde;
      [apply String.eqb_eq in Hde; contradiction|].
    cbn [negb Js.bind Js.to_string] in He. now injection He as <-.
  - eexists. split; [reflexivity|]. split; discriminate.
  - exists thrown. split; [reflexivity|]. split; [now intros t [= <-] | discriminate].
Qed.

(** X18.  When the address carries a fresh code, pending OneDrive credentials
    are stored and the verifier is present, the handler sends the
    exchange request and waits.  If the answer is a failure (a rejected
    [fetch] or a response that is not [ok]) the handler ends without
    throwing: the three keys of the flow are gone from [sessionStorage],
    the query is stripped from the address, [loading] is off and the
    error is shown (the message of the rejection, or the
    [error_description] of the provider's JSON answer with the status);
    no profile is saved, the service is not touched and no further
    request is made. *)
Theorem exchange_failure_clears_store
    (env : Env) (w : World) (code verifier : string) (pendingCreds : Js.value) :
  carries_code w code ->
  same_str (Storage.getItem (session w) App.PROCESSED) code = false ->
  pending_onedrive w pendingCreds ->
  Storage.getItem (session w) App.VERIFIER = Some verifier ->
  truthy_str (Some verifier) = true ->
  let req := OneDriveOAuthService.exchange_request
               (App.oauth_service env (Js.prop pendingCreds "onedrive")) code verifier in
  exists w1 k,
    App.handleOAuthCallback env w = (w1, Await (Fetch req) k)
    /\ forall ans page,
         (forall resp, ans = Responded resp -> ok resp = false) ->
         exists msg,
           snd (k ans page) = Done tt
           /\ (let page' := fst (k ans page) in
               store_empty page'
               /\ error (ui page') = Some msg
               /\ loading (ui page') = false
               /\ search page' = EmptyString
               /\ local page' = local page
               /\ api page' = api page
               /\ fetches page' = fetches page
               /\ href page' = href page
               /\ currentProfile (ui page') = currentProfile (ui page)
               /\ connected (ui page') = connected (ui page)
               /\ items (ui page') = items (ui page))
           /\ (forall m, ans = Rejected (Js.ErrorObj m) -> msg = m)
           /\ (forall t, ans = Rejected (Js.OtherValue t) ->
                         msg = "Failed to complete OAuth")
           /\ (forall resp fields d,
                  ans = Responded resp ->
                  Js.parse (body resp) = Some (Js.Obj fields) ->
                  Js.lookup fields "error_description" = Some (Js.Str d) ->
                  d <> EmptyString ->
                  msg = "OAuth token exchange failed (" +:+ status resp
                        +:+ "): " +:+ d).
Proof.
  intros Hcode Hfresh Hpending Hv Hne. cbv zeta.
  destruct (callback_issues_exchange env w code verifier pendingCreds
              Hcode Hfresh Hpending Hv Hne) as (k & Hrun & Hk).
  cbv zeta in Hrun. eexists _, k. split; [exact Hrun|].
  intros ans page Hfail. rewrite Hk.
  destruct (failed_exchange_throws (engine env) ans page Hfail) as (e & He & Hrej & Hresp).
  exists (Js.message_or "Failed to complete OAuth" e).
  unfold after_exchange, try_catch, bindE, bind, throwE. rewrite He.
  cbn [fst snd then_task]. unfold App.callback_catch, bind, act, retE, ret.
  cbn [fst snd then_task]. split; [reflexivity|]. split.
  - cbv zeta. world_simpl. unfold store_empty. world_simpl.
    unfold Storage.getItem, Storage.removeItem.
    split.
    { split; [|split].
      - rewrite !lookup_delete_ne by discriminate. apply lookup_delete_eq.
      - apply lookup_delete_eq.
      - rewrite lookup_delete_ne by discriminate. apply lookup_delete_eq. }
    repeat split.
  - split; [|split].
    + intros m Hm. now rewrite (Hrej _ Hm).
    + intros t Ht. now rewrite (Hrej _ Ht).
    + intros resp fields d Ha Hp Hd Hn. now rewrite (Hresp resp fields d Ha Hp Hd Hn).
Qed.

Lemma exchange_failure_store_witness :
  exists w1 k,
    App.handleOAuthCallback Examples.env Examples.world_returning
    = (w1, Await (Fetch Examples.token_request) k)
    /\ snd (k (Rejected (Js.ErrorObj "Failed to fetch")) w1) = Done tt
    /\ store_empty (fst (k (Rejected (Js.ErrorObj "Failed to fetch")) w1))
    /\ error (ui (fst (k (Rejected (Js.ErrorObj "Failed to fetch")) w1)))
       = Some "Failed to fetch".
Proof.
  assert (Hcode : carries_code Examples.world_returning "abc123")
    by (vm_compute; repeat split).
  assert (Hp : pending_onedrive Examples.world_returning Examples.pending_parsed)
    by (exists Examples.pending_text; vm_compute; repeat split).
  destruct (exchange_failure_clears_store Examples.env Examples.world_returning
              "abc123" "dBjftJeZ4CVP-mB92K27uhbUJU1p1r_wW1gFWFOEjXk"
              Examples.pending_parsed
              Hcode ltac:(vm_compute; reflexivity) Hp
              ltac:(vm_compute; reflexivity) eq_refl)
    as (w1 & k & Hrun & Hk).
  exists w1, k. split; [exact Hrun|].
  destruct (Hk (Rejected (Js.ErrorObj "Failed to fetch")) w1 ltac:(discriminate))
    as (msg & Hdone & Hstate & Hmsg & _).
  cbv zeta in Hstate. destruct Hstate as (Hempty & Herr & _).
  split; [exact Hdone|]. split; [exact Hempty|].
  rewrite Herr. now rewrite (Hmsg "Failed to fetch" eq_refl).
Defined.

(** ** The [OneDriveAuth] component *)



(** ** The login, from [handleConnect] to the exchange *)






(** ** What [handleConnect] never does *)

Lemma tolerant_true : tolerant (fun _ : World => True).
Proof. split; intros; exact I. Qed.

(** X22.  [handleConnect] never throws: under every schedule of its awaits
    and whatever the library and the platform answer, it ends normally.
    So the [catch (connectErr)] block that [handleOAuthCallback] puts
    around its call never runs: with or without that block the call
    ends in the same state. *)
Theorem handleConnect_never_throws (env : Env) (credentials : Js.value) :
  async_inv (fun _ => True) (fun r => r = Js.Normal tt)
    (App.handleConnect env credentials)
  /\ forall answers w,
       run (try_catch (App.handleConnect env credentials) App.sync_failed) answers w
       = run (App.handleConnect env credentials) answers w.
Proof.
  split.
  - apply (handleConnect_inv env (fun _ => True) tolerant_true); intros; try exact I.
    split; intros; exact I.
  - intros answers w. rewrite !run_run_steps, run_steps_try_catch, handleConnect_steps.
    destruct (run_steps (App.handleConnect_body env credentials) answers _)
      as [[[w1 [[]|e]] rest]|]; reflexivity.
Qed.

(** ** [handleOAuthCallback]: pending credentials of another provider *)

Lemma callback_enters_connect (env : Env) (w : World) (code text : string)
    (pendingCreds : Js.value) :
  carries_code w code ->
  same_str (Storage.getItem (session w) App.PROCESSED) code = false ->
  Storage.getItem (session w) App.PENDING = Some text ->
  truthy_str (Some text) = true ->
  Js.parse text = Some pendingCreds ->
  Js.nullish pendingCreds = false ->
  Js.is_string (Js.prop pendingCreds "type") "OneDrive"
  && Js.truthy (Js.prop pendingCreds "onedrive") = false ->
  App.handleOAuthCallback env w
  = bind (try_catch (App.handleConnect env pendingCreds) App.callback_catch)
      (fun _ => ret tt)
      (setLoading true
         (replaceState_pathname
            (session_remove App.PENDING (session_set App.PROCESSED code w)))).
Proof.
  intros (Herr & Hcode & Htruthy) Hfresh Htext Hnonempty Hparse Hobj Hother.
  unfold App.handleOAuthCallback. cbv zeta in Herr, Hcode.
  rewrite Herr, Hcode, Htruthy, Hfresh.
  assert (Hpend : Storage.getItem (session (session_set App.PROCESSED code w)) App.PENDING
                  = Some text).
  { world_simpl. unfold Storage.getItem, Storage.setItem in *.
    now rewrite lookup_insert_ne. }
  rewrite Hpend, Hnonempty.
  unfold App.callback_try, Js.JSON_parse. rewrite Hparse.
  unfold try_catch, bindE, bind, liftE, act, ret. cbn [fst snd then_task].
  rewrite (get_of_object _ _ _ Hobj).
  cbn [fst snd then_task]. rewrite Hother. reflexivity.
Qed.

(** X23.  When the address carries a fresh code and the pending credentials
    are not OneDrive credentials (Google Drive, say), the code is never
    exchanged: the handler marks the code, removes the pending
    credentials, strips the address and calls [handleConnect] with the
    stored credentials; it ends as that call ends.  No [fetch] is
    issued, the marker of the code stays in [sessionStorage], and a
    stored verifier is left as it is. *)
Theorem callback_other_provider
    (env : Env) (w : World) (code text : string) (pendingCreds : Js.value)
    (answers : list Answer) :
  carries_code w code ->
  same_str (Storage.getItem (session w) App.PROCESSED) code = false ->
  Storage.getItem (session w) App.PENDING = Some text ->
  truthy_str (Some text) = true ->
  Js.parse text = Some pendingCreds ->
  Js.nullish pendingCreds = false ->
  Js.is_string (Js.prop pendingCreds "type") "OneDrive"
  && Js.truthy (Js.prop pendingCreds "onedrive") = false ->
  let w0 := setLoading true
              (replaceState_pathname
                 (session_remove App.PENDING (session_set App.PROCESSED code w))) in
  run (App.handleOAuthCallback env) answers w
  = match run (App.handleConnect env pendingCreds) answers w0 with
    | Some (w', _) => Some (w', tt)
    | None => None
    end
  /\ forall w' u,
       run (App.handleOAuthCallback env) answers w = Some (w', u) ->
       fetches w' = fetches w
       /\ Storage.getItem (session w') App.PROCESSED = Some code
       /\ Storage.getItem (session w') App.VERIFIER
          = Storage.getItem (session w) App.VERIFIER.
Proof.
  intros Hcode Hfresh Htext Hne Hparse Hobj Hother. cbv zeta.
  pose proof (callback_enters_connect env w code text pendingCreds
                Hcode Hfresh Htext Hne Hparse Hobj Hother) as Henter.
  set (w0 := setLoading true _) in *.
  assert (Hrun : run (App.handleOAuthCallback env) answers w
                 = match run (App.handleConnect env pendingCreds) answers w0 with
                   | Some (w', _) => Some (w', tt)
                   | None => None
                   end).
  { rewrite !run_run_steps. unfold run_steps at 1. rewrite Henter.
    match goal with
    | |- context [steps ?a (snd (?m w0)) (fst (?m w0))] =>
        change (steps a (snd (m w0)) (fst (m w0))) with (run_steps m a w0)
    end.
    rewrite run_steps_bind, run_steps_try_catch, handleConnect_steps.
    destruct (run_steps (App.handleConnect_body env pendingCreds) answers _)
      as [[[w1 [[]|e]] rest]|]; reflexivity. }
  split; [exact Hrun|].
  intros w' u Hend. rewrite Hrun in Hend.
  destruct (run (App.handleConnect env pendingCreds) answers w0) as [[w1 r]|] eqn:Hc;
    [|discriminate].
  injection Hend as <- <-.
  set (P := fun page : World =>
              fetches page = fetches w
              /\ Storage.getItem (session page) App.PROCESSED = Some code
              /\ Storage.getItem (session page) App.VERIFIER
                 = Storage.getItem (session w) App.VERIFIER).
  assert (Htol : tolerant P) by (split; intros; assumption).
  assert (Hkeep : forall k v page, k = App.PENDING -> P page ->
                                   P (session_set k v page)
                                   /\ P (session_remove k page)).
  { intros k v page -> (Hf & Hp & Hv). unfold P. world_simpl.
    unfold Storage.getItem, Storage.setItem, Storage.removeItem in *.
    rewrite !lookup_insert_ne, !lookup_delete_ne by discriminate. repeat split; assumption. }
  assert (Hinv : async_inv P (fun r => r = Js.Normal tt)
                   (App.handleConnect env pendingCreds)).
  { apply (handleConnect_inv env P Htol).
    - intros page Hp. now apply (Hkeep App.PENDING EmptyString).
    - intros p page _ Hp. exact Hp.
    - unfold starts_oauth. intros Hs. apply andb_prop in Hs as [Hs _].
      rewrite Hs in Hother. discriminate.
    - intros _ t page Hp. now apply (Hkeep App.PENDING t). }
  assert (HP0 : P w0).
  { subst w0. unfold P. world_simpl.
    unfold Storage.getItem, Storage.setItem, Storage.removeItem.
    rewrite !lookup_delete_ne by discriminate.
    rewrite lookup_insert_eq, lookup_insert_ne by discriminate. repeat split. }
  destruct (Hinv w0 HP0) as [H1 H2].
  exact (proj1 (drive_inv P _ _ H2 answers _ w1 r H1 Hc)).
Qed.

Lemma callback_other_provider_witness :
  let text :=
    ProfileManager.stringify_text
      (Credentials.to_js
         (Credentials.mk Credentials.GoogleDrive None None None None
            (Some (Credentials.mkGoogledrive (Some "g-client") None None None)))) in
  let page :=
    mkWorld {[ "pending_oauth_credentials" := text ]} ∅ "?code=abc123" None
      Examples.ui0 Examples.api0 [] 0 in
  exists w',
    run (App.handleOAuthCallback Examples.env)
      [Settled Js.Undefined; Settled (Js.Arr [] [])] page
    = Some (w', tt)
    /\ fetches w' = []
    /\ Storage.getItem (session w') App.PROCESSED = Some "abc123".
Proof.
  cbv zeta.
  set (text := ProfileManager.stringify_text _).
  set (page := mkWorld _ _ _ _ _ _ _ _).
  assert (Hcode : carries_code page "abc123") by (vm_compute; repeat split).
  assert (Hfresh : same_str (Storage.getItem (session page) App.PROCESSED) "abc123"
                   = false) by (vm_compute; reflexivity).
  assert (Htext : Storage.getItem (session page) App.PENDING = Some text)
    by (vm_compute; reflexivity).
  assert (Hne : truthy_str (Some text) = true) by (vm_compute; reflexivity).
  destruct (Js.parse text) as [creds|] eqn:Hparse; [|vm_compute in Hparse; discriminate].
  assert (Hobj : Js.nullish creds = false).
  { pose proof Hparse as Hp. vm_compute in Hp. injection Hp as <-. reflexivity. }
  assert (Hother : Js.is_string (Js.prop creds "type") "OneDrive"
                   && Js.truthy (Js.prop creds "onedrive") = false).
  { pose proof Hparse as Hp. vm_compute in Hp. injection Hp as <-. reflexivity. }
  destruct (callback_other_provider Examples.env page "abc123" text creds
              [Settled Js.Undefined; Settled (Js.Arr [] [])]
              Hcode Hfresh Htext Hne Hparse Hobj Hother) as [_ Hframe].
  destruct (run (App.handleOAuthCallback Examples.env)
              [Settled Js.Undefined; Settled (Js.Arr [] [])] page)
    as [[w' []]|] eqn:Hrun; [|vm_compute in Hrun; discriminate].
  destruct (Hframe w' tt eq_refl) as (Hf & Hp & _).
  exists w'. split; [reflexivity|]. split; [exact Hf | exact Hp].
Defined.
